(** * Document ingestion pipeline: a shallow embedding of the services

    The development models four classes of the server,

    - [UniversalTokenCounter] and its wrapper [TokenCounter],
    - [DocumentChunker],
    - [FileExtractor],
    - [SecureFileProcessor],

    as Rocq functions, and proves the properties the specification states
    about them.  JavaScript strings are sequences of UTF-16 code units, thrown
    errors are values of a sum type, [async] functions are sequenced the way
    their [await]s sequence them, and a promise that the source never awaits
    stays a promise.  Third-party libraries (tiktoken, the document parsers),
    the file system and the clock are parameters. *)

From Stdlib Require Import Ascii String ZArith NArith Bool Lia Sorted List.
From Stdlib Require Strings.Byte.
Import ListNotations.

Set Implicit Arguments.
Open Scope string_scope.
Open Scope list_scope.
Open Scope Z_scope.

(* ===================================================================== *)
(** * Part I: the model *)
(* ===================================================================== *)

(** ** JavaScript strings and the built-ins the services call *)

Module Js.

(** A string is its list of UTF-16 code units. *)
Definition jsstring := list N.

(** A literal of the source, written as a Rocq string of ASCII characters. *)
Definition str (s : string) : jsstring :=
  List.map N_of_ascii (list_ascii_of_string s).

(** [s.length] *)
Definition len (A : Type) (s : list A) : Z := Z.of_nat (length s).

Fixpoint str_eqb (a b : jsstring) : bool :=
  match a, b with
  | [], [] => true
  | x :: a', y :: b' => N.eqb x y && str_eqb a' b'
  | _, _ => false
  end.

(** Truthiness of a string: [!s] holds of the empty string only. *)
Definition truthy (s : jsstring) : bool :=
  match s with [] => false | _ :: _ => true end.

Definition in_range (lo hi c : N) : bool := (N.leb lo c && N.leb c hi)%bool.

(** [\s] of a regular expression and the characters [trim] strips: the
    WhiteSpace and LineTerminator productions of ECMAScript. *)
Definition isSpace (c : N) : bool :=
  (in_range 9 13 c || N.eqb c 32 || N.eqb c 160 || N.eqb c 5760
   || in_range 8192 8202 c || N.eqb c 8232 || N.eqb c 8233
   || N.eqb c 8239 || N.eqb c 8287 || N.eqb c 12288 || N.eqb c 65279)%bool.

Definition isUpper (c : N) : bool := in_range 65 90 c.
Definition isLower (c : N) : bool := in_range 97 122 c.
Definition isDigit (c : N) : bool := in_range 48 57 c.

(** [\w] without the unicode flag: [[A-Za-z0-9_]]. *)
Definition isWord (c : N) : bool :=
  (isUpper c || isLower c || isDigit c || N.eqb c 95)%bool.

Fixpoint takeWhile (A : Type) (p : A -> bool) (s : list A) : list A :=
  match s with
  | [] => []
  | c :: r => if p c then c :: takeWhile p r else []
  end.

Fixpoint dropWhile (A : Type) (p : A -> bool) (s : list A) : list A :=
  match s with
  | [] => []
  | c :: r => if p c then dropWhile p r else s
  end.

(** [s.trim()] *)
Definition trimStart (s : jsstring) : jsstring := dropWhile isSpace s.
Definition trimEnd (s : jsstring) : jsstring := rev (dropWhile isSpace (rev s)).
Definition trim (s : jsstring) : jsstring := trimEnd (trimStart s).

(** The first [n] elements, counted in [Z] so that the limits of the source
    (50000, 100000, ...) need no unary number. *)
Fixpoint take (A : Type) (n : Z) (s : list A) : list A :=
  match s with
  | [] => []
  | c :: r => if n <=? 0 then [] else c :: take (n - 1) r
  end.

Fixpoint drop (A : Type) (n : Z) (s : list A) : list A :=
  match s with
  | [] => []
  | c :: r => if n <=? 0 then s else drop (n - 1) r
  end.

(** [s.substring(a, b)]: both ends are clamped to [0, s.length] and swapped
    when [a > b]. *)
Definition substring (A : Type) (a b : Z) (s : list A) : list A :=
  let lo := Z.min a b in
  let hi := Z.max a b in
  take (hi - Z.max 0 lo) (drop lo s).

(** [arr.slice(0, n)] for [n >= 0]. *)
Definition slice0 (A : Type) (n : Z) (l : list A) : list A := take n l.

(** [s.lastIndexOf(ch, from)] for a one-character needle: the greatest
    index [i <= from] with [s[i] = ch], or [-1]. *)
Fixpoint lastIndexOf_from (ch : N) (from : Z) (i : Z) (s : jsstring) (found : Z) : Z :=
  match s with
  | [] => found
  | c :: r =>
      if from <? i then found
      else lastIndexOf_from ch from (i + 1) r (if N.eqb c ch then i else found)
  end.

Definition lastIndexOf (ch : N) (from : Z) (s : jsstring) : Z :=
  lastIndexOf_from ch from 0 s (-1).

(** [arr.join(sep)] *)
Fixpoint join (sep : jsstring) (l : list jsstring) : jsstring :=
  match l with
  | [] => []
  | [x] => x
  | x :: r => x ++ sep ++ join sep r
  end.

(** Upper-casing of an ASCII letter; the canonical form the [i] flag compares
    (without the [u] flag a code unit of 128 or more never becomes equal to
    an ASCII one). *)
Definition asciiUpper (c : N) : N := if isLower c then (c - 32)%N else c.

Definition ci_eqb (p c : N) : bool := N.eqb (asciiUpper p) (asciiUpper c).

(** Does [s] start with [p], ASCII case ignored?  Returns the rest after [p]. *)
Fixpoint stripPrefixCI (p s : jsstring) : option jsstring :=
  match p, s with
  | [], _ => Some s
  | _ :: _, [] => None
  | a :: p', c :: s' => if ci_eqb a c then stripPrefixCI p' s' else None
  end.

Fixpoint stripPrefix (p s : jsstring) : option jsstring :=
  match p, s with
  | [], _ => Some s
  | _ :: _, [] => None
  | a :: p', c :: s' => if N.eqb a c then stripPrefix p' s' else None
  end.

(** [String.prototype.toLowerCase], per code unit.  Exact on U+0000-U+00FF,
    on U+0130 and on U+212A (the two characters outside ASCII whose lower
    case contains an ASCII letter); every other code unit is kept, its lower
    case being outside ASCII as well. *)
Definition lowerUnit (c : N) : jsstring :=
  if isUpper c then [(c + 32)%N]
  else if (in_range 192 222 c && negb (N.eqb c 215))%bool then [(c + 32)%N]
  else if N.eqb c 304 then [105; 775]%N
  else if N.eqb c 8490 then [107]%N
  else [c].

Definition toLowerCase (s : jsstring) : jsstring := flat_map lowerUnit s.

(** Decimal digits of a non-negative integer, as template literals print
    them. *)
Fixpoint digits_fuel (fuel : nat) (n : Z) (acc : jsstring) : jsstring :=
  match fuel with
  | O => acc
  | S f =>
      let acc' := (Z.to_N (48 + n mod 10)) :: acc in
      if n <? 10 then acc' else digits_fuel f (n / 10) acc'
  end.

Definition decimal (n : Z) : jsstring :=
  if n <? 0 then str "-" ++ digits_fuel (S (Z.to_nat (Z.log2 (-n)))) (-n) []
  else digits_fuel (S (Z.to_nat (Z.log2 n))) n [].

End Js.
Import Js.

(** ** Regular expressions of the source

    Every regular expression literal of the services is a [Matcher]: given the
    code unit before the current position and the input from the current
    position on, the number of code units its leftmost-first match consumes
    there.  None of the literals matches the empty string. *)

Module Regex.

Definition Matcher := option N -> jsstring -> option nat.

(** [re.test(s)] with [lastIndex = 0]. *)
Fixpoint test_from (m : Matcher) (prev : option N) (s : jsstring) : bool :=
  match m prev s with
  | Some _ => true
  | None => match s with
            | [] => false
            | c :: r => test_from m (Some c) r
            end
  end.

Definition test (m : Matcher) (s : jsstring) : bool := test_from m None s.

(** [s.replace(re, repl)] for a global [re] and a replacement without [$]. *)
Fixpoint replace_from (m : Matcher) (repl : jsstring) (prev : option N)
         (skip : nat) (s : jsstring) : jsstring :=
  match s with
  | [] => []
  | c :: r =>
      match skip with
      | S k => replace_from m repl (Some c) k r
      | O =>
          match m prev s with
          | Some (S k) => repl ++ replace_from m repl (Some c) k r
          | _ => c :: replace_from m repl (Some c) O r
          end
      end
  end.

Definition replace (m : Matcher) (repl s : jsstring) : jsstring :=
  replace_from m repl None O s.

(** [s.split(re)]: the pieces between the matches, in order; [cur] is the
    piece being read, reversed. *)
Fixpoint split_from (m : Matcher) (prev : option N) (skip : nat)
         (cur : jsstring) (s : jsstring) : list jsstring :=
  match s with
  | [] => [rev cur]
  | c :: r =>
      match skip with
      | S k => split_from m (Some c) k cur r
      | O =>
          match m prev s with
          | Some (S k) => rev cur :: split_from m (Some c) k [] r
          | _ => split_from m (Some c) O (c :: cur) r
          end
      end
  end.

Definition split (m : Matcher) (s : jsstring) : list jsstring :=
  split_from m None O [] s.

(** A literal, case ignored or not. *)
Definition litCI (p : jsstring) : Matcher := fun _ s =>
  match stripPrefixCI p s with Some _ => Some (length p) | None => None end.

Definition lit (p : jsstring) : Matcher := fun _ s =>
  match stripPrefix p s with Some _ => Some (length p) | None => None end.

(** One code unit of a class. *)
Definition oneOf (p : N -> bool) : Matcher := fun _ s =>
  match s with
  | c :: _ => if p c then Some 1%nat else None
  | [] => None
  end.

(** Index of the last element satisfying [p], if any. *)
Fixpoint lastIndexWhere (p : N -> bool) (i : nat) (s : jsstring) (found : option nat)
  : option nat :=
  match s with
  | [] => found
  | c :: r => lastIndexWhere p (S i) r (if p c then Some i else found)
  end.

(** Index of the first position where [m] matches, with the match length. *)
Fixpoint search_from (m : Matcher) (prev : option N) (i : nat) (s : jsstring)
  : option (nat * nat) :=
  match m prev s with
  | Some k => Some (i, k)
  | None => match s with
            | [] => None
            | c :: r => search_from m (Some c) (S i) r
            end
  end.

(** [/\r\n/g] *)
Definition re_crlf : Matcher := lit [13; 10]%N.
(** [/\r/g] *)
Definition re_cr : Matcher := lit [13]%N.

(** [/\n{4,}/g]: a greedy run of at least four line feeds. *)
Definition re_newlines4 : Matcher := fun _ s =>
  let k := length (takeWhile (N.eqb 10) s) in
  if (4 <=? k)%nat then Some k else None.

(** [/\n\s*\n/]: a line feed, then the longest run of white space that still
    ends in a line feed. *)
Definition re_blank_line : Matcher := fun _ s =>
  match s with
  | 10%N :: r =>
      match lastIndexWhere (N.eqb 10) O (takeWhile isSpace r) None with
      | Some j => Some (S (S j))
      | None => None
      end
  | _ => None
  end.

Definition isSentenceEnd (c : N) : bool :=
  (N.eqb c 46 || N.eqb c 33 || N.eqb c 63)%bool.

(** [/(?<=[.!?])\s+(?=[A-Z])/]: white space after sentence punctuation and
    before a capital.  The run is the maximal one: a shorter run is followed
    by white space, not by a capital. *)
Definition re_sentence_gap : Matcher := fun prev s =>
  match prev with
  | Some p =>
      if isSentenceEnd p then
        match takeWhile isSpace s, dropWhile isSpace s with
        | (_ :: _) as run, c :: _ => if isUpper c then Some (length run) else None
        | _, _ => None
        end
      else None
  | None => None
  end.

(** [/\s+/] *)
Definition re_spaces : Matcher := fun _ s =>
  match takeWhile isSpace s with
  | [] => None
  | run => Some (length run)
  end.

(** [/<script[^>]*>/gi] *)
Definition re_script_tag : Matcher := fun _ s =>
  match stripPrefixCI (str "<script") s with
  | Some r =>
      match dropWhile (fun c => negb (N.eqb c 62)) r with
      | _ :: _ => Some (7 + length (takeWhile (fun c => negb (N.eqb c 62)) r) + 1)%nat
      | [] => None
      end
  | None => None
  end.

(** [/<script/gi] *)
Definition re_script_open : Matcher := litCI (str "<script").
(** [/javascript:/gi] *)
Definition re_javascript : Matcher := litCI (str "javascript:").
(** [/vbscript:/gi] *)
Definition re_vbscript : Matcher := litCI (str "vbscript:").
(** [/%3Cscript/gi] *)
Definition re_encoded_script : Matcher := litCI (str "%3Cscript").
(** [/data:text\/html/gi] *)
Definition re_data_html : Matcher := litCI (str "data:text/html").

(** [/on\w+\s*=/gi]: the word run and the white-space run are the maximal
    ones, since neither a word character nor white space is an equals sign. *)
Definition re_event_handler : Matcher := fun _ s =>
  match stripPrefixCI (str "on") s with
  | Some r =>
      match takeWhile isWord r with
      | [] => None
      | w =>
          let r' := dropWhile isWord r in
          match dropWhile isSpace r' with
          | 61%N :: _ => Some (2 + length w + length (takeWhile isSpace r') + 1)%nat
          | _ => None
          end
      end
  | None => None
  end.

(** [/on\w+=/gi] *)
Definition re_event_handler_tight : Matcher := fun _ s =>
  match stripPrefixCI (str "on") s with
  | Some r =>
      match takeWhile isWord r with
      | [] => None
      | w =>
          match dropWhile isWord r with
          | 61%N :: _ => Some (2 + length w + 1)%nat
          | _ => None
          end
      end
  | None => None
  end.

(** [/<script[\s\S]*?<\/script>/gi]: lazily up to the first closing tag. *)
Definition re_script_element : Matcher := fun _ s =>
  match stripPrefixCI (str "<script") s with
  | Some r =>
      match search_from (litCI (str "</script>")) None O r with
      | Some (i, k) => Some (7 + i + k)%nat
      | None => None
      end
  | None => None
  end.

(** [/[\x00-\x08\x0B\x0C\x0E-\x1F\x7F]/g] *)
Definition isControl (c : N) : bool :=
  (in_range 0 8 c || N.eqb c 11 || N.eqb c 12 || in_range 14 31 c || N.eqb c 127)%bool.
Definition re_control : Matcher := oneOf isControl.

(** The class of [<], [>], [:], the double quote, [|], [?], the star and
    the control characters U+0000-U+001F, with the [g] flag. *)
Definition isInvalidNameChar (c : N) : bool :=
  (N.eqb c 60 || N.eqb c 62 || N.eqb c 58 || N.eqb c 34 || N.eqb c 124
   || N.eqb c 63 || N.eqb c 42 || in_range 0 31 c)%bool.
Definition re_invalid_chars : Matcher := oneOf isInvalidNameChar.

(** [/\.\./] *)
Definition re_path_traversal : Matcher := lit (str "..").

(** [/^(CON|PRN|AUX|NUL|COM[1-9]|LPT[1-9])$/i], tested against a whole
    string: [^] and [$] carry no [m] flag. *)
Definition reserved_name (s : jsstring) : bool :=
  let whole p := match stripPrefixCI (str p) s with Some [] => true | _ => false end in
  let numbered p := match stripPrefixCI (str p) s with
                    | Some [d] => in_range 49 57 d
                    | _ => false
                    end in
  (whole "CON" || whole "PRN" || whole "AUX" || whole "NUL"
   || numbered "COM" || numbered "LPT")%bool.

(** [/[^a-zA-Z0-9._-]/g] *)
Definition isSafeNameChar (c : N) : bool :=
  (isLower c || isUpper c || isDigit c || N.eqb c 46 || N.eqb c 95 || N.eqb c 45)%bool.
Definition re_unsafe_name_char : Matcher := oneOf (fun c => negb (isSafeNameChar c)).

(** [/\n{3,}/g] *)
Definition re_newlines3 : Matcher := fun _ s =>
  let k := length (takeWhile (N.eqb 10) s) in
  if (3 <=? k)%nat then Some k else None.

(** [/[ \t]{2,}/g] *)
Definition isBlank (c : N) : bool := (N.eqb c 32 || N.eqb c 9)%bool.
Definition re_blanks2 : Matcher := fun _ s =>
  let k := length (takeWhile isBlank s) in
  if (2 <=? k)%nat then Some k else None.

(** The LineTerminator production: what [^] follows and [$] precedes under
    the [m] flag. *)
Definition isLineTerminator (c : N) : bool :=
  (N.eqb c 10 || N.eqb c 13 || N.eqb c 8232 || N.eqb c 8233)%bool.

(** [/^\s+|\s+$/gm].  At the start of a line the first alternative takes
    the whole run of white space.  Elsewhere the second alternative takes the
    longest part of the run that ends the input or stands before a line
    terminator; a line terminator being white space, that is the run up to
    its last line terminator, or the whole run when it ends the input. *)
Definition re_line_edges : Matcher := fun prev s =>
  match takeWhile isSpace s with
  | [] => None
  | (_ :: _) as run =>
      let atLineStart := match prev with
                         | None => true
                         | Some p => isLineTerminator p
                         end in
      if atLineStart then Some (length run)
      else
        match dropWhile isSpace s with
        | [] => Some (length run)
        | _ :: _ =>
            match lastIndexWhere isLineTerminator O run None with
            | Some (S j) => Some (S j)
            | _ => None
            end
        end
  end.

(** The class of [<], [>], [:] and the two quotes, with the [g] flag. *)
Definition isSheetNameMarkup (c : N) : bool :=
  (N.eqb c 60 || N.eqb c 62 || N.eqb c 58 || N.eqb c 34 || N.eqb c 39)%bool.
Definition re_sheet_markup : Matcher := oneOf isSheetNameMarkup.

End Regex.

(** ** Thrown values *)

Inductive ErrorKind := ErrorK | TypeErrorK | ReferenceErrorK.

Record JsError := mkError { kind : ErrorKind; message : jsstring }.

Inductive Result (A : Type) :=
| Ok (a : A)
| Throw (e : JsError).
Arguments Ok {A} a.
Arguments Throw {A} e.

(** [throw new Error(msg)] *)
Definition throwError (A : Type) (msg : jsstring) : Result A :=
  Throw (mkError ErrorK msg).
Arguments throwError {A} msg.

Definition bind (A B : Type) (r : Result A) (k : A -> Result B) : Result B :=
  match r with
  | Ok a => k a
  | Throw e => Throw e
  end.

Notation "x <- c ;; k" := (bind c (fun x => k))
  (at level 61, c at next level, right associativity).
Notation "c ;;; k" := (bind c (fun _ => k))
  (at level 61, right associativity).

(** [try { body } catch (error) { handler(error) }] *)
Definition tryCatch (A : Type) (body : Result A) (handler : JsError -> Result A) : Result A :=
  match body with
  | Ok a => Ok a
  | Throw e => handler e
  end.

(** What [Promise.race] between an operation and a timer settles to first is
    an input of a run: real time is not modelled. *)
Inductive Race := OperationFirst | TimerFirst.

(** ** Object literals used as tables

    A property read on an object literal finds the literal's own entries
    and, failing that, what every object inherits from [Object.prototype];
    [in] is true of both. *)

Module JsObject.

Definition prototypeKeys : list string :=
  ["constructor"; "__defineGetter__"; "__defineSetter__"; "hasOwnProperty";
   "__lookupGetter__"; "__lookupSetter__"; "isPrototypeOf";
   "propertyIsEnumerable"; "toString"; "valueOf"; "__proto__"; "toLocaleString"].

Inductive Property (A : Type) :=
| Own (a : A)
| Inherited
| Missing.
Arguments Own {A} a.
Arguments Inherited {A}.
Arguments Missing {A}.

Fixpoint own (A : Type) (o : list (string * A)) (k : jsstring) : option A :=
  match o with
  | [] => None
  | (k', a) :: r => if str_eqb (str k') k then Some a else own r k
  end.

Definition get (A : Type) (o : list (string * A)) (k : jsstring) : Property A :=
  match own o k with
  | Some a => Own a
  | None => if existsb (fun p => str_eqb (str p) k) prototypeKeys then Inherited else Missing
  end.

(** [k in o] *)
Definition has (A : Type) (o : list (string * A)) (k : jsstring) : bool :=
  match get o k with
  | Missing => false
  | _ => true
  end.

End JsObject.

(** ** Numbers

    Lengths, indices and token counts are integers; they are far below 2^53,
    so the arithmetic of the source on them is exact.  The few products with
    a decimal constant (1.1, 0.3, 0.5, an approximation ratio) are double
    products: a double is kept as [mant / 2^scale] and every product and sum
    is rounded to 53 significant bits, ties to even, as IEEE 754 does. *)

Module Dbl.

Record dbl := mk { mant : Z; scale : Z }.

Definition bits (n : Z) : Z := if n <=? 0 then 0 else Z.log2 n + 1.

(** Rounding of a non-negative integer to 53 significant bits. *)
Definition round53 (n : Z) : Z :=
  let s := bits n - 53 in
  if s <=? 0 then n
  else
    let q := n / 2 ^ s in
    let r := n mod 2 ^ s in
    let h := 2 ^ (s - 1) in
    let q' := if ((h <? r) || ((r =? h) && Z.odd q))%bool then q + 1 else q in
    q' * 2 ^ s.

(** The doubles nearest to the decimal literals of the source. *)
Definition d1_0 : dbl := mk 4503599627370496 52.
Definition d1_1 : dbl := mk 4953959590107546 52.
Definition d1_2 : dbl := mk 5404319552844595 52.
Definition d0_8 : dbl := mk 7205759403792794 53.
Definition d0_9 : dbl := mk 8106479329266893 53.
Definition d0_5 : dbl := mk 4503599627370496 53.
Definition d0_3 : dbl := mk 5404319552844595 54.

(** [n * d] for an integer [n >= 0]. *)
Definition mul_int (n : Z) (d : dbl) : dbl := mk (round53 (n * mant d)) (scale d).

(** [n + d] for an integer [n >= 0]. *)
Definition add_int (n : Z) (d : dbl) : dbl :=
  mk (round53 (n * 2 ^ scale d + mant d)) (scale d).

(** [Math.round(d)]: the nearest integer, a tie going up. *)
Definition Math_round (d : dbl) : Z := (2 * mant d + 2 ^ scale d) / (2 * 2 ^ scale d).

(** [n <= d] and [n > d] for an integer [n]. *)
Definition int_leb (n : Z) (d : dbl) : bool := n * 2 ^ scale d <=? mant d.
Definition int_gtb (n : Z) (d : dbl) : bool := mant d <? n * 2 ^ scale d.

(** [a / b] for integers [0 <= a < 2^53] and [b > 0]: the quotient,
    rounded to 53 significant bits, ties to even.  The scale is the one that
    leaves 53 bits before the binary point. *)
Definition div_int (a b : Z) : dbl :=
  if a <=? 0 then mk 0 0
  else
    let e0 := 52 + bits b - bits a in
    let e := if a * 2 ^ e0 / b <? 2 ^ 52 then e0 + 1 else e0 in
    let n := a * 2 ^ e in
    let q := n / b in
    let r := n mod b in
    let q' := if ((b <? 2 * r) || ((2 * r =? b) && Z.odd q))%bool then q + 1 else q in
    mk q' e.

(** [a * b] and [a + b] for doubles [a, b >= 0]: the exact product and sum
    of the two fractions, rounded. *)
Definition mul (a b : dbl) : dbl := mk (round53 (mant a * mant b)) (scale a + scale b).

Definition add (a b : dbl) : dbl :=
  let s := Z.max (scale a) (scale b) in
  mk (round53 (mant a * 2 ^ (s - scale a) + mant b * 2 ^ (s - scale b))) s.

(** The default [bufferPercent], [0.2]. *)
Definition d0_2 : dbl := mk 7205759403792794 55.

(** [d.toFixed(4)] for [0 <= d < 1e21]: the integer nearest to [d * 10^4],
    a tie going up, printed with four decimals. *)
Definition tenThousandths (d : dbl) : Z :=
  (2 * mant d * 10000 + 2 ^ scale d) / (2 * 2 ^ scale d).

Definition digit (n : Z) : N := Z.to_N (48 + n mod 10).

Definition printFixed4 (n : Z) : jsstring :=
  decimal (n / 10000)
  ++ [46%N; digit (n / 1000); digit (n / 100); digit (n / 10); digit n].

Definition toFixed4 (d : dbl) : jsstring := printFixed4 (tenThousandths d).

(** [parseFloat(s)] for an [s] that [toFixed(4)] printed: the double nearest
    to the decimal. *)
Definition parseFixed4 (s : jsstring) : dbl :=
  let n := fold_left (fun acc c => if isDigit c then acc * 10 + (Z.of_N c - 48) else acc) s 0 in
  div_int n 10000.

(** [Math.floor(d)] and [Math.ceil(d)] for [d >= 0]. *)
Definition Math_floor (d : dbl) : Z := mant d / 2 ^ scale d.
Definition Math_ceil (d : dbl) : Z := (mant d + 2 ^ scale d - 1) / 2 ^ scale d.

End Dbl.

(** [Math.ceil(n / 4)] for an integer [n >= 0]. *)
Definition ceil_div4 (n : Z) : Z := (n + 3) / 4.

(** A number that may be [NaN]. *)
Inductive JsNumber := Num (z : Z) | NaN.

(** ** Maps

    A [Map] keeps its entries in insertion order; [set] on a present key
    replaces the value in place. *)

Module JsMap.

Definition t (V : Type) := list (jsstring * V).

Fixpoint get (V : Type) (k : jsstring) (m : t V) : option V :=
  match m with
  | [] => None
  | (k', v) :: r => if str_eqb k k' then Some v else get k r
  end.

Fixpoint set (V : Type) (k : jsstring) (v : V) (m : t V) : t V :=
  match m with
  | [] => [(k, v)]
  | (k', v') :: r => if str_eqb k k' then (k, v) :: r else (k', v') :: set k v r
  end.

Fixpoint delete (V : Type) (k : jsstring) (m : t V) : t V :=
  match m with
  | [] => []
  | (k', v') :: r => if str_eqb k k' then r else (k', v') :: delete k r
  end.

Definition size (V : Type) (m : t V) : Z := len m.

End JsMap.

(** ** UniversalTokenCounter (services/universalTokenCounter.js) *)

Module UniversalTokenCounter.

(** [encoder.encode(text)]: the token ids, or a throw (tiktoken refuses a
    text that holds a special token, and a freed encoder refuses all). *)
Definition Encoder := jsstring -> Result (list N).

(** The tiktoken module. *)
Record Tiktoken := { encoding_for_model : jsstring -> Result Encoder }.

(** Prices are kept in millionths of a dollar per 1K tokens. *)
Record ModelSpec := {
  provider : string;
  contextWindow : Z;
  inputCost : Z;
  outputCost : Z;
  hasEncoder : bool;
  approximationRatio : option Dbl.dbl;
  category : string
}.

Record t := {
  encoders : JsMap.t Encoder;
  fallbackEncoder : Encoder;
  modelDatabase : JsMap.t ModelSpec
}.

Definition openaiModels : list jsstring :=
  List.map str ["gpt-4"; "gpt-4-turbo"; "gpt-4o"; "gpt-4o-mini";
                "gpt-3.5-turbo"; "gpt-3.5-turbo-16k"].

(** [loadOpenAIEncoders]: an encoder per OpenAI model, the GPT-4 one where
    the model's own cannot be loaded, and the GPT-4 one as the fallback. *)
Fixpoint loadEncodersFor (tk : Tiktoken) (models : list jsstring)
         (acc : JsMap.t Encoder) : Result (JsMap.t Encoder) :=
  match models with
  | [] => Ok acc
  | model :: rest =>
      enc <- tryCatch (encoding_for_model tk model)
                      (fun _ => encoding_for_model tk (str "gpt-4")) ;;
      loadEncodersFor tk rest (JsMap.set model enc acc)
  end.

Definition loadOpenAIEncoders (tk : Tiktoken) : Result (JsMap.t Encoder * Encoder) :=
  encs <- loadEncodersFor tk openaiModels [] ;;
  fb <- encoding_for_model tk (str "gpt-4") ;;
  Ok (encs, fb).

Definition exact (p : string) (w i o : Z) (c : string) : ModelSpec :=
  Build_ModelSpec p w i o true None c.
Definition approx (p : string) (w i o : Z) (r : Dbl.dbl) (c : string) : ModelSpec :=
  Build_ModelSpec p w i o false (Some r) c.

Definition modelSpecs : list (string * ModelSpec) :=
  [ ("gpt-4",            exact "openai" 8192 30000 60000 "flagship");
    ("gpt-4-turbo",      exact "openai" 128000 10000 30000 "flagship");
    ("gpt-4o",           exact "openai" 128000 2500 10000 "flagship");
    ("gpt-4o-mini",      exact "openai" 128000 150 600 "efficient");
    ("gpt-3.5-turbo",    exact "openai" 4096 1500 2000 "efficient");
    ("claude-3-opus",    approx "anthropic" 200000 15000 75000 Dbl.d1_2 "flagship");
    ("claude-3-sonnet",  approx "anthropic" 200000 3000 15000 Dbl.d1_2 "balanced");
    ("claude-3-haiku",   approx "anthropic" 200000 250 1250 Dbl.d1_2 "efficient");
    ("claude-3.5-sonnet", approx "anthropic" 200000 3000 15000 Dbl.d1_2 "flagship");
    ("gemini-1.5-pro",   approx "google" 2000000 1250 5000 Dbl.d0_8 "flagship");
    ("gemini-1.5-flash", approx "google" 1000000 75 300 Dbl.d0_8 "efficient");
    ("gemini-pro",       approx "google" 32768 500 1500 Dbl.d0_8 "balanced");
    ("deepseek-chat",    approx "deepseek" 32768 140 280 Dbl.d1_0 "efficient");
    ("deepseek-coder",   approx "deepseek" 16384 140 280 Dbl.d1_0 "specialized");
    ("mistral-large",    approx "mistral" 32768 4000 12000 Dbl.d1_1 "flagship");
    ("mistral-medium",   approx "mistral" 32768 2750 8100 Dbl.d1_1 "balanced");
    ("llama-3-70b",      approx "meta" 8192 590 790 Dbl.d0_9 "balanced");
    ("llama-3-8b",       approx "meta" 8192 50 80 Dbl.d0_9 "efficient") ].

Definition aliases : list (string * list string) :=
  [ ("gpt-4", ["gpt4"; "gpt-4-0613"]);
    ("gpt-4-turbo", ["gpt-4-turbo-preview"; "gpt-4-1106-preview"]);
    ("gpt-4o", ["gpt-4o-2024-05-13"]);
    ("gpt-3.5-turbo", ["gpt3.5"; "gpt-3.5"; "gpt-3.5-turbo-0613"]);
    ("claude-3-opus", ["claude-opus"; "opus"]);
    ("claude-3-sonnet", ["claude-sonnet"; "sonnet"]);
    ("claude-3-haiku", ["claude-haiku"; "haiku"]);
    ("claude-3.5-sonnet", ["claude-3.5"; "claude-3.5-sonnet-20241022"]);
    ("gemini-1.5-pro", ["gemini-pro-1.5"; "gemini-1.5"]);
    ("gemini-pro", ["gemini"; "gemini-pro-vision"]) ].

Fixpoint aliasesOf (modelId : string) (table : list (string * list string)) : list string :=
  match table with
  | [] => []
  | (k, v) :: r => if String.eqb modelId k then v else aliasesOf modelId r
  end.

(** [addModelAliases] *)
Definition addModelAliases (modelId : string) (spec : ModelSpec)
           (db : JsMap.t ModelSpec) : JsMap.t ModelSpec :=
  fold_left (fun db alias => JsMap.set (str alias) spec db) (aliasesOf modelId aliases) db.

(** [loadModelDatabase] *)
Definition loadModelDatabase : JsMap.t ModelSpec :=
  fold_left (fun db entry =>
               addModelAliases (fst entry) (snd entry)
                               (JsMap.set (str (fst entry)) (snd entry) db))
            modelSpecs [].

(** [initialize]; its outcome is what [initializationPromise] settles to. *)
Definition initialize (tk : Tiktoken) : Result t :=
  encs <- loadOpenAIEncoders tk ;;
  Ok {| encoders := fst encs; fallbackEncoder := snd encs;
        modelDatabase := loadModelDatabase |}.

(** [normalizeModelName] *)
Definition normalizeModelName (model : jsstring) : jsstring := trim (toLowerCase model).

(** [fallbackTokenCount] *)
Definition fallbackTokenCount (u : t) (text : jsstring) : Z :=
  match fallbackEncoder u text with
  | Ok toks => len toks
  | Throw _ => ceil_div4 (len text)
  end.

(** [Math.round(baseTokens * (modelSpec.approximationRatio || 1.0))] *)
Definition scaleTokens (baseTokens : Z) (spec : ModelSpec) : Z :=
  let ratio := match approximationRatio spec with
               | Some r => r
               | None => Dbl.d1_0
               end in
  Dbl.Math_round (Dbl.mul_int baseTokens ratio).

(** [countTokens(text, model)], [text] and [model] being strings. *)
Definition countTokens (init : Result t) (text model : jsstring) : Result Z :=
  u <- init ;;
  if negb (truthy text) then Ok 0
  else
    let normalizedModel := normalizeModelName model in
    match JsMap.get normalizedModel (modelDatabase u) with
    | None => Ok (fallbackTokenCount u text)
    | Some modelSpec =>
        if hasEncoder modelSpec then
          let encoder := match JsMap.get normalizedModel (encoders u) with
                         | Some e => e
                         | None => fallbackEncoder u
                         end in
          toks <- encoder text ;;
          Ok (len toks)
        else
          toks <- fallbackEncoder u text ;;
          Ok (scaleTokens (len toks) modelSpec)
    end.

(** [(tokenCount / 1000) * costPer1K], printed by [toFixed(4)]; the price
    is the double nearest to its decimal. *)
Definition costString (tokenCount costPer1K : Z) : jsstring :=
  Dbl.toFixed4 (Dbl.mul (Dbl.div_int tokenCount 1000) (Dbl.div_int costPer1K 1000000)).

(** [estimateInputCost] and [estimateOutputCost] *)
Definition estimateInputCost (init : Result t) (tokenCount : Z) (model : jsstring)
  : Result jsstring :=
  u <- init ;;
  match JsMap.get (normalizeModelName model) (modelDatabase u) with
  | None => Ok (str "0.0000")
  | Some modelSpec => Ok (costString tokenCount (inputCost modelSpec))
  end.

Definition estimateOutputCost (init : Result t) (tokenCount : Z) (model : jsstring)
  : Result jsstring :=
  u <- init ;;
  match JsMap.get (normalizeModelName model) (modelDatabase u) with
  | None => Ok (str "0.0000")
  | Some modelSpec => Ok (costString tokenCount (outputCost modelSpec))
  end.

(** [modelSpec.contextWindow || 8192], [modelSpec] being [{}] for a model
    the database does not hold. *)
Definition windowOf (modelSpec : option ModelSpec) : Z :=
  match modelSpec with
  | Some spec => if contextWindow spec =? 0 then 8192 else contextWindow spec
  | None => 8192
  end.

(** [s || fallback] for a string. *)
Definition orElse (s fallback : string) : string :=
  if truthy (str s) then s else fallback.

(** The object [analyzeText] returns; [input], [estimatedOutput] and
    [total] are the fields of its [costs]. *)
Module Analysis.
Record t := {
  tokenCount : Z;
  characterCount : Z;
  wordCount : Z;
  model : jsstring;
  provider : string;
  contextWindow : Z;
  exceedsContext : bool;
  utilizationPercent : Z;
  input : jsstring;
  estimatedOutput : jsstring;
  total : jsstring;
  accuracy : string;
  category : string
}.
End Analysis.

(** [analyzeText(text, model)], [text] and [model] being strings. *)
Definition analyzeText (init : Result t) (text model : jsstring) : Result Analysis.t :=
  u <- init ;;
  tokenCount <- countTokens init text model ;;
  let normalizedModel := normalizeModelName model in
  let modelSpec := JsMap.get normalizedModel (modelDatabase u) in
  inputCost <- estimateInputCost init tokenCount model ;;
  outputCost <- estimateOutputCost init tokenCount model ;;
  Ok {| Analysis.tokenCount := tokenCount;
        Analysis.characterCount := len text;
        Analysis.wordCount := len (filter truthy (Regex.split Regex.re_spaces text));
        Analysis.model := normalizedModel;
        Analysis.provider := match modelSpec with
                             | Some spec => orElse (provider spec) "unknown"
                             | None => "unknown"
                             end;
        Analysis.contextWindow := windowOf modelSpec;
        Analysis.exceedsContext := windowOf modelSpec <? tokenCount;
        Analysis.utilizationPercent :=
          Dbl.Math_round (Dbl.mul_int 100 (Dbl.div_int tokenCount (windowOf modelSpec)));
        Analysis.input := str "$" ++ inputCost;
        Analysis.estimatedOutput := str "$" ++ outputCost;
        Analysis.total :=
          str "$" ++ Dbl.toFixed4 (Dbl.add (Dbl.parseFixed4 inputCost)
                                           (Dbl.parseFixed4 outputCost));
        Analysis.accuracy := match modelSpec with
                             | Some spec => if hasEncoder spec then "exact" else "approximation"
                             | None => "approximation"
                             end;
        Analysis.category := match modelSpec with
                             | Some spec => orElse (category spec) "unknown"
                             | None => "unknown"
                             end |}.

(** [getOptimalChunkSize(model, bufferPercent)] *)
Definition getOptimalChunkSize (init : Result t) (model : jsstring) (bufferPercent : Dbl.dbl)
  : Result Z :=
  u <- init ;;
  let contextWindow := windowOf (JsMap.get (normalizeModelName model) (modelDatabase u)) in
  let buffer := Dbl.Math_floor (Dbl.mul_int contextWindow bufferPercent) in
  Ok (Z.max 1000 (contextWindow - buffer)).

(** An entry of the lists [getSupportedModels] returns. *)
Module Supported.
Record t := {
  id : jsstring;
  provider : string;
  contextWindow : Z;
  inputCost : Z;
  hasEncoder : bool;
  accuracy : string
}.
End Supported.

Definition supportedEntry (modelId : jsstring) (spec : ModelSpec) : Supported.t :=
  {| Supported.id := modelId;
     Supported.provider := provider spec;
     Supported.contextWindow := contextWindow spec;
     Supported.inputCost := inputCost spec;
     Supported.hasEncoder := hasEncoder spec;
     Supported.accuracy := if hasEncoder spec then "exact" else "approximation" |}.

(** [o[k] = a] on an object that holds [k]. *)
Fixpoint setOwn (A : Type) (o : list (string * A)) (k : string) (a : A) : list (string * A) :=
  match o with
  | [] => []
  | (k', a') :: r => if str_eqb (str k') (str k) then (k', a) :: r else (k', a') :: setOwn r k a
  end.

(** One round of the loop of [getSupportedModels].  [models] starts as
    [{}]: a category that names a property of [Object.prototype] finds the
    inherited value, which has no [find].  The categories are no array
    indices, so the object lists them in the order they were added. *)
Definition listModel (models : list (string * list Supported.t))
           (modelId : jsstring) (spec : ModelSpec)
  : Result (list (string * list Supported.t)) :=
  let category := orElse (category spec) "other" in
  match JsObject.get models (str category) with
  | JsObject.Inherited =>
      Throw (mkError TypeErrorK (str "models[category].find is not a function"))
  | JsObject.Missing => Ok (models ++ [(category, [supportedEntry modelId spec])])
  | JsObject.Own listed =>
      if existsb (fun m => str_eqb (Supported.id m) modelId) listed then Ok models
      else Ok (setOwn models category (listed ++ [supportedEntry modelId spec]))
  end.

Fixpoint listModels (entries : JsMap.t ModelSpec) (models : list (string * list Supported.t))
  : Result (list (string * list Supported.t)) :=
  match entries with
  | [] => Ok models
  | (modelId, spec) :: rest =>
      models <- listModel models modelId spec ;;
      listModels rest models
  end.

(** [getSupportedModels] *)
Definition getSupportedModels (init : Result t)
  : Result (list (string * list Supported.t)) :=
  u <- init ;;
  listModels (modelDatabase u) [].

End UniversalTokenCounter.

(** ** TokenCounter, the wrapper (services/tokenCounter.js) *)

Module TokenCounter.

(** [countTokens]: the universal count, or the character estimate when the
    universal counter rejects. *)
Definition countTokens (init : Result UniversalTokenCounter.t)
           (text model : jsstring) : Result Z :=
  tryCatch (UniversalTokenCounter.countTokens init text model)
           (fun _ => Ok (ceil_div4 (len text))).

(** [estimateCost(tokenCount, model, type)] *)
Definition estimateCost (init : Result UniversalTokenCounter.t) (tokenCount : Z)
           (model type : jsstring) : jsstring :=
  match (if str_eqb type (str "output")
         then UniversalTokenCounter.estimateOutputCost init tokenCount model
         else UniversalTokenCounter.estimateInputCost init tokenCount model) with
  | Ok cost => cost
  | Throw _ => str "0.0000"
  end.

(** [getContextLimits(model)].  The fallback table is an object literal
    read at [model]: a name of [Object.prototype] finds the inherited
    value, which is truthy and is returned as it is. *)
Definition fallbackLimits : list (string * Z) :=
  [ ("gpt-4", 8192); ("gpt-4o", 128000); ("gpt-4-turbo", 128000); ("gpt-3.5-turbo", 4096);
    ("claude-3-opus", 200000); ("claude-3-sonnet", 200000); ("claude-3-haiku", 200000);
    ("claude-3.5-sonnet", 200000); ("gemini-1.5-pro", 2000000); ("gemini-pro", 32768);
    ("deepseek-chat", 32768) ].

Inductive ContextLimit := LimitOf (n : Z) | InheritedProperty.

Definition getContextLimits (init : Result UniversalTokenCounter.t) (model : jsstring)
  : ContextLimit :=
  match UniversalTokenCounter.analyzeText init (str "test") model with
  | Ok analysis => LimitOf (UniversalTokenCounter.Analysis.contextWindow analysis)
  | Throw _ =>
      match JsObject.get fallbackLimits model with
      | JsObject.Own n => if n =? 0 then LimitOf 8192 else LimitOf n
      | JsObject.Inherited => InheritedProperty
      | JsObject.Missing => LimitOf 8192
      end
  end.

(** [getRecommendedChunkSize(model, bufferPercent)]; arithmetic on a value
    that is no number gives [NaN]. *)
Definition getRecommendedChunkSize (init : Result UniversalTokenCounter.t)
           (model : jsstring) (bufferPercent : Dbl.dbl) : JsNumber :=
  match UniversalTokenCounter.getOptimalChunkSize init model bufferPercent with
  | Ok size => Num size
  | Throw _ =>
      match getContextLimits init model with
      | LimitOf contextLimit =>
          let buffer := Dbl.Math_floor (Dbl.mul_int contextLimit bufferPercent) in
          Num (Z.max 1000 (contextLimit - buffer))
      | InheritedProperty => NaN
      end
  end.

(** The lists of the wrapper's [getSupportedModels]: those of the universal
    counter, or two bare entries when it rejects. *)
Inductive ListedModel :=
| Listed (m : UniversalTokenCounter.Supported.t)
| Bare (id : jsstring) (provider : string) (contextWindow : Z).

Definition listedId (m : ListedModel) : jsstring :=
  match m with
  | Listed m => UniversalTokenCounter.Supported.id m
  | Bare id _ _ => id
  end.

Definition getSupportedModels (init : Result UniversalTokenCounter.t)
  : list (string * list ListedModel) :=
  match UniversalTokenCounter.getSupportedModels init with
  | Ok models => List.map (fun entry => (fst entry, List.map Listed (snd entry))) models
  | Throw _ =>
      [ ("flagship", [Bare (str "gpt-4") "openai" 8192]);
        ("efficient", [Bare (str "gpt-3.5-turbo") "openai" 4096]) ]
  end.

(** [isModelSupported(model)]: a counter that failed to initialise makes
    the first [await] throw. *)
Definition isModelSupported (init : Result UniversalTokenCounter.t) (model : jsstring) : bool :=
  match init with
  | Throw _ => false
  | Ok _ =>
      let allModels := List.map listedId (concat (List.map snd (getSupportedModels init))) in
      existsb (fun id => str_eqb id model) allModels
  end.



End TokenCounter.

(** ** DocumentChunker (services/documentChunker.js)

    Console output, the running statistics of [updateStats] and the
    [createdAt] stamp of a chunk are left out: no result depends on them. *)

Module DocumentChunker.

(** The injected counter, as [await this.tokenCounter.countTokens(text, model)]
    sees it. *)
Record TokenCounterApi := { countTokens : jsstring -> jsstring -> Result Z }.

(** The counter [SecureFileProcessor] injects. *)
Definition wrapperCounter (init : Result UniversalTokenCounter.t) : TokenCounterApi :=
  {| countTokens := TokenCounter.countTokens init |}.

Definition defaultMaxTokens : Z := 6000.
Definition overlapTokens : Z := 200.
Definition MAX_CHUNK_COUNT : Z := 100.
Definition MAX_DOCUMENT_LENGTH : Z := 5 * 1024 * 1024.

(** The [maxTokens] argument: an integer, or any value for which
    [Number.isInteger] is false (a fraction, [NaN], an infinity, a value
    that is not a number). *)
Inductive MaxTokensArg := MaxInt (z : Z) | MaxNotInteger.

(** The [tokenCount] handed to [createChunkSecure]: a number, or the promise
    of one that was not awaited. *)
Inductive TokenCountArg := Counted (n : Z) | Unawaited.

(** [Math.max(1, tokenCount)]: a promise converts to [NaN]. *)
Definition atLeastOne (tokenCount : TokenCountArg) : JsNumber :=
  match tokenCount with
  | Counted n => Num (Z.max 1 n)
  | Unawaited => NaN
  end.

Record Chunk := {
  index : Z;
  text : jsstring;
  tokenCount : JsNumber;
  characterCount : Z;
  wordCount : Z;
  preview : jsstring;
  sentences : Z
}.

(** [splitIntoSentencesSecure] *)
Definition splitIntoSentencesSecure (text : jsstring) : list jsstring :=
  if (negb (truthy text) || (50000 <? len text))%bool then [substring 0 50000 text]
  else
    let sentences := Regex.split Regex.re_sentence_gap text in
    let sentences := filter (fun sentence => 10 <=? len (trim sentence)) sentences in
    let sentences := List.map trim sentences in
    let sentences := filter (fun sentence => len sentence <=? 5000) sentences in
    slice0 200 sentences.

(** [createChunkSecure]; [None] is [null].  The recursive call on the
    truncated text is the only one: see [createChunkSecure_fuel_enough]. *)
Fixpoint createChunkSecure_fuel (fuel : nat) (text : jsstring)
         (tokenCount : TokenCountArg) (index : Z) : option Chunk :=
  let cleanText := trim text in
  if negb (truthy cleanText) then None
  else if 100000 <? len cleanText then
    match fuel with
    | O => None
    | S f => createChunkSecure_fuel f (substring 0 100000 cleanText) tokenCount index
    end
  else
    let wordCount := len (filter truthy (Regex.split Regex.re_spaces cleanText)) in
    let sentences := len (splitIntoSentencesSecure cleanText) in
    Some {| index := index;
            text := cleanText;
            tokenCount := atLeastOne tokenCount;
            characterCount := len cleanText;
            wordCount := wordCount;
            preview := if 200 <? len cleanText
                       then substring 0 200 cleanText ++ str "..."
                       else cleanText;
            sentences := Z.max 1 sentences |}.

Definition createChunkSecure := createChunkSecure_fuel 1.

(** [validateInput]; the integer that passed is handed on. *)
Definition suspiciousPatterns : list Regex.Matcher :=
  [Regex.re_script_tag; Regex.re_javascript; Regex.re_vbscript; Regex.re_event_handler].

Definition validateInput (content : jsstring) (maxTokens : MaxTokensArg)
           (model : jsstring) : Result Z :=
  if negb (truthy content) then throwError (str "Content must be a non-empty string")
  else if len content =? 0 then throwError (str "Content is empty")
  else if MAX_DOCUMENT_LENGTH <? len content then
    throwError (str "Document too large: " ++ decimal (len content)
                ++ str " characters (max: " ++ decimal MAX_DOCUMENT_LENGTH ++ str ")")
  else
    match maxTokens with
    | MaxNotInteger => throwError (str "maxTokens must be an integer between 100 and 32000")
    | MaxInt n =>
        if ((n <? 100) || (32000 <? n))%bool then
          throwError (str "maxTokens must be an integer between 100 and 32000")
        else if negb (truthy model) then throwError (str "Model must be specified")
        else if existsb (fun pattern => Regex.test pattern (substring 0 10000 content))
                        suspiciousPatterns
        then throwError (str "Content contains potentially harmful patterns")
        else Ok n
    end.

(** [splitLongParagraphSecure] *)
Fixpoint longParagraphLoop (maxLength : Z) (sentences : list jsstring)
         (sections : list jsstring) (currentSection : jsstring)
  : list jsstring * jsstring :=
  match sentences with
  | [] => (sections, currentSection)
  | sentence :: rest =>
      let '(sections, currentSection) :=
        if ((maxLength <? len currentSection + len sentence) && truthy currentSection)%bool
        then (sections ++ [trim currentSection], sentence)
        else (sections,
              currentSection ++ (if truthy currentSection then str " " else []) ++ sentence) in
      if 50 <? len sections then (sections, currentSection)
      else longParagraphLoop maxLength rest sections currentSection
  end.

Definition splitLongParagraphSecure (paragraph : jsstring) (maxLength : Z) : list jsstring :=
  let sentences := splitIntoSentencesSecure paragraph in
  let '(sections, currentSection) := longParagraphLoop maxLength sentences [] [] in
  if truthy currentSection then sections ++ [trim currentSection] else sections.

(** [splitIntoSectionsSecure] *)
Fixpoint refineSections (sections : list jsstring) (refinedSections : list jsstring)
  : list jsstring :=
  match sections with
  | [] => refinedSections
  | section :: rest =>
      let refinedSections :=
        if len section <=? 3000 then refinedSections ++ [trim section]
        else refinedSections ++ splitLongParagraphSecure section 3000 in
      if MAX_CHUNK_COUNT * 2 <? len refinedSections then refinedSections
      else refineSections rest refinedSections
  end.

Definition normalizeContent (content : jsstring) : jsstring :=
  Regex.replace Regex.re_newlines4 [10; 10; 10]%N
    (Regex.replace Regex.re_cr [10%N]
       (Regex.replace Regex.re_crlf [10%N] content)).

Definition splitIntoSectionsSecure (content : jsstring) : list jsstring :=
  let normalizedContent := normalizeContent content in
  let sections := Regex.split Regex.re_blank_line normalizedContent in
  let sections := filter (fun section => 10 <=? len (trim section)) sections in
  let refinedSections := refineSections sections [] in
  filter (fun section => (truthy section && (0 <? len (trim section)))%bool) refinedSections.

(** [splitByCharacterLimitSecure].  The method is not [async]: the call of
    [countTokens] yields a promise, which is stored as the token count. *)
Definition paragraphBreak : jsstring := [10; 10]%N.

Fixpoint characterLoop (attempts : nat) (text : jsstring) (maxChars : Z) (start : Z)
  : list (jsstring * TokenCountArg) :=
  match attempts with
  | O => []
  | S attempts' =>
      if start <? len text then
        let end0 := Z.min (start + maxChars) (len text) in
        let end1 :=
          if end0 <? len text then
            let lastSpace := lastIndexOf 32 end0 text in
            let lastPunct := Z.max (lastIndexOf 46 end0 text)
                               (Z.max (lastIndexOf 33 end0 text) (lastIndexOf 63 end0 text)) in
            if Dbl.int_gtb lastPunct (Dbl.add_int start (Dbl.mul_int maxChars Dbl.d0_5))
            then lastPunct + 1
            else if Dbl.int_gtb lastSpace (Dbl.add_int start (Dbl.mul_int maxChars Dbl.d0_3))
            then lastSpace
            else end0
          else end0 in
        let chunk := trim (substring start end1 text) in
        (if (truthy chunk && (10 <=? len chunk))%bool then [(chunk, Unawaited)] else [])
          ++ characterLoop attempts' text maxChars end1
      else []
  end.

Definition splitByCharacterLimitSecure (text : jsstring) (maxTokens : Z)
  : list (jsstring * TokenCountArg) :=
  let maxChars := Z.min (maxTokens * 3) 10000 in
  characterLoop 20 text maxChars 0.

(** The state both packing loops keep. *)
Record Packing := {
  chunks : list (option Chunk);
  currentChunk : jsstring;
  currentTokens : Z;
  chunkIndex : Z
}.

(** [chunks.push(createChunkSecure(currentChunk, currentTokens, chunkIndex));
     chunkIndex++; currentChunk = ''; currentTokens = 0] *)
Definition closeChunk (st : Packing) : Packing :=
  {| chunks := chunks st
               ++ [createChunkSecure (currentChunk st) (Counted (currentTokens st))
                                     (chunkIndex st)];
     currentChunk := [];
     currentTokens := 0;
     chunkIndex := chunkIndex st + 1 |}.

(** [try { n = await countTokens(s, model) } catch { n = Math.ceil(s.length / 4) }] *)
Definition countOrEstimate (tc : TokenCounterApi) (s model : jsstring) : Z :=
  match countTokens tc s model with
  | Ok n => n
  | Throw _ => ceil_div4 (len s)
  end.

(** [chunks.push(...characterChunks.map(chunk =>
       createChunkSecure(chunk.text, chunk.tokenCount, chunkIndex++)))] *)
Fixpoint pushCharacterChunks (characterChunks : list (jsstring * TokenCountArg))
         (st : Packing) : Packing :=
  match characterChunks with
  | [] => st
  | (text, tokenCount) :: rest =>
      pushCharacterChunks rest
        {| chunks := chunks st ++ [createChunkSecure text tokenCount (chunkIndex st)];
           currentChunk := currentChunk st;
           currentTokens := currentTokens st;
           chunkIndex := chunkIndex st + 1 |}
  end.

(** [splitLargeSectionSecure] *)
Fixpoint sentenceLoop (tc : TokenCounterApi) (maxTokens : Z) (model : jsstring)
         (sentences : list jsstring) (st : Packing) : Packing :=
  match sentences with
  | [] => st
  | sentence :: rest =>
      if (negb (truthy sentence) || (len sentence =? 0))%bool
      then sentenceLoop tc maxTokens model rest st
      else
        let sentenceTokens := countOrEstimate tc sentence model in
        if maxTokens <? sentenceTokens then
          let st := if truthy (currentChunk st) then closeChunk st else st in
          let characterChunks := splitByCharacterLimitSecure sentence maxTokens in
          sentenceLoop tc maxTokens model rest (pushCharacterChunks characterChunks st)
        else
          let st :=
            if ((maxTokens <? currentTokens st + sentenceTokens) && truthy (currentChunk st))%bool
            then
              let closed := closeChunk st in
              {| chunks := chunks closed;
                 currentChunk := sentence;
                 currentTokens := sentenceTokens;
                 chunkIndex := chunkIndex closed |}
            else
              {| chunks := chunks st;
                 currentChunk := currentChunk st
                                 ++ (if truthy (currentChunk st) then str " " else [])
                                 ++ sentence;
                 currentTokens := currentTokens st + sentenceTokens;
                 chunkIndex := chunkIndex st |} in
          if MAX_CHUNK_COUNT - 5 <=? len (chunks st) then st
          else sentenceLoop tc maxTokens model rest st
  end.

Definition splitLargeSectionSecure (tc : TokenCounterApi) (section : jsstring)
           (maxTokens : Z) (model : jsstring) (startIndex : Z) : list (option Chunk) :=
  let sentences := splitIntoSentencesSecure section in
  let st := sentenceLoop tc maxTokens model sentences
              {| chunks := []; currentChunk := []; currentTokens := 0;
                 chunkIndex := startIndex |} in
  if truthy (currentChunk st) then chunks (closeChunk st) else chunks st.

(** The loop shared by [addOverlapSecure] and [getContextStartSecure]: whole
    sentences, in order, while their token counts sum to at most
    [overlapTokens]; the first sentence that does not fit ends the loop. *)
Fixpoint gatherSentences (tc : TokenCounterApi) (model : jsstring)
         (sentences : list jsstring) (gathered : jsstring) (gatheredTokens : Z)
  : Result jsstring :=
  match sentences with
  | [] => Ok gathered
  | sentence :: rest =>
      if negb (truthy sentence) then gatherSentences tc model rest gathered gatheredTokens
      else
        sentenceTokens <- countTokens tc sentence model ;;
        if gatheredTokens + sentenceTokens <=? overlapTokens then
          gatherSentences tc model rest
            ((if truthy gathered then gathered ++ str " " else []) ++ sentence)
            (gatheredTokens + sentenceTokens)
        else Ok gathered
  end.

(** [addOverlapSecure]: up to the last five sentences of [previousSection],
    put in front of [currentChunk]. *)
Definition addOverlapSecure (tc : TokenCounterApi) (currentChunk previousSection model : jsstring)
  : jsstring :=
  if (negb (truthy previousSection) || (overlapTokens <=? 0))%bool then currentChunk
  else
    let sentences := splitIntoSentencesSecure previousSection in
    match gatherSentences tc model (drop (Z.max 0 (len sentences - 5)) sentences) [] 0 with
    | Ok overlap =>
        if truthy overlap then overlap ++ paragraphBreak ++ currentChunk else currentChunk
    | Throw _ => currentChunk
    end.

(** [getContextStartSecure]: up to the first three sentences of [text]. *)
Definition getContextStartSecure (tc : TokenCounterApi) (text model : jsstring) : jsstring :=
  if negb (truthy text) then []
  else
    let sentences := splitIntoSentencesSecure text in
    match gatherSentences tc model (take 3 sentences) [] 0 with
    | Ok context => context
    | Throw _ => []
    end.

(** One round of the [for] loop of [performChunking]: [Stop] is [break]. *)
Inductive Step := Next (st : Packing) | Stop (st : Packing).

Definition packSection (tc : TokenCounterApi) (maxTokens : Z) (model : jsstring)
           (previousSection section : jsstring) (st : Packing) : Result Step :=
  let sectionTokens := countOrEstimate tc section model in
  if maxTokens <? sectionTokens then
    let st := if truthy (trim (currentChunk st)) then closeChunk st else st in
    let subChunks := splitLargeSectionSecure tc section maxTokens model (chunkIndex st) in
    let st := {| chunks := chunks st ++ subChunks;
                 currentChunk := currentChunk st;
                 currentTokens := currentTokens st;
                 chunkIndex := chunkIndex st + len subChunks |} in
    if MAX_CHUNK_COUNT <? len (chunks st) then Ok (Stop st) else Ok (Next st)
  else
    st <- (if ((maxTokens <? currentTokens st + sectionTokens)
               && truthy (trim (currentChunk st)))%bool
           then
             let chunkWithOverlap :=
               addOverlapSecure tc (currentChunk st) previousSection model in
             let closed :=
               createChunkSecure chunkWithOverlap (Counted (currentTokens st)) (chunkIndex st) in
             let contextStart := getContextStartSecure tc (currentChunk st) model in
             let started :=
               contextStart ++ (if truthy contextStart then paragraphBreak else []) ++ section in
             startedTokens <- countTokens tc started model ;;
             Ok {| chunks := chunks st ++ [closed];
                   currentChunk := started;
                   currentTokens := startedTokens;
                   chunkIndex := chunkIndex st + 1 |}
           else
             Ok {| chunks := chunks st;
                   currentChunk := currentChunk st
                                   ++ (if truthy (currentChunk st) then paragraphBreak else [])
                                   ++ section;
                   currentTokens := currentTokens st + sectionTokens;
                   chunkIndex := chunkIndex st |}) ;;
    if MAX_CHUNK_COUNT - 10 <? len (chunks st) then Ok (Stop st) else Ok (Next st).

(** The [for] loop; [previousSection] is [sections[i - 1] || '']. *)
Fixpoint packLoop (tc : TokenCounterApi) (maxTokens : Z) (model : jsstring)
         (previousSection : jsstring) (sections : list jsstring) (st : Packing)
  : Result Packing :=
  match sections with
  | [] => Ok st
  | section :: rest =>
      step <- packSection tc maxTokens model previousSection section st ;;
      match step with
      | Next st => packLoop tc maxTokens model section rest st
      | Stop st => Ok st
      end
  end.

Definition initialPacking : Packing :=
  {| chunks := []; currentChunk := []; currentTokens := 0; chunkIndex := 1 |}.

(** [performChunking] *)
Definition performChunking (tc : TokenCounterApi) (content : jsstring) (maxTokens : Z)
           (model : jsstring) : Result (list (option Chunk)) :=
  let sections := splitIntoSectionsSecure content in
  st <- packLoop tc maxTokens model [] sections initialPacking ;;
  if truthy (trim (currentChunk st)) then Ok (chunks (closeChunk st)) else Ok (chunks st).

(** The three filters of [validateChunks]. *)
Fixpoint notNull (A : Type) (l : list (option A)) : list A :=
  match l with
  | [] => []
  | Some a :: r => a :: notNull r
  | None :: r => notNull r
  end.

Definition hasText (chunk : Chunk) : bool :=
  (truthy (text chunk) && (0 <? len (trim (text chunk))))%bool.

(** [chunk.tokenCount > 0 && chunk.tokenCount <= maxTokens * 1.1] *)
Definition withinBudget (maxTokens : Z) (chunk : Chunk) : bool :=
  match tokenCount chunk with
  | Num n => ((0 <? n) && Dbl.int_leb n (Dbl.mul_int maxTokens Dbl.d1_1))%bool
  | NaN => false
  end.

(** [chunks.find(c => c && c.text)] *)
Fixpoint findBest (chunks : list (option Chunk)) : option Chunk :=
  match chunks with
  | [] => None
  | Some c :: r => if truthy (text c) then Some c else findBest r
  | None :: r => findBest r
  end.

(** [validateChunks] *)
Definition validChunksOf (chunks : list (option Chunk)) (maxTokens : Z) : list Chunk :=
  filter (withinBudget maxTokens) (filter hasText (notNull chunks)).

Definition validateChunks (chunks : list (option Chunk)) (maxTokens : Z) : list Chunk :=
  let validChunks := validChunksOf chunks maxTokens in
  if ((len validChunks =? 0) && (0 <? len chunks))%bool then
    match findBest chunks with
    | Some bestChunk => [bestChunk]
    | None => slice0 MAX_CHUNK_COUNT validChunks
    end
  else slice0 MAX_CHUNK_COUNT validChunks.

(** [chunkDocument] *)
Definition chunkDocument (race : Race) (tc : TokenCounterApi) (content : jsstring)
           (maxTokens : MaxTokensArg) (model : jsstring) : Result (list Chunk) :=
  tryCatch
    (maxTokens <- validateInput content maxTokens model ;;
     chunks <- match race with
               | OperationFirst => performChunking tc content maxTokens model
               | TimerFirst => throwError (str "Document chunking timed out")
               end ;;
     Ok (validateChunks chunks maxTokens))
    (fun error => throwError (str "Document chunking failed: " ++ message error)).

End DocumentChunker.

(** ** FileExtractor (services/fileExtractor.js)

    The five [extract...Secure] methods run third-party parsers over the
    file; what they return is an input of the model. *)

Module FileExtractor.

Inductive FileType := pdf | docx | xlsx | pptx | txt.

Definition supportedTypes : list (string * FileType) :=
  [ ("application/pdf", pdf);
    ("application/vnd.openxmlformats-officedocument.wordprocessingml.document", docx);
    ("application/vnd.openxmlformats-officedocument.spreadsheetml.sheet", xlsx);
    ("application/vnd.openxmlformats-officedocument.presentationml.presentation", pptx);
    ("text/plain", txt) ].

(** [fileType.toUpperCase()] *)
Definition upperName (fileType : FileType) : jsstring :=
  str match fileType with
      | pdf => "PDF" | docx => "DOCX" | xlsx => "XLSX" | pptx => "PPTX" | txt => "TXT"
      end.

Definition MAX_TEXT_LENGTH : Z := 10 * 1024 * 1024.
Definition cacheMaxSize : Z := 100.
Definition cacheExpiry : Z := 30 * 60 * 1000.

Record ExtractionResult := {
  text : jsstring;
  pageCount : Z;
  metadata : list (string * jsstring)
}.

Record CacheEntry := { result : ExtractionResult; timestamp : Z }.

(** The extractor object: its cache. *)
Record t := { extractionCache : JsMap.t CacheEntry }.

(** [new FileExtractor()] *)
Definition new : t := {| extractionCache := [] |}.

(** What a call draws from outside the class. *)
Record Host := {
  now : Z;                                    (* Date.now() *)
  stat : jsstring -> Result (Z * Z);          (* fs.stat: size, mtime *)
  md5 : jsstring -> jsstring;                 (* the hex digest *)
  performExtraction : jsstring -> FileType -> Result ExtractionResult;
  extractionRace : Race                       (* against TIMEOUT_MS *)
}.

(** Lexical scopes.  A scope holds the identifiers a function or a block
    declares; a string-valued binding keeps its value. *)
Inductive Binding := StringValue (s : jsstring) | OtherValue.
Definition Scope := list (string * Binding).

Fixpoint lookupScope (x : string) (sc : Scope) : option Binding :=
  match sc with
  | [] => None
  | (y, b) :: r => if String.eqb x y then Some b else lookupScope x r
  end.

(** Resolution of an identifier along the scope chain, innermost first; an
    identifier no scope declares is a [ReferenceError]. *)
Fixpoint resolve (x : string) (chain : list Scope) : Result Binding :=
  match chain with
  | [] => Throw (mkError ReferenceErrorK (str x ++ str " is not defined"))
  | sc :: outer =>
      match lookupScope x sc with
      | Some b => Ok b
      | None => resolve x outer
      end
  end.

(** The [require]s and the class of the module. *)
Definition moduleScope : Scope :=
  List.map (fun x => (x, OtherValue))
           ["fs"; "pdf"; "mammoth"; "XLSX"; "AdmZip"; "xml2js"; "crypto"; "FileExtractor"].

(** Parameters and declarations of [extractContent] itself. *)
Definition functionScope (filePath mimeType : jsstring) : Scope :=
  [ ("filePath", StringValue filePath); ("mimeType", StringValue mimeType);
    ("startTime", OtherValue); ("fileType", OtherValue); ("result", OtherValue) ].

(** The [const]s of the first [try] block: they end with the block. *)
Definition cacheCheckScope (cacheKey : jsstring) : Scope :=
  [ ("fileStats", OtherValue); ("cacheKey", StringValue cacheKey); ("cached", OtherValue) ].

(** The [const] of the second [try] block. *)
Definition extractionScope : Scope := [ ("processingTime", OtherValue) ].

(** [validateExtractedContent] *)
Definition suspiciousPatterns : list Regex.Matcher :=
  [Regex.re_script_open; Regex.re_javascript; Regex.re_vbscript; Regex.re_data_html].

Definition validateExtractedContent (r : ExtractionResult) : Result unit :=
  if negb (truthy (text r)) then throwError (str "No text content extracted")
  else if len (text r) =? 0 then throwError (str "Extracted text is empty")
  else if MAX_TEXT_LENGTH <? len (text r) then
    throwError (str "Extracted text too long: " ++ decimal (len (text r)) ++ str " characters")
  else if existsb (fun pattern => Regex.test pattern (text r)) suspiciousPatterns then
    throwError (str "Extracted content contains potentially harmful patterns")
  else Ok tt.

(** [cacheResult] *)
Definition cacheResult (h : Host) (fx : t) (key : jsstring) (r : ExtractionResult) : t :=
  let cache := extractionCache fx in
  let cache := if cacheMaxSize <=? JsMap.size cache then
                 match cache with
                 | (oldestKey, _) :: _ => JsMap.delete oldestKey cache
                 | [] => cache
                 end
               else cache in
  {| extractionCache := JsMap.set key {| result := r; timestamp := now h |} cache |}.

(** [clearCache] *)
Definition clearCache (fx : t) : t := {| extractionCache := [] |}.

(** The first [try] block of [extractContent]: [Some r] is its [return]. *)
Definition checkCache (h : Host) (fx : t) (filePath mimeType : jsstring)
  : option ExtractionResult :=
  match stat h filePath with
  | Ok (size, mtime) =>
      let cacheKey := md5 h (filePath ++ decimal size ++ decimal mtime) in
      match resolve "cacheKey"
                    [cacheCheckScope cacheKey; functionScope filePath mimeType; moduleScope] with
      | Ok (StringValue key) =>
          match JsMap.get key (extractionCache fx) with
          | Some cached =>
              if now h - timestamp cached <? cacheExpiry then Some (result cached) else None
          | None => None
          end
      | _ => None
      end
  | Throw _ => None
  end.

(** [extractContent] *)
Definition extractContent (h : Host) (fx : t) (filePath mimeType : jsstring)
  : Result ExtractionResult * t :=
  match JsObject.get supportedTypes mimeType with
  | JsObject.Missing => (throwError (str "Unsupported file type: " ++ mimeType), fx)
  | JsObject.Inherited =>
      (* the inherited value is truthy and has no [toUpperCase] *)
      (Throw (mkError TypeErrorK (str "fileType.toUpperCase is not a function")), fx)
  | JsObject.Own fileType =>
      match checkCache h fx filePath mimeType with
      | Some cached => (Ok cached, fx)
      | None =>
          let chain := [extractionScope; functionScope filePath mimeType; moduleScope] in
          let body : Result (ExtractionResult * t) :=
            r <- match extractionRace h with
                 | OperationFirst => performExtraction h filePath fileType
                 | TimerFirst => throwError (str "File extraction timed out")
                 end ;;
            validateExtractedContent r ;;;
            cacheKey <- resolve "cacheKey" chain ;;
            let key := match cacheKey with
                       | StringValue k => if truthy k then k else str "nocache"
                       | OtherValue => str "nocache"
                       end in
            Ok (r, cacheResult h fx key r) in
          match body with
          | Ok (r, fx') => (Ok r, fx')
          | Throw error =>
              (throwError (upperName fileType ++ str " extraction failed: " ++ message error), fx)
          end
      end
  end.

(** [isSupported] *)
Definition isSupported (mimeType : jsstring) : bool := JsObject.has supportedTypes mimeType.

(** [cleanExtractedTextSecure], [text] being a string. *)
Definition cleanExtractedTextSecure (text : jsstring) : jsstring :=
  if negb (truthy text) then []
  else
    let text := if MAX_TEXT_LENGTH <? len text
                then substring 0 MAX_TEXT_LENGTH text
                else text in
    trim
      (Regex.replace Regex.re_line_edges []
         (Regex.replace Regex.re_blanks2 (str " ")
            (Regex.replace Regex.re_newlines3 [10; 10]%N
               (Regex.replace Regex.re_control []
                  (Regex.replace Regex.re_cr [10%N]
                     (Regex.replace Regex.re_crlf [10%N] text)))))).

(** [countWords], [text] being a string. *)
Definition countWords (text : jsstring) : Z :=
  if negb (truthy text) then 0
  else len (filter truthy (Regex.split Regex.re_spaces text)).

(** [sanitizeSheetName] *)
Definition sanitizeSheetName (name : jsstring) : jsstring :=
  substring 0 50 (Regex.replace Regex.re_sheet_markup [] name).

(** A property value of the [info] object of a PDF: a string, or anything
    else. *)
Inductive JsValue := VString (s : jsstring) | VOther.

(** [sanitizeMetadata]: the result object, its keys in the order they were
    set. *)
Definition allowedKeys : list string :=
  ["title"; "author"; "subject"; "creator"; "producer"; "creationDate"].

Definition sanitizeMetadata (metadata : list (string * JsValue)) : list (string * jsstring) :=
  flat_map (fun key =>
              match JsObject.get metadata (str key) with
              | JsObject.Own (VString s) =>
                  if truthy s then [(key, substring 0 200 s)] else []
              | _ => []
              end)
           allowedKeys.

(** *** The methods [performExtraction] dispatches to

    The objects they return, with the metadata spelled out.  The parsers
    [pdf-parse] and [mammoth] and the file system are parameters. *)

Module Extraction.

Inductive MetaValue :=
| MetaString (s : jsstring)
| MetaNumber (n : Z)
| MetaBool (b : bool)
| MetaInfo (o : list (string * jsstring)).

Record t := {
  text : jsstring;
  pageCount : Z;
  metadata : list (string * MetaValue)
}.

Definition MAX_PAGES_PDF : Z := 1000.

(** What [pdf(dataBuffer, options)] resolves to; [info] may be missing. *)
Record PdfData := {
  pdfText : jsstring;
  numpages : Z;
  info : option (list (string * JsValue))
}.

(** What [mammoth.extractRawText] resolves to: [value] and the number of
    [messages]. *)
Record MammothResult := { value : jsstring; messageCount : Z }.

Record Disk := {
  readFile : jsstring -> Result (list Byte.byte);   (* fs.readFile, the whole file *)
  toUtf8 : list Byte.byte -> jsstring;              (* buffer.toString('utf8') *)
  pdfParse : list Byte.byte -> Result PdfData;
  extractRawText : jsstring -> Result MammothResult
}.

(** [a.equals(b)] on buffers *)
Fixpoint bufferEquals (a b : list Byte.byte) : bool :=
  match a, b with
  | [], [] => true
  | x :: a', y :: b' => (Byte.eqb x y && bufferEquals a' b')%bool
  | _, _ => false
  end.

Definition pdfSignature : list Byte.byte := [Byte.x25; Byte.x50; Byte.x44; Byte.x46].
Definition zipSignature : list Byte.byte := [Byte.x50; Byte.x4b; Byte.x03; Byte.x04].

(** [extractPDFSecure] *)
Definition extractPDFSecure (d : Disk) (filePath : jsstring) : Result t :=
  dataBuffer <- readFile d filePath ;;
  if negb (bufferEquals (substring 0 4 dataBuffer) pdfSignature) then
    throwError (str "Invalid PDF file signature")
  else
    data <- pdfParse d dataBuffer ;;
    let cleanText := cleanExtractedTextSecure (pdfText data) in
    Ok {| text := cleanText;
          pageCount := Z.min (numpages data) MAX_PAGES_PDF;
          metadata :=
            [ ("format", MetaString (str "pdf"));
              ("info", MetaInfo (sanitizeMetadata match info data with
                                                  | Some o => o
                                                  | None => []
                                                  end));
              ("wordCount", MetaNumber (countWords cleanText));
              ("processingLimited", MetaBool (MAX_PAGES_PDF <? numpages data)) ] |}.

(** [extractDOCXSecure].  [fs.readFile] has no [start] and [end] options:
    it reads the whole file, and [equals] compares all of it with the four
    bytes of the ZIP header. *)
Definition extractDOCXSecure (d : Disk) (filePath : jsstring) : Result t :=
  buffer <- readFile d filePath ;;
  if negb (bufferEquals buffer zipSignature) then
    throwError (str "Invalid DOCX file signature")
  else
    result <- extractRawText d filePath ;;
    let cleanText := cleanExtractedTextSecure (value result) in
    let estimatedPages := Dbl.Math_ceil (Dbl.div_int (len cleanText) 2000) in
    Ok {| text := cleanText;
          pageCount := estimatedPages;
          metadata :=
            [ ("format", MetaString (str "docx"));
              ("warningCount", MetaNumber (messageCount result));
              ("wordCount", MetaNumber (countWords cleanText)) ] |}.

(** [extractTXTSecure] *)
Definition extractTXTSecure (d : Disk) (filePath : jsstring) : Result t :=
  buffer <- readFile d filePath ;;
  if existsb (Byte.eqb Byte.x00) (substring 0 (Z.min (len buffer) 1000) buffer) then
    throwError (str "File appears to be binary, not text")
  else
    let text := toUtf8 d buffer in
    let cleanText := cleanExtractedTextSecure text in
    let estimatedPages := Dbl.Math_ceil (Dbl.div_int (len cleanText) 2000) in
    Ok {| text := cleanText;
          pageCount := estimatedPages;
          metadata :=
            [ ("format", MetaString (str "txt"));
              ("encoding", MetaString (str "utf8"));
              ("wordCount", MetaNumber (countWords cleanText)) ] |}.

End Extraction.

End FileExtractor.

(** ** SecureFileProcessor (services/secureFileProcessor.js)

    The timers that expire a job or a temporary file are not modelled. *)

Module SecureFileProcessor.

Definition Buffer := list Byte.byte.

Definition MAX_FILE_SIZE : Z := 50 * 1024 * 1024.
Definition MAX_CONCURRENT_PROCESSING : Z := 10.
Definition TEMP_FILE_TTL : Z := 30 * 60 * 1000.

(** What the processor asks of its collaborators, in order. *)
Inductive Event :=
| TempFileWritten (path : jsstring)
| ExtractorInvoked (path mimeType : jsstring)
| TempFileDeleted (path : jsstring).

Record Active := { activeFileName : jsstring; startTime : Z }.

Record t := {
  fileExtractor : FileExtractor.t;
  activeProcessing : JsMap.t Active;
  events : list Event
}.

(** What a call draws from outside the class. *)
Record Host := {
  randomUUID : jsstring;                         (* crypto.randomUUID() *)
  now : Z;                                       (* Date.now() *)
  tempDir : jsstring;                            (* this.tempDir *)
  utf8 : Buffer -> jsstring;                     (* buffer.toString('utf8') *)
  writeFile : jsstring -> Buffer -> Result unit; (* fs.writeFile *)
  extractorHost : FileExtractor.Host;
  extractionRace : Race;                         (* against MAX_PROCESSING_TIME *)
  tokenizer : Result UniversalTokenCounter.t;    (* the counter's initializationPromise *)
  chunkingRace : Race                            (* against PROCESSING_TIMEOUT *)
}.

(** [options]: [model] may be absent; [maxTokensPerChunk] is kept as
    [parseInt] reads it. *)
Record Options := { model : option jsstring; maxTokensPerChunk : JsNumber }.

(** The messages of the errors the processor throws itself. *)
Definition signatureMismatch : jsstring :=
  str "File signature does not match declared MIME type. "
  ++ str "File may be corrupted or spoofed.".
Definition invalidFileName : jsstring :=
  str "Invalid file name. "
  ++ str "File names cannot contain path separators or special characters.".
Definition serverBusy : jsstring :=
  str "Server busy. Too many files being processed. Please try again later.".

(** [signatures]; [None] is the [null] of text/plain. *)
Definition zipHeader : list Byte.byte := [Byte.x50; Byte.x4b; Byte.x03; Byte.x04].

Definition signatures : list (string * option (list Byte.byte)) :=
  [ ("application/pdf", Some [Byte.x25; Byte.x50; Byte.x44; Byte.x46]);
    ("application/vnd.openxmlformats-officedocument.wordprocessingml.document", Some zipHeader);
    ("application/vnd.openxmlformats-officedocument.spreadsheetml.sheet", Some zipHeader);
    ("application/vnd.openxmlformats-officedocument.presentationml.presentation", Some zipHeader);
    ("text/plain", None) ].

(** [expectedSignature.every((byte, index) => byte === fileSignature[index])] *)
Fixpoint everyByteMatches (expectedSignature fileSignature : list Byte.byte) : bool :=
  match expectedSignature, fileSignature with
  | [], _ => true
  | _ :: _, [] => false
  | b :: e, c :: f => (Byte.eqb b c && everyByteMatches e f)%bool
  end.

(** [validateFileSignature] *)
Definition validateFileSignature (buffer : Buffer) (mimeType : jsstring) : Result unit :=
  match JsObject.get signatures mimeType with
  | JsObject.Missing => Ok tt
  | JsObject.Own None => Ok tt
  | JsObject.Inherited =>
      Throw (mkError TypeErrorK (str "expectedSignature.every is not a function"))
  | JsObject.Own (Some expectedSignature) =>
      let fileSignature := substring 0 (len expectedSignature) buffer in
      if everyByteMatches expectedSignature fileSignature then Ok tt
      else throwError signatureMismatch
  end.

(** [isValidFileName] *)
Definition isValidFileName (fileName : jsstring) : bool :=
  (truthy fileName
   && (len fileName <=? 255)
   && negb (Regex.test Regex.re_invalid_chars fileName)
   && negb (Regex.test Regex.re_path_traversal fileName)
   && negb (Regex.reserved_name (takeWhile (fun c => negb (N.eqb c 46)) fileName)))%bool.

(** [scanForMaliciousContent] *)
Definition maliciousPatterns : list Regex.Matcher :=
  [Regex.re_javascript; Regex.re_script_open; Regex.re_vbscript;
   Regex.re_event_handler_tight; Regex.re_encoded_script].

Definition scanForMaliciousContent (h : Host) (buffer : Buffer) : Result unit :=
  let content := utf8 h (substring 0 (Z.min (len buffer) 10000) buffer) in
  if existsb (fun pattern => Regex.test pattern content) maliciousPatterns then
    throwError (str "File contains potentially malicious content and cannot be processed.")
  else Ok tt.

(** [(n / 1024 / 1024).toFixed(2)] *)
Definition megabytes2 (n : Z) : jsstring :=
  let hundredths := (n * 200 + 1048576) / 2097152 in
  decimal (hundredths / 100) ++ str "."
    ++ decimal (hundredths mod 100 / 10) ++ decimal (hundredths mod 10).

(** [validateFileSecurely] *)
Definition validateFileSecurely (h : Host) (fileBuffer : Buffer) (fileName mimeType : jsstring)
  : Result unit :=
  if MAX_FILE_SIZE <? len fileBuffer then
    throwError (str "File too large: " ++ megabytes2 (len fileBuffer) ++ str "MB. Maximum: 50MB")
  else if negb (isValidFileName fileName) then
    throwError invalidFileName
  else if negb (FileExtractor.isSupported mimeType) then
    throwError (str "Unsupported file type: " ++ mimeType)
  else
    validateFileSignature fileBuffer mimeType ;;;
    scanForMaliciousContent h fileBuffer.

(** [sanitizeContent] *)
Definition sanitizeContent (content : jsstring) : jsstring :=
  trim
    (Regex.replace Regex.re_control []
       (Regex.replace Regex.re_event_handler (str "[EVENT_HANDLER_REMOVED]")
          (Regex.replace Regex.re_vbscript (str "[VBSCRIPT_REMOVED]")
             (Regex.replace Regex.re_javascript (str "[JAVASCRIPT_REMOVED]")
                (Regex.replace Regex.re_script_element (str "[SCRIPT_REMOVED]") content))))).

(** [sanitizeFileName] *)
Definition sanitizeFileName (fileName : jsstring) : jsstring :=
  substring 0 100 (Regex.replace Regex.re_unsafe_name_char (str "_") fileName).

(** A value the source reads as if it were settled: either it is, or it is
    the promise an [async] call returned and nobody awaited. *)
Inductive Awaitable (A : Type) :=
| Settled (a : A)
| Pending (outcome : Result A).
Arguments Settled {A} a.
Arguments Pending {A} outcome.

(** [v.map(f)]: a promise has no [map]. *)
Definition arrayMap (A B : Type) (name : string) (v : Awaitable (list A)) (f : Z -> A -> B)
  : Result (list B) :=
  match v with
  | Settled l => Ok (List.map (fun p => f (fst p) (snd p))
                              (combine (List.map Z.of_nat (seq 0 (length l))) l))
  | Pending _ => Throw (mkError TypeErrorK (str name ++ str ".map is not a function"))
  end.

Record ResultChunk := {
  index : Z;
  totalChunks : Z;
  text : jsstring;
  tokenCount : JsNumber;
  characterCount : Z;
  wordCount : Z;
  preview : jsstring;
  fitsInContext : bool
}.

(** [analyzeText] is not modelled: [processFile] keeps the promise it
    returns and never reads what it settles to. *)
Inductive TokenAnalysis := AnalysisPromise (text model : jsstring).

Record ProcessingResult := {
  processingId : jsstring;
  fileName : jsstring;
  fileSize : Z;
  mimeType : jsstring;
  extractedText : jsstring;
  extractedMetadata : list (string * jsstring);
  tokenAnalysis : TokenAnalysis;
  chunks : list ResultChunk;
  ttl : Z
}.

(** The object literal [processFile] returns; [mapped] is [chunks.map(...)]. *)
Definition buildResult (h : Host) (fileBuffer : Buffer) (fileName mimeType : jsstring)
           (sanitizedContent : jsstring) (extracted : FileExtractor.ExtractionResult)
           (analysis : TokenAnalysis) (mapped : list ResultChunk) : ProcessingResult :=
  {| processingId := randomUUID h;
     fileName := sanitizeFileName fileName;
     fileSize := len fileBuffer;
     mimeType := mimeType;
     extractedText := sanitizedContent;
     extractedMetadata := FileExtractor.metadata extracted
                          ++ [("processingId", randomUUID h)];
     tokenAnalysis := analysis;
     chunks := mapped;
     ttl := TEMP_FILE_TTL |}.

(** The callback of [chunks.map]; [tokenAnalysis] being a promise, its
    [contextLimit] is [undefined] and the comparison is false. *)
Definition resultChunk (total : Z) (i : Z) (chunk : DocumentChunker.Chunk) : ResultChunk :=
  {| index := i + 1;
     totalChunks := total;
     text := DocumentChunker.text chunk;
     tokenCount := DocumentChunker.tokenCount chunk;
     characterCount := DocumentChunker.characterCount chunk;
     wordCount := DocumentChunker.wordCount chunk;
     preview := substring 0 100 (DocumentChunker.preview chunk) ++ str "...";
     fitsInContext := false |}.

(** [cleanupProcessing] *)
Definition cleanupProcessing (sp : t) (id : jsstring) (tempFilePath : option jsstring) : t :=
  {| fileExtractor := fileExtractor sp;
     activeProcessing := JsMap.delete id (activeProcessing sp);
     events := events sp ++ match tempFilePath with
                            | Some path => [TempFileDeleted path]
                            | None => []
                            end |}.

(** The [try] block of [processFile]: the outcome, the processor and the
    temporary file, if one was written. *)
Definition processBody (h : Host) (sp : t) (fileBuffer : Buffer)
           (fileName mimeType : jsstring) (options : Options)
  : Result ProcessingResult * t * option jsstring :=
  let id := randomUUID h in
  let sp := {| fileExtractor := fileExtractor sp;
               activeProcessing :=
                 JsMap.set id {| activeFileName := fileName; startTime := now h |}
                           (activeProcessing sp);
               events := events sp |} in
  let tempFilePath :=
    tempDir h ++ str "/secure_" ++ id ++ str "_" ++ decimal (now h) ++ str ".tmp" in
  match writeFile h tempFilePath fileBuffer with
  | Throw e => (Throw e, sp, None)
  | Ok _ =>
      let '(extraction, fx) :=
        FileExtractor.extractContent (extractorHost h) (fileExtractor sp) tempFilePath mimeType in
      let sp := {| fileExtractor := fx;
                   activeProcessing := activeProcessing sp;
                   events := events sp ++ [TempFileWritten tempFilePath;
                                           ExtractorInvoked tempFilePath mimeType] |} in
      let outcome :=
        extractedContent <- match extractionRace h with
                            | OperationFirst => extraction
                            | TimerFirst => throwError (str "File extraction timed out")
                            end ;;
        if (negb (truthy (FileExtractor.text extractedContent))
            || (len (trim (FileExtractor.text extractedContent)) =? 0))%bool
        then throwError (str "No extractable content found in file")
        else
          let sanitizedContent := sanitizeContent (FileExtractor.text extractedContent) in
          let model := match model options with
                       | Some m => if truthy m then m else str "gpt-4"
                       | None => str "gpt-4"
                       end in
          let maxTokensPerChunk := match maxTokensPerChunk options with
                                   | Num n => if n =? 0 then 6000 else n
                                   | NaN => 6000
                                   end in
          let tokenAnalysis := AnalysisPromise sanitizedContent model in
          let chunks :=
            Pending (DocumentChunker.chunkDocument (chunkingRace h)
                       (DocumentChunker.wrapperCounter (tokenizer h))
                       sanitizedContent (DocumentChunker.MaxInt maxTokensPerChunk) model) in
          let total := match chunks with
                       | Settled l => len l
                       | Pending _ => 0
                       end in
          mapped <- arrayMap "chunks" chunks (resultChunk total) ;;
          Ok (buildResult h fileBuffer fileName mimeType sanitizedContent
                          extractedContent tokenAnalysis mapped) in
      (outcome, sp, Some tempFilePath)
  end.

(** [processFile] *)
Definition processFile (h : Host) (sp : t) (fileBuffer : Buffer)
           (fileName mimeType : jsstring) (options : Options)
  : Result ProcessingResult * t :=
  match validateFileSecurely h fileBuffer fileName mimeType with
  | Throw e => (Throw e, sp)
  | Ok _ =>
      if MAX_CONCURRENT_PROCESSING <=? JsMap.size (activeProcessing sp) then
        (throwError serverBusy, sp)
      else
        let '(outcome, sp, tempFilePath) :=
          processBody h sp fileBuffer fileName mimeType options in
        (tryCatch outcome
                  (fun error => throwError (str "File processing failed: " ++ message error)),
         cleanupProcessing sp (randomUUID h) tempFilePath)
  end.

End SecureFileProcessor.

(** ** Sample collaborators

    Two small tokenizers stand in for tiktoken where a statement needs a
    concrete one: one token per code unit, and one token per word. *)

Module Samples.

Definition unitEncoder : UniversalTokenCounter.Encoder := fun text => Ok text.

Definition wordEncoder : UniversalTokenCounter.Encoder := fun text =>
  Ok (List.map (fun w => N.of_nat (length w))
               (filter truthy (Regex.split Regex.re_spaces text))).

Definition tiktokenOf (enc : UniversalTokenCounter.Encoder) : UniversalTokenCounter.Tiktoken :=
  {| UniversalTokenCounter.encoding_for_model := fun _ => Ok enc |}.

(** The counter [SecureFileProcessor] builds, over the one-token-per-unit
    encoder. *)
Definition unitCounter : DocumentChunker.TokenCounterApi :=
  DocumentChunker.wrapperCounter (UniversalTokenCounter.initialize (tiktokenOf unitEncoder)).

Definition gpt4 : jsstring := str "gpt-4".

(** An extraction that succeeds, and hosts around it. *)
Definition extraction : FileExtractor.ExtractionResult :=
  {| FileExtractor.text := str "Quarterly report. Revenue grew.";
     FileExtractor.pageCount := 1;
     FileExtractor.metadata := [("format", str "pdf")] |}.

Definition extractorHost : FileExtractor.Host :=
  {| FileExtractor.now := 1700000000000;
     FileExtractor.stat := fun _ => Ok (2048, 1699999999000);
     FileExtractor.md5 := fun s => s;
     FileExtractor.performExtraction := fun _ _ => Ok extraction;
     FileExtractor.extractionRace := OperationFirst |}.

Definition processorHost : SecureFileProcessor.Host :=
  {| SecureFileProcessor.randomUUID := str "3f2a9c1e-job";
     SecureFileProcessor.now := 1700000000000;
     SecureFileProcessor.tempDir := str "/srv/secure_temp";
     SecureFileProcessor.utf8 := List.map Byte.to_N;
     SecureFileProcessor.writeFile := fun _ _ => Ok tt;
     SecureFileProcessor.extractorHost := extractorHost;
     SecureFileProcessor.extractionRace := OperationFirst;
     SecureFileProcessor.tokenizer :=
       UniversalTokenCounter.initialize (tiktokenOf unitEncoder);
     SecureFileProcessor.chunkingRace := OperationFirst |}.

(** [new SecureFileProcessor()] with no job running. *)
Definition idleProcessor : SecureFileProcessor.t :=
  {| SecureFileProcessor.fileExtractor := FileExtractor.new;
     SecureFileProcessor.activeProcessing := [];
     SecureFileProcessor.events := [] |}.

Definition noOptions : SecureFileProcessor.Options :=
  {| SecureFileProcessor.model := None; SecureFileProcessor.maxTokensPerChunk := NaN |}.

(** The first bytes of an OOXML file: the ZIP header, then more. *)
Definition zipBytes : SecureFileProcessor.Buffer :=
  [Byte.x50; Byte.x4b; Byte.x03; Byte.x04; Byte.x14; Byte.x00; Byte.x06; Byte.x00].

Definition pdfMime : jsstring := str "application/pdf".

(** Two paragraphs, and the packing loop before and after the second. *)
Definition alphaToDelta : jsstring :=
  str "Alpha one is here. Beta two is here. Gamma three is here. Delta four is here.".
Definition alphaToGamma : jsstring :=
  str "Alpha one is here. Beta two is here. Gamma three is here.".
Definition closing : jsstring := str "Second paragraph closes it all.".


Definition afterAlpha : DocumentChunker.Packing :=
  {| DocumentChunker.chunks := [];
     DocumentChunker.currentChunk := alphaToDelta;
     DocumentChunker.currentTokens := 77;
     DocumentChunker.chunkIndex := 1 |}.

Definition afterClosing : DocumentChunker.Step :=
  DocumentChunker.Next
    {| DocumentChunker.chunks :=
         [DocumentChunker.createChunkSecure
            (alphaToDelta ++ DocumentChunker.paragraphBreak ++ alphaToDelta)
            (DocumentChunker.Counted 77) 1];
       DocumentChunker.currentChunk :=
         alphaToGamma ++ DocumentChunker.paragraphBreak ++ closing;
       DocumentChunker.currentTokens := 90;
       DocumentChunker.chunkIndex := 2 |}.

(** A word of 61 letters and hyphens. *)
Definition longWord : jsstring :=
  str "Supercalifragilisticexpialidocious-and-then-some-more-letters".

Definition twoParagraphs : jsstring :=
  alphaToDelta ++ DocumentChunker.paragraphBreak ++ closing.

(** 10000 code units, and as many bytes. *)
Definition tenThousandUnits : jsstring := repeat 120%N (Z.to_nat 10000).
Definition tenThousandBytes : list Byte.byte := repeat Byte.x78 (Z.to_nat 10000).

(** The first bytes of a PDF file. *)
Definition pdfBytes : SecureFileProcessor.Buffer :=
  [Byte.x25; Byte.x50; Byte.x44; Byte.x46; Byte.x2d; Byte.x31; Byte.x2e; Byte.x37].

(** A text file: [Hello, world.] *)
Definition textBytes : list Byte.byte :=
  [Byte.x48; Byte.x65; Byte.x6c; Byte.x6c; Byte.x6f; Byte.x2c; Byte.x20;
   Byte.x77; Byte.x6f; Byte.x72; Byte.x6c; Byte.x64; Byte.x2e].

(** A disk that holds [bytes] under every path, with parsers that succeed. *)
Definition diskOf (bytes : list Byte.byte) : FileExtractor.Extraction.Disk :=
  {| FileExtractor.Extraction.readFile := fun _ => Ok bytes;
     FileExtractor.Extraction.toUtf8 := List.map Byte.to_N;
     FileExtractor.Extraction.pdfParse := fun _ =>
       Ok {| FileExtractor.Extraction.pdfText := str "Quarterly report.";
             FileExtractor.Extraction.numpages := 3;
             FileExtractor.Extraction.info :=
               Some [("Title", FileExtractor.VString (str "Q3"))] |};
     FileExtractor.Extraction.extractRawText := fun _ =>
       Ok {| FileExtractor.Extraction.value := str "Body text.";
             FileExtractor.Extraction.messageCount := 0 |} |}.

(** A tiktoken that knows no model. *)
Definition noEncoding : JsError := mkError ErrorK (str "Unknown model").
Definition failingTiktoken : UniversalTokenCounter.Tiktoken :=
  {| UniversalTokenCounter.encoding_for_model := fun _ => Throw noEncoding |}.

(** One sentence of 101 words, 504 code units. *)
Definition hundredWords : jsstring :=
  join (str " ") (repeat (str "word") 101).

(** An encoder that refuses the end-of-text marker, as tiktoken refuses a
    special token, and yields a token per code unit otherwise. *)
Definition endOfText : jsstring := str "<|endoftext|>".
Definition strictEncoder : UniversalTokenCounter.Encoder := fun text =>
  if Regex.test (Regex.lit endOfText) text
  then Throw (mkError ErrorK (str "The text contains a special token that is not allowed"))
  else Ok text.



End Samples.

(** ** Vocabulary of the statements *)

(** Is the [maxTokens] argument an integer of the range [100, 32000]? *)
Definition integerInRange (maxTokens : DocumentChunker.MaxTokensArg) : bool :=
  match maxTokens with
  | DocumentChunker.MaxInt n => ((100 <=? n) && (n <=? 32000))%bool
  | DocumentChunker.MaxNotInteger => false
  end.

(** A counter that never rejects. *)
Definition neverRejects (tc : DocumentChunker.TokenCounterApi) : Prop :=
  forall s model, exists n, DocumentChunker.countTokens tc s model = Ok n.

(** The bounds on the token count of a chunk: at least 1, at most
    [maxTokens * 1.1]. *)
Definition inBudget (m : Z) (c : DocumentChunker.Chunk) : Prop :=
  exists n, DocumentChunker.tokenCount c = Num n /\ 1 <= n /\ 10 * n <= 11 * m.

(** The tokens of a list of sentences, counted one by one as the overlap
    loops count them. *)
Fixpoint tokensOfSentences (tc : DocumentChunker.TokenCounterApi) (model : jsstring)
         (sentences : list jsstring) : Z :=
  match sentences with
  | [] => 0
  | s :: r => match DocumentChunker.countTokens tc s model with
              | Ok n => n
              | Throw _ => 0
              end + tokensOfSentences tc model r
  end.

(** The state a round of the packing loop leaves. *)
Definition stateOf (step : DocumentChunker.Step) : DocumentChunker.Packing :=
  match step with DocumentChunker.Next st => st | DocumentChunker.Stop st => st end.

(** The sections fit one chunk: none is over the budget and the running
    total never passes it. *)
Fixpoint fitsBudget (tc : DocumentChunker.TokenCounterApi) (model : jsstring) (m : Z)
         (running : Z) (sections : list jsstring) : bool :=
  match sections with
  | [] => true
  | s :: r =>
      let n := DocumentChunker.countOrEstimate tc s model in
      ((n <=? m) && (running + n <=? m) && fitsBudget tc model m (running + n) r)%bool
  end.

Fixpoint tokensOfSections (tc : DocumentChunker.TokenCounterApi) (model : jsstring)
         (sections : list jsstring) : Z :=
  match sections with
  | [] => 0
  | s :: r => DocumentChunker.countOrEstimate tc s model + tokensOfSections tc model r
  end.

(** [currentChunk] after the sections were appended one by one. *)
Fixpoint joinOnto (current : jsstring) (sections : list jsstring) : jsstring :=
  match sections with
  | [] => current
  | s :: r =>
      joinOnto (current ++ (if truthy current then DocumentChunker.paragraphBreak else [])
                        ++ s) r
  end.

(** A string that starts and ends with something else than white space. *)
Definition startsTight (s : jsstring) : Prop :=
  match s with
  | c :: _ => isSpace c = false
  | [] => False
  end.

Definition tight (s : jsstring) : Prop := startsTight s /\ startsTight (rev s).

(** A string that some [trim] returned. *)
Definition trimmed (s : jsstring) : Prop := exists x, s = trim x.

(** The encoder [countTokens] runs for a model: the model's own where it has
    one, the GPT-4 one otherwise. *)
Definition encoderFor (u : UniversalTokenCounter.t) (model : jsstring)
  : UniversalTokenCounter.Encoder :=
  let normalizedModel := UniversalTokenCounter.normalizeModelName model in
  match JsMap.get normalizedModel (UniversalTokenCounter.modelDatabase u) with
  | Some modelSpec =>
      if UniversalTokenCounter.hasEncoder modelSpec then
        match JsMap.get normalizedModel (UniversalTokenCounter.encoders u) with
        | Some e => e
        | None => UniversalTokenCounter.fallbackEncoder u
        end
      else UniversalTokenCounter.fallbackEncoder u
  | None => UniversalTokenCounter.fallbackEncoder u
  end.

(** An approximation ratio is a non-negative double. *)
Definition ratioWellFormed (spec : UniversalTokenCounter.ModelSpec) : bool :=
  match UniversalTokenCounter.approximationRatio spec with
  | Some r => ((0 <=? Dbl.mant r) && (0 <=? Dbl.scale r))%bool
  | None => true
  end.

(** [d] is a double nearest to the decimal [p / q]: 53 significant bits,
    at most half a unit in the last place away. *)
Definition nearestDouble (d : Dbl.dbl) (p q : Z) : bool :=
  ((2 ^ 52 <=? Dbl.mant d) && (Dbl.mant d <? 2 ^ 53)
   && (2 * Z.abs (Dbl.mant d * q - p * 2 ^ Dbl.scale d) <=? q))%bool.

(** The states of an extractor: the fresh one, and what calls of
    [extractContent] and [clearCache] make of them. *)
Inductive reachable : FileExtractor.t -> Prop :=
| reachable_new : reachable FileExtractor.new
| reachable_extract h fx filePath mimeType :
    reachable fx ->
    reachable (snd (FileExtractor.extractContent h fx filePath mimeType))
| reachable_clear fx : reachable fx -> reachable (FileExtractor.clearCache fx).

(** The raw list numbers its chunks by position: the chunk at position [i],
    when there is one, has index [start + i]. *)
Fixpoint numberedFrom (start : Z) (l : list (option DocumentChunker.Chunk)) : Prop :=
  match l with
  | [] => True
  | c :: r =>
      match c with
      | Some c => DocumentChunker.index c = start
      | None => True
      end /\ numberedFrom (start + 1) r
  end.

(** A packing state whose chunks are numbered from [start] and whose next
    index continues the numbering. *)
Definition wellNumbered (start : Z) (st : DocumentChunker.Packing) : Prop :=
  numberedFrom start (DocumentChunker.chunks st)
  /\ DocumentChunker.chunkIndex st = start + len (DocumentChunker.chunks st).

(** No position of [s] starts a match of [m]. *)
Fixpoint unmatched (m : Regex.Matcher) (prev : option N) (s : jsstring) : Prop :=
  m prev s = None
  /\ match s with
     | [] => True
     | c :: r => unmatched m (Some c) r
     end.

(** What a piece cut by characters is: trimmed, of 10 code units at least
    and [maxChars + 1] at most, its token count a promise. *)
Definition pieceOk (maxChars : Z) (p : jsstring * DocumentChunker.TokenCountArg) : Prop :=
  tight (fst p) /\ 10 <= len (fst p) <= maxChars + 1 /\ snd p = DocumentChunker.Unawaited.

(** Does [s] hold a code unit of class [P] directly before one of class [Q]? *)
Fixpoint hasPair (P Q : N -> bool) (s : jsstring) : bool :=
  match s with
  | [] => false
  | a :: r =>
      match r with
      | [] => false
      | b :: _ => (P a && Q b) || hasPair P Q r
      end
  end.

Definition startsWith (Q : N -> bool) (s : jsstring) : bool :=
  match s with
  | [] => false
  | c :: _ => Q c
  end.

(** Is the position after [prev] the start of a line? *)
Definition atLineStart (prev : option N) : bool :=
  match prev with
  | None => true
  | Some p => Regex.isLineTerminator p
  end.

(** The code unit before the position reached once [skipped] was read. *)
Definition lastOr (prev : option N) (skipped : jsstring) : option N :=
  match rev skipped with
  | [] => prev
  | c :: _ => Some c
  end.

(** The six replacements of [cleanExtractedTextSecure], before [trim]. *)
Definition normalized (text0 : jsstring) : jsstring :=
  Regex.replace Regex.re_line_edges []
    (Regex.replace Regex.re_blanks2 (str " ")
       (Regex.replace Regex.re_newlines3 [10; 10]%N
          (Regex.replace Regex.re_control []
             (Regex.replace Regex.re_cr [10%N]
                (Regex.replace Regex.re_crlf [10%N] text0))))).

(** The markers [sanitizeContent] writes. *)
Definition markers : list jsstring :=
  [str "[SCRIPT_REMOVED]"; str "[JAVASCRIPT_REMOVED]"; str "[VBSCRIPT_REMOVED]";
   str "[EVENT_HANDLER_REMOVED]"].

(** A text without control characters and carriage returns in which no line
    terminator stands before white space. *)
Definition plain (s : jsstring) : Prop :=
  Forall (fun ch => Regex.isControl ch = false /\ ch <> 13%N) s
  /\ hasPair Regex.isLineTerminator isSpace s = false.

(** The ids that the lists of [getSupportedModels] hold. *)
Definition listedIds (models : list (string * list UniversalTokenCounter.Supported.t))
  : list jsstring :=
  List.map UniversalTokenCounter.Supported.id (concat (List.map snd models)).

(** What [addOverlapSecure] puts in front of the chunk it closes: the
    sentences it gathers from [previousSection] and a blank line, or
    nothing. *)
Definition overlapPrefix (tc : DocumentChunker.TokenCounterApi)
           (previousSection model : jsstring) : jsstring :=
  if (negb (truthy previousSection) || (DocumentChunker.overlapTokens <=? 0))%bool then []
  else
    let sentences := DocumentChunker.splitIntoSentencesSecure previousSection in
    match DocumentChunker.gatherSentences tc model
            (drop (Z.max 0 (len sentences - 5)) sentences) [] 0 with
    | Ok overlap => if truthy overlap then overlap ++ DocumentChunker.paragraphBreak else []
    | Throw _ => []
    end.

(** What [performChunking] puts in front of the chunk it starts after it
    closed [closedChunk]: the context [getContextStartSecure] gathers and a
    blank line, or nothing. *)
Definition contextPrefix (tc : DocumentChunker.TokenCounterApi)
           (closedChunk model : jsstring) : jsstring :=
  let contextStart := DocumentChunker.getContextStartSecure tc closedChunk model in
  contextStart ++ (if truthy contextStart then DocumentChunker.paragraphBreak else []).

(** The chunks that hold the groups of sections [groups], one chunk per
    group, as pairs: what is injected in front, and the sections of the
    group joined by blank lines.  Every chunk but the first starts with the
    context of the chunk before it; every chunk but the last was closed by
    the section that follows it, and carries the overlap in front of all. *)
Fixpoint chunkTexts (tc : DocumentChunker.TokenCounterApi) (model : jsstring)
         (context : jsstring) (groups : list (list jsstring))
  : list (jsstring * jsstring) :=
  match groups with
  | [] => []
  | g :: rest =>
      let body := join DocumentChunker.paragraphBreak g in
      match rest with
      | [] => [(context, body)]
      | _ :: _ =>
          (overlapPrefix tc (last g []) model ++ context, body)
            :: chunkTexts tc model (contextPrefix tc (context ++ body) model) rest
      end
  end.



(* ===================================================================== *)
(** * Part II: properties *)
(* ===================================================================== *)

Unset Implicit Arguments.

(** ** The model on known values

    What Node prints for the same expressions. *)

Section KnownValues.

Example decimal_constants :
  forallb (fun c => nearestDouble (fst c) (snd c) 10)
          [(Dbl.d1_0, 10); (Dbl.d1_1, 11); (Dbl.d1_2, 12); (Dbl.d0_8, 8);
           (Dbl.d0_9, 9); (Dbl.d0_5, 5); (Dbl.d0_3, 3); (Dbl.d0_2, 2)] = true.
Proof. reflexivity. Qed.

(** [100 * 1.1] is [110.00000000000001], [300 * 0.3] is [90], and
    [3 * 0.3] is [0.8999999999999999]. *)
Example double_products :
  Dbl.int_gtb 110 (Dbl.mul_int 100 Dbl.d1_1) = false
  /\ Dbl.mant (Dbl.mul_int 100 Dbl.d1_1) <> 110 * 2 ^ 52
  /\ Dbl.mant (Dbl.mul_int 300 Dbl.d0_3) = 90 * 2 ^ 54
  /\ Dbl.mant (Dbl.mul_int 3 Dbl.d0_3) * 10 < 9 * 2 ^ 54.
Proof. repeat split; (reflexivity || discriminate). Qed.

(** [Math.round(5 * 1.1)] is 6 and [Math.round(7 * 1.2)] is 8. *)
Example rounded_products :
  Dbl.Math_round (Dbl.mul_int 5 Dbl.d1_1) = 6
  /\ Dbl.Math_round (Dbl.mul_int 7 Dbl.d1_2) = 8
  /\ Dbl.Math_round (Dbl.mul_int 1000003 Dbl.d0_8) = 800002.
Proof. repeat split; reflexivity. Qed.

Example split_blank_lines :
  Regex.split Regex.re_blank_line
    (str "one" ++ [10; 32; 10]%N ++ str "two" ++ [10; 10; 10]%N ++ str "three"
     ++ [10; 10; 32; 32]%N ++ str "four" ++ [10]%N ++ str "five")
  = [str "one"; str "two"; str "three"; str "  four" ++ [10]%N ++ str "five"].
Proof. reflexivity. Qed.

Example split_sentences :
  Regex.split Regex.re_sentence_gap (str "It works. Yes!  no gap here? Done.")
  = [str "It works."; str "Yes!  no gap here?"; str "Done."].
Proof. reflexivity. Qed.

Example split_words :
  filter truthy (Regex.split Regex.re_spaces (str "  two  words "))
  = [str "two"; str "words"].
Proof. reflexivity. Qed.

Example trim_and_lastIndexOf :
  trim (str "  a b  ") = str "a b"
  /\ lastIndexOf 32 5 (str "a b c d e") = 5
  /\ lastIndexOf 32 4 (str "a b c d e") = 3
  /\ lastIndexOf 63 8 (str "a b c d e") = -1
  /\ substring 5 2 (str "abcdefgh") = str "cde".
Proof. repeat split; reflexivity. Qed.

Example patterns :
  Regex.test Regex.re_event_handler (str "<a OnClick = go>") = true
  /\ Regex.test Regex.re_event_handler (str "on = 3") = false
  /\ Regex.test Regex.re_script_tag (str "<SCRIPT src=x") = false
  /\ Regex.test Regex.re_script_tag (str "<SCRIPT src=x>") = true
  /\ Regex.replace Regex.re_script_element (str "[SCRIPT_REMOVED]")
       (str "a<script>x</script>b</script>") = str "a[SCRIPT_REMOVED]b</script>"
  /\ Regex.replace Regex.re_newlines4 [10; 10; 10]%N [97; 10; 10; 10; 10; 10; 98]%N
     = [97; 10; 10; 10; 98]%N.
Proof. repeat split; reflexivity. Qed.

Example model_names :
  UniversalTokenCounter.normalizeModelName (str "  GPT-4o-Mini ") = str "gpt-4o-mini"
  /\ option_map UniversalTokenCounter.contextWindow
       (JsMap.get (str "opus") UniversalTokenCounter.loadModelDatabase) = Some 200000
  /\ JsMap.get (str "gpt-3.5-turbo-16k") UniversalTokenCounter.loadModelDatabase = None
  /\ JsMap.size UniversalTokenCounter.loadModelDatabase = 38.
Proof. repeat split; reflexivity. Qed.

Example file_names :
  SecureFileProcessor.sanitizeFileName (str "my report (v2).pdf") = str "my_report__v2_.pdf"
  /\ SecureFileProcessor.isValidFileName (str "report.pdf") = true
  /\ SecureFileProcessor.isValidFileName (str "../report.pdf") = false
  /\ SecureFileProcessor.isValidFileName (str "com1.txt") = false
  /\ SecureFileProcessor.isValidFileName (str "com10.txt") = true
  /\ SecureFileProcessor.megabytes2 52428801 = str "50.00"
  /\ SecureFileProcessor.megabytes2 55000000 = str "52.45".
Proof. repeat split; reflexivity. Qed.

(** [(1234 / 1000) * 0.03] prints as [0.0370], [(2500 / 1000) * 0.00015]
    as [0.0004], and [Math.floor(8192 * 0.2)] is 1638. *)
Example costs_and_buffers :
  UniversalTokenCounter.costString 1234 30000 = str "0.0370"
  /\ UniversalTokenCounter.costString 2500 150 = str "0.0004"
  /\ UniversalTokenCounter.costString 1000000 75000 = str "75.0000"
  /\ Dbl.Math_floor (Dbl.mul_int 8192 Dbl.d0_2) = 1638
  /\ Dbl.Math_ceil (Dbl.div_int 4001 2000) = 3.
Proof. repeat split; reflexivity. Qed.

(** Blank lines go, and so do the line breaks around them. *)
Example cleaned_lines :
  FileExtractor.cleanExtractedTextSecure
    (str "  Title  " ++ [13; 10; 13; 10]%N ++ str "First   line." ++ [10; 32; 32]%N
     ++ str "Second" ++ [0; 10]%N)
  = str "Title" ++ str "First line." ++ [10]%N ++ str "Second".
Proof. reflexivity. Qed.

End KnownValues.

(** ** Lengths, prefixes and filters *)

Section ListFacts.

Context {A : Type}.

Lemma len_nonneg (l : list A) : 0 <= len l.
Proof. unfold len. lia. Qed.

Lemma len_nil : len (@nil A) = 0.
Proof. reflexivity. Qed.

Lemma len_cons (a : A) (l : list A) : len (a :: l) = len l + 1.
Proof. unfold len. cbn [length]. lia. Qed.

Lemma len_zero_nil (l : list A) : len l = 0 -> l = [].
Proof. destruct l; [reflexivity | rewrite len_cons; pose proof (len_nonneg l); lia]. Qed.

Lemma take_len_le (l : list A) : forall n, 0 <= n -> len (take n l) <= n.
Proof.
  induction l as [| a l IH]; intros n Hn; cbn [take].
  - rewrite len_nil. lia.
  - destruct (Z.leb_spec n 0).
    + rewrite len_nil. lia.
    + rewrite len_cons. specialize (IH (n - 1)). lia.
Qed.

Lemma take_In (l : list A) : forall n x, In x (take n l) -> In x l.
Proof.
  induction l as [| a l IH]; intros n x; cbn [take]; [tauto |].
  destruct (n <=? 0); cbn [In]; [tauto |].
  intros [-> | H]; [now left | right; eauto].
Qed.

Lemma take_Forall (P : A -> Prop) (l : list A) n : Forall P l -> Forall P (take n l).
Proof.
  rewrite !Forall_forall. intros H x Hx. apply H. eapply take_In; eauto.
Qed.

Lemma drop_zero (l : list A) : drop 0 l = l.
Proof. destruct l; reflexivity. Qed.

Lemma substring_from_zero (l : list A) n : 0 <= n -> substring 0 n l = take n l.
Proof.
  intros Hn. unfold substring.
  rewrite Z.min_l, Z.max_r by lia. rewrite Z.max_id, drop_zero. f_equal. lia.
Qed.

End ListFacts.

Lemma truthy_true_len (s : jsstring) : truthy s = true -> 0 < len s.
Proof.
  destruct s; [discriminate |]. intros _. rewrite len_cons. pose proof (len_nonneg s). lia.
Qed.

(** ** DocumentChunker: input validation and the final filter *)

Section ChunkerValidation.

Import DocumentChunker.

Lemma validateInput_range content maxTokens model n :
  validateInput content maxTokens model = Ok n ->
  maxTokens = MaxInt n /\ 100 <= n <= 32000.
Proof.
  unfold validateInput, throwError.
  destruct (negb (truthy content)); [discriminate |].
  destruct (len content =? 0); [discriminate |].
  destruct (MAX_DOCUMENT_LENGTH <? len content); [discriminate |].
  destruct maxTokens as [m |]; [| discriminate].
  destruct (Z.ltb_spec m 100); cbn [orb]; [discriminate |].
  destruct (Z.ltb_spec 32000 m); [discriminate |].
  destruct (negb (truthy model)); [discriminate |].
  destruct (existsb _ _); [discriminate |].
  intros [= <-]. split; [reflexivity | lia].
Qed.

Lemma validateInput_rejects content maxTokens model :
  integerInRange maxTokens = false ->
  exists cause, validateInput content maxTokens model = Throw cause.
Proof.
  intros Hbad.
  destruct (validateInput content maxTokens model) as [n | cause] eqn:E; [| eauto].
  apply validateInput_range in E. destruct E as [-> Hn]. cbn in Hbad.
  destruct (Z.leb_spec 100 n), (Z.leb_spec n 32000); cbn in Hbad; (discriminate || lia).
Qed.

(** A valid text keeps the message about [maxTokens]. *)
Lemma validateInput_rejects_message content maxTokens model :
  integerInRange maxTokens = false ->
  truthy content = true -> len content <= MAX_DOCUMENT_LENGTH ->
  validateInput content maxTokens model
  = throwError (str "maxTokens must be an integer between 100 and 32000").
Proof.
  intros Hbad Hc Hlen. unfold validateInput. rewrite Hc. cbn [negb].
  pose proof (truthy_true_len _ Hc).
  destruct (Z.eqb_spec (len content) 0); [lia |].
  destruct (Z.ltb_spec MAX_DOCUMENT_LENGTH (len content)); [lia |].
  destruct maxTokens as [m |]; [| reflexivity].
  cbn in Hbad.
  destruct (Z.ltb_spec m 100); cbn [orb]; [reflexivity |].
  destruct (Z.ltb_spec 32000 m); [reflexivity |].
  destruct (Z.leb_spec 100 m), (Z.leb_spec m 32000); cbn in Hbad; (discriminate || lia).
Qed.

(** C6. Whatever the text, a [maxTokens] that is not an integer of
    [100, 32000] makes [chunkDocument] throw: the error is the one
    [validateInput] raises, wrapped, so it is raised before the packing is
    started, whatever the counter and the timer would have done, and no
    chunk list is returned. *)
Theorem chunkDocument_rejects_bad_maxTokens :
  forall race tc content maxTokens model,
    integerInRange maxTokens = false ->
    exists cause,
      validateInput content maxTokens model = Throw cause
      /\ chunkDocument race tc content maxTokens model
         = throwError (str "Document chunking failed: " ++ message cause)
      /\ (forall chunks, chunkDocument race tc content maxTokens model <> Ok chunks).
Proof.
  intros race tc content maxTokens model Hbad.
  destruct (validateInput_rejects content maxTokens model Hbad) as [cause Hcause].
  exists cause. split; [exact Hcause |].
  assert (H : chunkDocument race tc content maxTokens model
              = throwError (str "Document chunking failed: " ++ message cause)).
  { unfold chunkDocument. rewrite Hcause. reflexivity. }
  split; [exact H |]. intros chunks. rewrite H. discriminate.
Qed.

(** The instance of the specification: [maxTokens = 50]. *)
Lemma chunkDocument_rejects_50 :
  integerInRange (MaxInt 50) = false
  /\ exists cause,
      validateInput (str "A short text to chunk.") (MaxInt 50) Samples.gpt4 = Throw cause
      /\ chunkDocument OperationFirst Samples.unitCounter
           (str "A short text to chunk.") (MaxInt 50) Samples.gpt4
         = throwError (str "Document chunking failed: " ++ message cause)
      /\ (forall chunks,
             chunkDocument OperationFirst Samples.unitCounter
               (str "A short text to chunk.") (MaxInt 50) Samples.gpt4 <> Ok chunks).
Proof.
  split; [reflexivity |].
  apply (chunkDocument_rejects_bad_maxTokens OperationFirst Samples.unitCounter
           (str "A short text to chunk.") (MaxInt 50) Samples.gpt4).
  reflexivity.
Defined.

End ChunkerValidation.

(** ** DocumentChunker: the cap on the number of chunks *)

Section ChunkCount.

Import DocumentChunker.

Lemma validateChunks_length chunks maxTokens :
  len (validateChunks chunks maxTokens) <= MAX_CHUNK_COUNT.
Proof.
  unfold validateChunks.
  assert (Hslice : len (slice0 MAX_CHUNK_COUNT (validChunksOf chunks maxTokens))
                   <= MAX_CHUNK_COUNT).
  { apply take_len_le. unfold MAX_CHUNK_COUNT. lia. }
  destruct (_ && _)%bool; [| exact Hslice].
  destruct (findBest chunks); [| exact Hslice].
  unfold MAX_CHUNK_COUNT. rewrite len_cons, len_nil. lia.
Qed.

(** What [chunkDocument] returns is what [validateChunks] let through. *)
Lemma chunkDocument_Ok race tc content maxTokens model chunks :
  chunkDocument race tc content maxTokens model = Ok chunks ->
  exists n raw,
    validateInput content maxTokens model = Ok n
    /\ race = OperationFirst
    /\ performChunking tc content n model = Ok raw
    /\ chunks = validateChunks raw n.
Proof.
  unfold chunkDocument.
  destruct (validateInput content maxTokens model) as [n |]; cbn; [| discriminate].
  destruct race; cbn; [| discriminate].
  destruct (performChunking tc content n model) as [raw |] eqn:Hraw; cbn; [| discriminate].
  intros [= <-]. exists n, raw. auto.
Qed.

Lemma chunkDocument_length race tc content maxTokens model chunks :
  chunkDocument race tc content maxTokens model = Ok chunks ->
  len chunks <= MAX_CHUNK_COUNT.
Proof.
  intros H. apply chunkDocument_Ok in H.
  destruct H as (n & raw & _ & _ & _ & ->). apply validateChunks_length.
Qed.

Lemma wrapperCounter_neverRejects init : neverRejects (wrapperCounter init).
Proof.
  intros s model. cbn. unfold TokenCounter.countTokens, tryCatch.
  destruct (UniversalTokenCounter.countTokens init s model); eauto.
Qed.

Lemma packSection_returns tc maxTokens model previousSection section st :
  neverRejects tc ->
  exists step, packSection tc maxTokens model previousSection section st = Ok step.
Proof.
  intros Htc. unfold packSection.
  destruct (maxTokens <? countOrEstimate tc section model).
  - destruct (MAX_CHUNK_COUNT <? _); eauto.
  - destruct (_ && _)%bool; cbn [bind].
    + match goal with
      | |- context [countTokens tc ?s model] => destruct (Htc s model) as [k ->]
      end.
      cbn [bind]. destruct (MAX_CHUNK_COUNT - 10 <? _); eauto.
    + destruct (MAX_CHUNK_COUNT - 10 <? _); eauto.
Qed.

Lemma packLoop_returns tc maxTokens model sections :
  neverRejects tc ->
  forall previousSection st,
  exists st', packLoop tc maxTokens model previousSection sections st = Ok st'.
Proof.
  intros Htc. induction sections as [| section rest IH]; intros previousSection st;
    cbn [packLoop].
  - eauto.
  - destruct (packSection_returns tc maxTokens model previousSection section st Htc)
      as [step ->].
    cbn [bind]. destruct step; eauto.
Qed.

Lemma performChunking_returns tc content maxTokens model :
  neverRejects tc ->
  exists raw, performChunking tc content maxTokens model = Ok raw.
Proof.
  intros Htc. unfold performChunking.
  destruct (packLoop_returns tc maxTokens model (splitIntoSectionsSecure content) Htc
              [] initialPacking) as [st ->].
  cbn [bind]. destruct (truthy _); eauto.
Qed.

(** C7. For every input that passes validation, [chunkDocument] over the
    counter of the repository returns a list, not an error, and the list
    holds at most 100 chunks; and whatever the counter and the timer, a list
    it returns holds at most 100 chunks.  The cap is never an error: the
    loops leave early and [validateChunks] keeps the first 100. *)
Theorem chunkDocument_chunk_count_capped :
  forall init content maxTokens model n,
    validateInput content maxTokens model = Ok n ->
    (exists chunks,
        chunkDocument OperationFirst (wrapperCounter init) content maxTokens model = Ok chunks
        /\ len chunks <= MAX_CHUNK_COUNT)
    /\ (forall race tc chunks,
           chunkDocument race tc content maxTokens model = Ok chunks ->
           len chunks <= MAX_CHUNK_COUNT).
Proof.
  intros init content maxTokens model n Hvalid. split.
  - destruct (performChunking_returns (wrapperCounter init) content n model
                (wrapperCounter_neverRejects init)) as [raw Hraw].
    exists (validateChunks raw n). split; [| apply validateChunks_length].
    unfold chunkDocument. rewrite Hvalid. cbn [bind]. rewrite Hraw. reflexivity.
  - intros race tc chunks. apply chunkDocument_length.
Qed.

Lemma chunkDocument_chunk_count_capped_witness :
  validateInput (str "A short text to chunk.") (MaxInt 6000) Samples.gpt4 = Ok 6000
  /\ (exists chunks,
         chunkDocument OperationFirst Samples.unitCounter
           (str "A short text to chunk.") (MaxInt 6000) Samples.gpt4 = Ok chunks
         /\ len chunks <= MAX_CHUNK_COUNT)
  /\ (forall race tc chunks,
         chunkDocument race tc (str "A short text to chunk.") (MaxInt 6000) Samples.gpt4
         = Ok chunks ->
         len chunks <= MAX_CHUNK_COUNT).
Proof.
  split; [vm_compute; reflexivity |].
  apply (chunkDocument_chunk_count_capped
           (UniversalTokenCounter.initialize (Samples.tiktokenOf Samples.unitEncoder))
           (str "A short text to chunk.") (MaxInt 6000) Samples.gpt4 6000).
  vm_compute. reflexivity.
Defined.

End ChunkCount.

(** ** SecureFileProcessor: file names and signatures *)

Section ProcessorFacts.

Import SecureFileProcessor.

(** Replacing the matches of a one-character class rewrites the string
    character by character. *)
Lemma replace_oneOf (p : N -> bool) (repl : jsstring) (s : jsstring) :
  forall prev,
    Regex.replace_from (Regex.oneOf p) repl prev O s
    = flat_map (fun c => if p c then repl else [c]) s.
Proof.
  induction s as [| c r IH]; intros prev; [reflexivity |].
  cbn [Regex.replace_from Regex.oneOf flat_map].
  destruct (p c); rewrite IH; reflexivity.
Qed.

Lemma sanitizeFileName_chars fileName :
  Forall (fun c => Regex.isSafeNameChar c = true) (sanitizeFileName fileName).
Proof.
  unfold sanitizeFileName, substring. apply take_Forall.
  rewrite Z.min_l by lia. rewrite drop_zero.
  unfold Regex.replace, Regex.re_unsafe_name_char. rewrite replace_oneOf.
  apply Forall_forall. intros x Hx. apply in_flat_map in Hx.
  destruct Hx as (c & _ & Hc).
  destruct (Regex.isSafeNameChar c) eqn:Hsafe; cbn [negb] in Hc.
  - destruct Hc as [<- | []]. exact Hsafe.
  - destruct Hc as [<- | []]. reflexivity.
Qed.

Lemma sanitizeFileName_length fileName : len (sanitizeFileName fileName) <= 100.
Proof.
  unfold sanitizeFileName. rewrite substring_from_zero by lia.
  apply take_len_le. lia.
Qed.


(** The class test is the one of the claim. *)
Lemma isSafeNameChar_spec c :
  Regex.isSafeNameChar c = true <->
  (97 <= c <= 122 \/ 65 <= c <= 90 \/ 48 <= c <= 57 \/ c = 46 \/ c = 95 \/ c = 45)%N.
Proof.
  unfold Regex.isSafeNameChar, isLower, isUpper, isDigit, in_range.
  rewrite !orb_true_iff, !andb_true_iff, !N.leb_le, !N.eqb_eq. tauto.
Qed.

(** In this code no call of [processFile] reaches the [return]: the chunk
    list is a promise that was not awaited, and [chunks.map] throws. *)
Lemma processFile_never_returns h sp fileBuffer callerName mimeType options :
  exists e, fst (processFile h sp fileBuffer callerName mimeType options) = Throw e.
Proof.
  unfold processFile.
  destruct (validateFileSecurely h fileBuffer callerName mimeType); [| cbn; eauto].
  destruct (MAX_CONCURRENT_PROCESSING <=? _); [unfold throwError; cbn; eauto |].
  unfold processBody. cbv zeta.
  match goal with
  | |- context [writeFile h ?path fileBuffer] => destruct (writeFile h path fileBuffer)
  end; [| unfold throwError; cbn; eauto].
  match goal with
  | |- context [FileExtractor.extractContent ?a ?b ?c ?d] =>
      destruct (FileExtractor.extractContent a b c d) as [extraction fx]
  end.
  cbn [fst].
  destruct (extractionRace h); [| unfold throwError; cbn; eauto].
  destruct extraction as [extracted |]; [| unfold throwError; cbn; eauto].
  cbn [bind]. destruct (_ || _)%bool; unfold throwError; cbn; eauto.
Qed.

Lemma take_firstn {A : Type} (l : list A) :
  forall k, take (Z.of_nat k) l = firstn k l.
Proof.
  induction l as [| a l IH]; intros k; cbn [take]; [now rewrite firstn_nil |].
  destruct k as [| k].
  - reflexivity.
  - destruct (Z.leb_spec (Z.of_nat (S k)) 0); [lia |].
    cbn [firstn]. f_equal. rewrite <- IH. f_equal. lia.
Qed.

Lemma everyByteMatches_firstn expected :
  forall fileSignature,
    everyByteMatches expected fileSignature = true ->
    firstn (length expected) fileSignature = expected.
Proof.
  induction expected as [| b e IH]; intros f; [reflexivity |].
  destruct f as [| c f]; cbn [everyByteMatches firstn length]; [discriminate |].
  intros H. apply andb_true_iff in H. destruct H as [Hb He].
  apply Byte.byte_dec_bl in Hb. subst c. f_equal.
  specialize (IH f He). exact IH.
Qed.

Lemma validateFileSignature_mismatch buffer mimeType expected :
  JsObject.get signatures mimeType = JsObject.Own (Some expected) ->
  firstn (length expected) buffer <> expected ->
  exists e, validateFileSignature buffer mimeType = Throw e.
Proof.
  intros Hsig Hneq. unfold validateFileSignature. rewrite Hsig.
  destruct (everyByteMatches expected _) eqn:E; [| unfold throwError; eauto].
  exfalso. apply Hneq. apply everyByteMatches_firstn in E.
  rewrite substring_from_zero in E by apply len_nonneg.
  unfold len in E. rewrite take_firstn in E.
  rewrite firstn_firstn, Nat.min_id in E. exact E.
Qed.

(** C3. For a MIME type with a magic number, a buffer whose leading bytes
    differ from it makes [processFile] throw the error of
    [validateFileSecurely]; the processor is left as it was, so nothing was
    written, the extractor was not invoked and its cache is untouched. *)
Theorem processFile_rejects_signature_mismatch :
  forall h sp fileBuffer callerName mimeType options expected,
    JsObject.get signatures mimeType = JsObject.Own (Some expected) ->
    firstn (length expected) fileBuffer <> expected ->
    exists e,
      validateFileSecurely h fileBuffer callerName mimeType = Throw e
      /\ processFile h sp fileBuffer callerName mimeType options = (Throw e, sp).
Proof.
  intros h sp fileBuffer callerName mimeType options expected Hsig Hneq.
  assert (Hv : exists e, validateFileSecurely h fileBuffer callerName mimeType = Throw e).
  { unfold validateFileSecurely.
    destruct (MAX_FILE_SIZE <? _); [unfold throwError; eauto |].
    destruct (negb (isValidFileName callerName)); [unfold throwError; eauto |].
    destruct (negb (FileExtractor.isSupported mimeType)); [unfold throwError; eauto |].
    destruct (validateFileSignature_mismatch fileBuffer mimeType expected Hsig Hneq)
      as [e ->].
    cbn. eauto. }
  destruct Hv as [e He]. exists e. split; [exact He |].
  unfold processFile. rewrite He. reflexivity.
Qed.

(** The instance of the specification: a buffer declared as PDF that
    carries the ZIP header. *)
Lemma processFile_rejects_zip_declared_pdf :
  JsObject.get signatures Samples.pdfMime
  = JsObject.Own (Some [Byte.x25; Byte.x50; Byte.x44; Byte.x46])
  /\ firstn 4 Samples.zipBytes <> [Byte.x25; Byte.x50; Byte.x44; Byte.x46]
  /\ exists e,
      validateFileSecurely Samples.processorHost Samples.zipBytes
        (str "report.pdf") Samples.pdfMime = Throw e
      /\ processFile Samples.processorHost Samples.idleProcessor Samples.zipBytes
           (str "report.pdf") Samples.pdfMime Samples.noOptions
         = (Throw e, Samples.idleProcessor).
Proof.
  split; [reflexivity |]. split; [discriminate |].
  apply (processFile_rejects_signature_mismatch
           Samples.processorHost Samples.idleProcessor Samples.zipBytes
           (str "report.pdf") Samples.pdfMime Samples.noOptions
           [Byte.x25; Byte.x50; Byte.x44; Byte.x46]).
  - reflexivity.
  - discriminate.
Defined.

End ProcessorFacts.

(** ** FileExtractor: the cache key that is out of scope *)

Section ExtractorFacts.

Import FileExtractor.

(** The identifier [cacheKey] does not resolve where [cacheResult] is
    called. *)
Lemma cacheKey_unresolved filePath mimeType :
  resolve "cacheKey" [extractionScope; functionScope filePath mimeType; moduleScope]
  = Throw (mkError ReferenceErrorK (str "cacheKey is not defined")).
Proof. reflexivity. Qed.

(** No call changes the cache. *)
Lemma extractContent_keeps_cache h fx filePath mimeType :
  snd (extractContent h fx filePath mimeType) = fx.
Proof.
  unfold extractContent.
  destruct (JsObject.get supportedTypes mimeType) as [fileType | |]; try reflexivity.
  destruct (checkCache h fx filePath mimeType); [reflexivity |].
  cbv zeta. rewrite cacheKey_unresolved.
  destruct (extractionRace h); [| reflexivity].
  destruct (performExtraction h filePath fileType) as [r |]; [| reflexivity].
  cbn [bind]. destruct (validateExtractedContent r); reflexivity.
Qed.

Lemma reachable_cache_empty fx : reachable fx -> extractionCache fx = [].
Proof.
  induction 1 as [| h fx filePath mimeType _ IH | fx _ _].
  - reflexivity.
  - rewrite extractContent_keeps_cache. exact IH.
  - reflexivity.
Qed.

Lemma checkCache_empty h fx filePath mimeType :
  extractionCache fx = [] -> checkCache h fx filePath mimeType = None.
Proof.
  intros Hempty. unfold checkCache.
  destruct (stat h filePath) as [[size mtime] |]; [| reflexivity].
  cbn. rewrite Hempty. reflexivity.
Qed.

Lemma extractContent_miss_throws h fx filePath mimeType :
  checkCache h fx filePath mimeType = None ->
  exists e, extractContent h fx filePath mimeType = (Throw e, fx).
Proof.
  intros Hmiss. unfold extractContent.
  destruct (JsObject.get supportedTypes mimeType) as [fileType | |];
    [| unfold throwError; eauto ..].
  rewrite Hmiss. cbv zeta. rewrite cacheKey_unresolved.
  destruct (extractionRace h); [| unfold throwError; cbn; eauto].
  destruct (performExtraction h filePath fileType) as [r |];
    [| unfold throwError; cbn; eauto].
  cbn [bind]. destruct (validateExtractedContent r); unfold throwError; cbn; eauto.
Qed.

Lemma extractContent_completed_throws h fx filePath mimeType fileType r :
  checkCache h fx filePath mimeType = None ->
  JsObject.get supportedTypes mimeType = JsObject.Own fileType ->
  extractionRace h = OperationFirst ->
  performExtraction h filePath fileType = Ok r ->
  validateExtractedContent r = Ok tt ->
  extractContent h fx filePath mimeType
  = (throwError (upperName fileType ++ str " extraction failed: cacheKey is not defined"),
     fx).
Proof.
  intros Hmiss Htype Hrace Hextract Hvalid.
  unfold extractContent. rewrite Htype, Hmiss. cbv zeta.
  rewrite cacheKey_unresolved, Hrace, Hextract. cbn [bind]. rewrite Hvalid.
  reflexivity.
Qed.

(** From the fresh state on, no call returns. *)
Lemma extractContent_always_throws h fx filePath mimeType :
  reachable fx -> exists e, extractContent h fx filePath mimeType = (Throw e, fx).
Proof.
  intros Hreach. apply extractContent_miss_throws, checkCache_empty.
  apply reachable_cache_empty, Hreach.
Qed.

(** C9. On a cache miss [extractContent] throws and leaves the cache as it
    was; when the extraction and the validation both complete, what it
    throws is the ReferenceError of [cacheKey], wrapped.  And in every state
    an extractor can be in, the cache is empty, so every call misses. *)
Theorem extractContent_never_returns_extraction :
  forall h fx filePath mimeType,
    (checkCache h fx filePath mimeType = None ->
     (exists e, extractContent h fx filePath mimeType = (Throw e, fx))
     /\ (forall fileType r,
            JsObject.get supportedTypes mimeType = JsObject.Own fileType ->
            extractionRace h = OperationFirst ->
            performExtraction h filePath fileType = Ok r ->
            validateExtractedContent r = Ok tt ->
            extractContent h fx filePath mimeType
            = (throwError (upperName fileType
                           ++ str " extraction failed: cacheKey is not defined"), fx)))
    /\ (reachable fx ->
        extractionCache fx = [] /\ checkCache h fx filePath mimeType = None).
Proof.
  intros h fx filePath mimeType. split.
  - intros Hmiss. split.
    + apply extractContent_miss_throws, Hmiss.
    + intros fileType r. apply extractContent_completed_throws, Hmiss.
  - intros Hreach. pose proof (reachable_cache_empty fx Hreach) as Hempty.
    split; [exact Hempty | apply checkCache_empty; exact Hempty].
Qed.

(** A fresh extractor, a PDF whose extraction and validation succeed. *)
Lemma extractContent_fresh_extractor_throws :
  extractContent Samples.extractorHost new (str "/srv/secure_temp/a.tmp") Samples.pdfMime
  = (throwError (str "PDF extraction failed: cacheKey is not defined"), new).
Proof.
  destruct (extractContent_never_returns_extraction
              Samples.extractorHost new (str "/srv/secure_temp/a.tmp") Samples.pdfMime)
    as [Hmiss Hreach].
  destruct (Hreach reachable_new) as [_ Hnone].
  destruct (Hmiss Hnone) as [_ Hthrows].
  apply (Hthrows pdf Samples.extraction); reflexivity.
Defined.

End ExtractorFacts.

(** ** Doubles: rounding to 53 bits *)

Section DoubleFacts.

Import Dbl.

Lemma bits_log2 n : 0 < n -> bits n = Z.log2 n + 1.
Proof. intros H. unfold bits. destruct (Z.leb_spec n 0); lia. Qed.

(** A number of more than 53 bits, cut at its 53 leading bits. *)
Lemma leading_bits n s :
  0 < n -> s = Z.log2 n - 52 -> 0 < s ->
  2 ^ Z.log2 n = 2 ^ 52 * 2 ^ s
  /\ 2 ^ (Z.log2 n + 1) = 2 ^ 53 * 2 ^ s
  /\ 2 ^ 52 <= n / 2 ^ s < 2 ^ 53.
Proof.
  intros Hn -> Hs.
  assert (H1 : 2 ^ Z.log2 n = 2 ^ 52 * 2 ^ (Z.log2 n - 52)).
  { rewrite <- Z.pow_add_r by lia. f_equal. lia. }
  assert (H2 : 2 ^ (Z.log2 n + 1) = 2 ^ 53 * 2 ^ (Z.log2 n - 52)).
  { rewrite <- Z.pow_add_r by lia. f_equal. lia. }
  pose proof (Z.log2_spec n Hn) as [Hlo Hhi].
  replace (Z.succ (Z.log2 n)) with (Z.log2 n + 1) in Hhi by lia.
  assert (Hp : 0 < 2 ^ (Z.log2 n - 52)) by (apply Z.pow_pos_nonneg; lia).
  repeat split; try assumption.
  - apply Z.div_le_lower_bound; [exact Hp |]. lia.
  - apply Z.div_lt_upper_bound; [exact Hp |]. lia.
Qed.

Lemma round53_bounds n :
  0 < n -> 2 ^ Z.log2 n <= round53 n <= 2 ^ (Z.log2 n + 1).
Proof.
  intros Hn. unfold round53. rewrite (bits_log2 n Hn).
  pose proof (Z.log2_spec n Hn) as [Hlo Hhi].
  replace (Z.succ (Z.log2 n)) with (Z.log2 n + 1) in Hhi by lia.
  destruct (Z.leb_spec (Z.log2 n + 1 - 53) 0) as [Hs | Hs]; [lia |].
  replace (Z.log2 n + 1 - 53) with (Z.log2 n - 52) in * by lia.
  destruct (leading_bits n (Z.log2 n - 52) Hn eq_refl Hs) as (E1 & E2 & Hq).
  rewrite E1, E2.
  assert (Hp : 0 < 2 ^ (Z.log2 n - 52)) by (apply Z.pow_pos_nonneg; lia).
  destruct (_ || _)%bool; nia.
Qed.

Lemma round53_nonneg n : 0 <= n -> 0 <= round53 n.
Proof.
  intros Hn. destruct (Z.eq_dec n 0) as [-> | Hne]; [reflexivity |].
  pose proof (round53_bounds n ltac:(lia)) as [H _].
  pose proof (Z.pow_pos_nonneg 2 (Z.log2 n) ltac:(lia) (Z.log2_nonneg n)). lia.
Qed.

Lemma round53_monotone a b : 0 <= a <= b -> round53 a <= round53 b.
Proof.
  intros [Ha Hab].
  destruct (Z.eq_dec a 0) as [-> | Hne].
  { change (round53 0) with 0. apply round53_nonneg. lia. }
  assert (Hapos : 0 < a) by lia. assert (Hbpos : 0 < b) by lia.
  pose proof (Z.log2_le_mono a b Hab) as Hlog.
  destruct (Z.eq_dec (Z.log2 a) (Z.log2 b)) as [Heq | Hlt].
  - unfold round53. rewrite (bits_log2 a Hapos), (bits_log2 b Hbpos), <- Heq.
    destruct (Z.leb_spec (Z.log2 a + 1 - 53) 0) as [Hs | Hs]; [exact Hab |].
    set (s := Z.log2 a + 1 - 53) in *.
    assert (Hp : 0 < 2 ^ s) by (apply Z.pow_pos_nonneg; lia).
    pose proof (Z.div_le_mono a b (2 ^ s) Hp Hab) as Hq.
    pose proof (Z.div_mod a (2 ^ s) ltac:(lia)) as Da.
    pose proof (Z.div_mod b (2 ^ s) ltac:(lia)) as Db.
    pose proof (Z.mod_pos_bound a (2 ^ s) Hp) as Ra.
    pose proof (Z.mod_pos_bound b (2 ^ s) Hp) as Rb.
    set (qa := a / 2 ^ s) in *. set (qb := b / 2 ^ s) in *.
    set (ra := a mod 2 ^ s) in *. set (rb := b mod 2 ^ s) in *.
    set (h := 2 ^ (s - 1)) in *.
    destruct (Z.eq_dec qa qb) as [Eq | Nq].
    + rewrite <- Eq in *.
      assert (Hr : ra <= rb) by nia.
      destruct (Z.ltb_spec h ra), (Z.eqb_spec ra h), (Z.ltb_spec h rb), (Z.eqb_spec rb h),
        (Z.odd qa); cbn [orb andb]; nia.
    + assert (qa + 1 <= qb) by lia.
      destruct ((h <? ra) || _)%bool, ((h <? rb) || _)%bool; nia.
  - pose proof (round53_bounds a Hapos) as [_ Hua].
    pose proof (round53_bounds b Hbpos) as [Hlb _].
    assert (2 ^ (Z.log2 a + 1) <= 2 ^ Z.log2 b).
    { apply Z.pow_le_mono_r; lia. }
    lia.
Qed.

Lemma Math_round_monotone m1 m2 sc : 0 <= sc -> m1 <= m2 ->
  Math_round (mk m1 sc) <= Math_round (mk m2 sc).
Proof.
  intros Hsc H. unfold Math_round. cbn [mant scale].
  assert (0 < 2 ^ sc) by (apply Z.pow_pos_nonneg; lia).
  apply Z.div_le_mono; lia.
Qed.

Lemma round53_exact_scaled n sc :
  0 <= n < 2 ^ 53 -> 52 <= sc -> round53 (n * 2 ^ sc) = n * 2 ^ sc.
Proof.
  intros [Hn Hlt] Hsc.
  destruct (Z.eq_dec n 0) as [-> | Hne]; [reflexivity |].
  assert (Hpos : 0 < n) by lia.
  assert (Hp : 0 < 2 ^ sc) by (apply Z.pow_pos_nonneg; lia).
  unfold round53. rewrite bits_log2 by nia.
  rewrite Z.log2_mul_pow2 by lia.
  destruct (Z.leb_spec (sc + Z.log2 n + 1 - 53) 0) as [Hs | Hs]; [reflexivity |].
  set (s := sc + Z.log2 n + 1 - 53) in *.
  assert (Hlog : Z.log2 n < 53) by (apply Z.log2_lt_pow2; lia).
  assert (Hsplit : 2 ^ sc = 2 ^ (sc - s) * 2 ^ s).
  { rewrite <- Z.pow_add_r by lia. f_equal. lia. }
  assert (Hps : 0 < 2 ^ s) by (apply Z.pow_pos_nonneg; lia).
  assert (Hmod : (n * 2 ^ sc) mod 2 ^ s = 0).
  { rewrite Hsplit, Z.mul_assoc. apply Z.mod_mul. lia. }
  assert (Hh : 0 < 2 ^ (s - 1)) by (apply Z.pow_pos_nonneg; lia).
  rewrite Hmod.
  destruct (Z.ltb_spec (2 ^ (s - 1)) 0); [lia |].
  destruct (Z.eqb_spec 0 (2 ^ (s - 1))); [lia |].
  cbn [orb andb].
  rewrite Hsplit at 1. rewrite Z.mul_assoc, Z.div_mul by lia.
  rewrite <- Z.mul_assoc, <- Hsplit. reflexivity.
Qed.

Lemma scale_by_one n : 0 <= n < 2 ^ 53 -> Math_round (mul_int n d1_0) = n.
Proof.
  intros Hn. unfold mul_int, d1_0. cbn [mant scale].
  change 4503599627370496 with (2 ^ 52).
  rewrite round53_exact_scaled by lia.
  unfold Math_round. cbn [mant scale].
  replace (2 * (n * 2 ^ 52) + 2 ^ 52) with (1 * 2 ^ 52 + n * (2 * 2 ^ 52)) by lia.
  rewrite Z.div_add by lia. reflexivity.
Qed.

End DoubleFacts.

(** ** UniversalTokenCounter: unknown models, determinism, monotonicity *)

Section TokenCounterFacts.

Import UniversalTokenCounter.

Lemma initialize_database tk u :
  initialize tk = Ok u -> modelDatabase u = loadModelDatabase.
Proof.
  unfold initialize. destruct (loadOpenAIEncoders tk) as [encs |]; cbn [bind].
  - intros [= <-]. reflexivity.
  - discriminate.
Qed.

Lemma JsMap_get_In {V : Type} (k : jsstring) (m : JsMap.t V) (v : V) :
  JsMap.get k m = Some v -> exists k', In (k', v) m.
Proof.
  induction m as [| [k' v'] m IH]; cbn [JsMap.get]; [discriminate |].
  destruct (str_eqb k k').
  - intros [= ->]. exists k'. now left.
  - intros H. destruct (IH H) as [k'' Hin]. exists k''. now right.
Qed.

Lemma database_ratios :
  forallb (fun entry => ratioWellFormed (snd entry)) loadModelDatabase = true.
Proof. vm_compute. reflexivity. Qed.

Lemma database_ratio_wellFormed model spec :
  JsMap.get model loadModelDatabase = Some spec -> ratioWellFormed spec = true.
Proof.
  intros H. apply JsMap_get_In in H. destruct H as [k Hin].
  pose proof database_ratios as Hall. rewrite forallb_forall in Hall.
  apply (Hall (k, spec) Hin).
Qed.

Lemma scaleTokens_monotone spec b1 b2 :
  ratioWellFormed spec = true -> 0 <= b1 <= b2 ->
  scaleTokens b1 spec <= scaleTokens b2 spec.
Proof.
  unfold ratioWellFormed, scaleTokens. intros Hwf Hb.
  assert (Hgen : forall r, 0 <= Dbl.mant r -> 0 <= Dbl.scale r ->
                           Dbl.Math_round (Dbl.mul_int b1 r)
                           <= Dbl.Math_round (Dbl.mul_int b2 r)).
  { intros r Hm Hs. unfold Dbl.mul_int. apply Math_round_monotone; [exact Hs |].
    apply round53_monotone. nia. }
  destruct (approximationRatio spec) as [r |].
  - apply andb_true_iff in Hwf. destruct Hwf as [Hm Hs].
    apply Z.leb_le in Hm, Hs. apply Hgen; assumption.
  - apply Hgen; cbn; lia.
Qed.

(** What [countTokens] returns when the encoder of the model returns. *)
Lemma countTokens_encoded u text model toks :
  truthy text = true -> encoderFor u model text = Ok toks ->
  countTokens (Ok u) text model
  = Ok match JsMap.get (normalizeModelName model) (modelDatabase u) with
       | Some modelSpec =>
           if hasEncoder modelSpec then len toks else scaleTokens (len toks) modelSpec
       | None => len toks
       end.
Proof.
  intros Htext. unfold encoderFor, countTokens. cbn [bind]. rewrite Htext. cbn [negb].
  destruct (JsMap.get (normalizeModelName model) (modelDatabase u)) as [spec |].
  - destruct (hasEncoder spec); intros ->; reflexivity.
  - intros H. unfold fallbackTokenCount. rewrite H. reflexivity.
Qed.

(** C8, as amended. [countTokens] is a function of the text, the model and
    the initialised counter, which it does not change; and for a fixed model
    it is monotonic in the number of tokens the model's encoder yields: a
    text with no more tokens than another gets no greater a count.  The
    length of the text plays no part. *)
Theorem countTokens_deterministic_monotone_in_tokens :
  forall tk u model a b ta tb,
    initialize tk = Ok u ->
    truthy a = true -> truthy b = true ->
    encoderFor u model a = Ok ta -> encoderFor u model b = Ok tb ->
    len ta <= len tb ->
    exists na nb,
      countTokens (initialize tk) a model = Ok na
      /\ countTokens (initialize tk) b model = Ok nb
      /\ na <= nb
      /\ (forall r r', countTokens (initialize tk) a model = r ->
                       countTokens (initialize tk) a model = r' -> r = r').
Proof.
  intros tk u model a b ta tb Hinit Ha Hb Hta Htb Hle.
  rewrite Hinit.
  rewrite (countTokens_encoded u a model ta Ha Hta).
  rewrite (countTokens_encoded u b model tb Hb Htb).
  do 2 eexists. split; [reflexivity |]. split; [reflexivity |]. split.
  - destruct (JsMap.get (normalizeModelName model) (modelDatabase u)) as [spec |] eqn:E;
      [| exact Hle].
    destruct (hasEncoder spec); [exact Hle |].
    apply scaleTokens_monotone.
    + rewrite (initialize_database tk u Hinit) in E.
      apply (database_ratio_wellFormed _ _ E).
    + pose proof (len_nonneg ta). lia.
  - intros r r' <- <-. reflexivity.
Qed.

Lemma countTokens_monotone_in_tokens_example :
  exists na nb,
    countTokens (initialize (Samples.tiktokenOf Samples.wordEncoder))
      (str "tokenization") (str "claude-3-opus") = Ok na
    /\ countTokens (initialize (Samples.tiktokenOf Samples.wordEncoder))
         (str "a b c d") (str "claude-3-opus") = Ok nb
    /\ na <= nb
    /\ (forall r r',
           countTokens (initialize (Samples.tiktokenOf Samples.wordEncoder))
             (str "tokenization") (str "claude-3-opus") = r ->
           countTokens (initialize (Samples.tiktokenOf Samples.wordEncoder))
             (str "tokenization") (str "claude-3-opus") = r' -> r = r').
Proof.
  eapply (countTokens_deterministic_monotone_in_tokens
            (Samples.tiktokenOf Samples.wordEncoder) _
            (str "claude-3-opus") (str "tokenization") (str "a b c d")
            [12%N] [1%N; 1%N; 1%N; 1%N]).
  - vm_compute. reflexivity.
  - reflexivity.
  - reflexivity.
  - vm_compute. reflexivity.
  - vm_compute. reflexivity.
  - vm_compute. discriminate.
Defined.

(** C8 as stated fails: with one token per word, the longer of two texts
    has the smaller count. *)
Lemma countTokens_not_monotone_in_length :
  len (str "a b c d") < len (str "tokenization")
  /\ countTokens (initialize (Samples.tiktokenOf Samples.wordEncoder))
       (str "a b c d") Samples.gpt4 = Ok 4
  /\ countTokens (initialize (Samples.tiktokenOf Samples.wordEncoder))
       (str "tokenization") Samples.gpt4 = Ok 1.
Proof. vm_compute. repeat split; reflexivity. Qed.

End TokenCounterFacts.

(** ** DocumentChunker: the token budget of a chunk *)

Section BudgetFacts.

Import DocumentChunker.

(** Rounding moves a number of less than 68 bits by at most [2^14]. *)
Lemma round53_upper n : 0 < n < 2 ^ 68 -> Dbl.round53 n <= n + 2 ^ 14.
Proof.
  intros [Hpos Hlt]. unfold Dbl.round53. rewrite (bits_log2 n Hpos).
  destruct (Z.leb_spec (Z.log2 n + 1 - 53) 0) as [Hs | Hs]; [lia |].
  set (s := Z.log2 n + 1 - 53) in *.
  assert (Hlog : Z.log2 n < 68) by (apply Z.log2_lt_pow2; lia).
  assert (Hp : 0 < 2 ^ s) by (apply Z.pow_pos_nonneg; lia).
  assert (Hh : 2 ^ s = 2 * 2 ^ (s - 1)).
  { rewrite <- (Z.pow_succ_r 2 (s - 1)) by lia. f_equal. lia. }
  assert (Hsmall : 2 ^ (s - 1) <= 2 ^ 14) by (apply Z.pow_le_mono_r; lia).
  pose proof (Z.div_mod n (2 ^ s) ltac:(lia)) as Dn.
  pose proof (Z.mod_pos_bound n (2 ^ s) Hp) as Rn.
  set (q := n / 2 ^ s) in *. set (r := n mod 2 ^ s) in *. set (h := 2 ^ (s - 1)) in *.
  set (P := 2 ^ s) in *.
  destruct (Z.ltb_spec h r), (Z.eqb_spec r h), (Z.odd q); cbn [orb andb]; nia.
Qed.

(** [maxTokens * 1.1], rounded down, is [11 * maxTokens / 10] for every
    budget [validateInput] lets through. *)
Lemma budget_floor m :
  100 <= m <= 32000 -> Dbl.mant (Dbl.mul_int m Dbl.d1_1) / 2 ^ 52 = 11 * m / 10.
Proof.
  intros Hm. cbn [Dbl.mul_int Dbl.mant Dbl.d1_1].
  set (q := 11 * m / 10).
  pose proof (Z.mul_div_le (11 * m) 10 ltac:(lia)) as Hq1.
  pose proof (Z.mul_succ_div_gt (11 * m) 10 ltac:(lia)) as Hq2.
  fold q in Hq1, Hq2.
  assert (Hpow : 2 ^ 52 = 4503599627370496) by reflexivity.
  assert (Hlow : q * 2 ^ 52 <= Dbl.round53 (m * 4953959590107546)).
  { rewrite <- (round53_exact_scaled q 52) by lia.
    apply round53_monotone. lia. }
  assert (Hup : Dbl.round53 (m * 4953959590107546) <= m * 4953959590107546 + 2 ^ 14).
  { apply round53_upper.
    assert (2 ^ 68 = 295147905179352825856) by reflexivity. lia. }
  assert (H14 : 2 ^ 14 = 16384) by reflexivity.
  symmetry. apply (Z.div_unique _ _ q (Dbl.round53 (m * 4953959590107546) - q * 2 ^ 52)); lia.
Qed.

Lemma withinBudget_inBudget m c :
  100 <= m <= 32000 -> withinBudget m c = true -> inBudget m c.
Proof.
  intros Hm. unfold withinBudget, inBudget.
  destruct (tokenCount c) as [n |]; [| discriminate].
  intros H. apply andb_true_iff in H. destruct H as [Hpos Hle].
  apply Z.ltb_lt in Hpos. unfold Dbl.int_leb in Hle. apply Z.leb_le in Hle.
  exists n. split; [reflexivity |]. split; [lia |].
  cbn [Dbl.scale Dbl.mul_int Dbl.d1_1] in Hle.
  assert (Hn : n <= Dbl.mant (Dbl.mul_int m Dbl.d1_1) / 2 ^ 52).
  { apply Z.div_le_lower_bound; [apply Z.pow_pos_nonneg; lia | lia]. }
  rewrite (budget_floor m Hm) in Hn.
  pose proof (Z.mul_div_le (11 * m) 10 ltac:(lia)). lia.
Qed.

Lemma validChunksOf_inBudget raw m :
  100 <= m <= 32000 -> Forall (inBudget m) (validChunksOf raw m).
Proof.
  intros Hm. unfold validChunksOf. apply Forall_forall. intros c Hc.
  apply filter_In in Hc. destruct Hc as [_ Hc]. apply (withinBudget_inBudget m c Hm Hc).
Qed.

(** What the final filter leaves: chunks with a token count of at least 1
    and at most [maxTokens * 1.1], or, when it turned every chunk down, the
    one chunk [validateChunks] keeps as its best effort. *)
Lemma chunk_token_bounds_outside_best_effort :
  forall race tc content maxTokens model chunks,
    chunkDocument race tc content maxTokens model = Ok chunks ->
    exists m raw,
      maxTokens = MaxInt m /\ 100 <= m <= 32000
      /\ performChunking tc content m model = Ok raw
      /\ (Forall (inBudget m) chunks
          \/ (exists best,
                 validChunksOf raw m = [] /\ findBest raw = Some best /\ chunks = [best])).
Proof.
  intros race tc content maxTokens model chunks H.
  apply chunkDocument_Ok in H. destruct H as (m & raw & Hvalid & _ & Hraw & ->).
  apply validateInput_range in Hvalid. destruct Hvalid as [-> Hm].
  exists m, raw. split; [reflexivity |]. split; [exact Hm |]. split; [exact Hraw |].
  unfold validateChunks.
  assert (Hslice : Forall (inBudget m) (slice0 MAX_CHUNK_COUNT (validChunksOf raw m))).
  { apply take_Forall, validChunksOf_inBudget, Hm. }
  destruct (Z.eqb_spec (len (validChunksOf raw m)) 0) as [Hempty |]; cbn [andb];
    [| left; exact Hslice].
  destruct (0 <? len raw); [| left; exact Hslice].
  destruct (findBest raw) as [best |] eqn:Hbest; [| left; exact Hslice].
  right. exists best. split; [apply len_zero_nil, Hempty |]. split; reflexivity.
Qed.

End BudgetFacts.

(** ** DocumentChunker: the overlap between chunks *)

Section OverlapFacts.

Import DocumentChunker.

Variable tc : TokenCounterApi.
Variable model : jsstring.

Lemma tokensOfSentences_app l1 l2 :
  tokensOfSentences tc model (l1 ++ l2)
  = tokensOfSentences tc model l1 + tokensOfSentences tc model l2.
Proof. induction l1 as [| s l1 IH]; cbn [tokensOfSentences app]; lia. Qed.

Lemma join_truthy sep l :
  l <> [] -> Forall (fun s => truthy s = true) l -> truthy (join sep l) = true.
Proof.
  destruct l as [| x r]; [congruence |]. intros _ H. inversion H as [| ? ? Hx Hr]; subst.
  destruct x as [| c x]; [discriminate |].
  cbn [join]. destruct r; reflexivity.
Qed.

Lemma join_snoc sep l s :
  Forall (fun s => truthy s = true) l ->
  (if truthy (join sep l) then join sep l ++ sep else []) ++ s = join sep (l ++ [s]).
Proof.
  induction l as [| x r IH]; intros H; [reflexivity |].
  inversion H as [| ? ? Hx Hr]; subst.
  rewrite (join_truthy sep (x :: r)) by (congruence || assumption).
  specialize (IH Hr).
  destruct r as [| y r'].
  - cbn [join app]. rewrite <- app_assoc. reflexivity.
  - rewrite (join_truthy sep (y :: r')) in IH by (congruence || assumption).
    change (join sep (x :: y :: r')) with (x ++ sep ++ join sep (y :: r')).
    change ((x :: y :: r') ++ [s]) with (x :: ((y :: r') ++ [s])).
    cbn [app] in *. cbn [join]. 
    change (match r' ++ [s] with [] => y | _ :: _ => y ++ sep ++ join sep (r' ++ [s]) end)
      with (join sep (y :: r' ++ [s])).
    rewrite <- IH. rewrite <- !app_assoc. reflexivity.
Qed.

(** What [gatherSentences] returns: the sentences it took are the first of
    the non-empty ones, joined by single spaces, and their tokens stay
    within [overlapTokens]. *)
Lemma gatherSentences_spec sentences :
  forall taken gathered,
    Forall (fun s => truthy s = true) taken ->
    tokensOfSentences tc model taken <= overlapTokens ->
    gatherSentences tc model sentences (join (str " ") taken) (tokensOfSentences tc model taken)
    = Ok gathered ->
    exists more rest,
      filter truthy sentences = more ++ rest
      /\ gathered = join (str " ") (taken ++ more)
      /\ Forall (fun s => truthy s = true) (taken ++ more)
      /\ tokensOfSentences tc model (taken ++ more) <= overlapTokens.
Proof.
  induction sentences as [| s r IH]; intros taken gathered Htaken Hsum; cbn [gatherSentences].
  - intros [= <-]. exists [], []. rewrite !app_nil_r.
    split; [reflexivity |]. split; [reflexivity |]. split; assumption.
  - destruct (truthy s) eqn:Hs; cbn [negb filter]; rewrite ?Hs.
    + destruct (countTokens tc s model) as [n |] eqn:Hn; cbn [bind]; [| discriminate].
      destruct (Z.leb_spec (tokensOfSentences tc model taken + n) overlapTokens) as [Hfit | Hover].
      * rewrite (join_snoc (str " ") taken s Htaken).
        assert (Hsum' : tokensOfSentences tc model (taken ++ [s])
                        = tokensOfSentences tc model taken + n).
        { rewrite tokensOfSentences_app. cbn [tokensOfSentences]. rewrite Hn. lia. }
        rewrite <- Hsum'. intros H.
        apply IH in H.
        -- destruct H as (more & rest & Hsplit & Hg & Hall & Hle).
           exists (s :: more), rest. rewrite <- app_assoc in Hg, Hall, Hle.
           cbn [app] in *. rewrite Hsplit.
           split; [reflexivity |]. split; [exact Hg |]. split; assumption.
        -- apply Forall_app. split; [exact Htaken | constructor; [exact Hs | constructor]].
        -- lia.
      * intros [= <-]. exists [], (s :: filter truthy r). rewrite !app_nil_r.
        split; [reflexivity |]. split; [reflexivity |]. split; assumption.
    + intros H. apply IH in H; assumption.
Qed.

Lemma getContextStartSecure_spec text :
  exists carried rest,
    filter truthy (take 3 (splitIntoSentencesSecure text)) = carried ++ rest
    /\ getContextStartSecure tc text model = join (str " ") carried
    /\ tokensOfSentences tc model carried <= overlapTokens.
Proof.
  unfold getContextStartSecure.
  assert (Hnone : exists carried rest,
             filter truthy (take 3 (splitIntoSentencesSecure text)) = carried ++ rest
             /\ [] = join (str " ") carried
             /\ tokensOfSentences tc model carried <= overlapTokens).
  { exists [], (filter truthy (take 3 (splitIntoSentencesSecure text))).
    split; [reflexivity |]. split; [reflexivity |]. cbn. unfold overlapTokens. lia. }
  destruct (truthy text); cbn [negb]; [| exact Hnone].
  destruct (gatherSentences tc model (take 3 (splitIntoSentencesSecure text)) [] 0)
    as [context |] eqn:E; [| exact Hnone].
  apply (gatherSentences_spec _ [] context) in E.
  - destruct E as (more & rest & Hsplit & Hg & _ & Hle). exists more, rest. auto.
  - constructor.
  - cbn. unfold overlapTokens. lia.
Qed.

Lemma addOverlapSecure_spec currentChunk previousSection :
  exists trailing rest,
    filter truthy (drop (Z.max 0 (len (splitIntoSentencesSecure previousSection) - 5))
                        (splitIntoSentencesSecure previousSection))
    = trailing ++ rest
    /\ addOverlapSecure tc currentChunk previousSection model
       = (if truthy (join (str " ") trailing)
          then join (str " ") trailing ++ paragraphBreak ++ currentChunk
          else currentChunk)
    /\ tokensOfSentences tc model trailing <= overlapTokens.
Proof.
  unfold addOverlapSecure.
  set (S := splitIntoSentencesSecure previousSection).
  assert (Hnone : exists trailing rest,
             filter truthy (drop (Z.max 0 (len S - 5)) S) = trailing ++ rest
             /\ currentChunk
                = (if truthy (join (str " ") trailing)
                   then join (str " ") trailing ++ paragraphBreak ++ currentChunk
                   else currentChunk)
             /\ tokensOfSentences tc model trailing <= overlapTokens).
  { exists [], (filter truthy (drop (Z.max 0 (len S - 5)) S)).
    split; [reflexivity |]. split; [reflexivity |]. cbn. unfold overlapTokens. lia. }
  destruct (negb (truthy previousSection) || (overlapTokens <=? 0))%bool; [exact Hnone |].
  destruct (gatherSentences tc model (drop (Z.max 0 (len S - 5)) S) [] 0)
    as [overlap |] eqn:E; [| exact Hnone].
  apply (gatherSentences_spec _ [] overlap) in E.
  - destruct E as (more & rest & Hsplit & Hg & _ & Hle). exists more, rest.
    cbn [app] in Hg. subst overlap. auto.
  - constructor.
  - cbn. unfold overlapTokens. lia.
Qed.

(** C5, as amended. When a section that fits the budget on its own would
    overflow the chunk being packed, the loop closes that chunk and starts
    the next one with whole sentences of the chunk just closed, followed by
    a blank line and the section: the sentences are the first of its first
    three, their token counts summing to at most [overlapTokens].  The chunk
    just closed is itself emitted with whole sentences in front of it: the
    first of the last five of the section before, within [overlapTokens]. *)
Theorem overflow_closes_and_carries_context :
  forall m previousSection section st step,
    countOrEstimate tc section model <= m ->
    m < currentTokens st + countOrEstimate tc section model ->
    truthy (trim (currentChunk st)) = true ->
    packSection tc m model previousSection section st = Ok step ->
    exists carried trailing,
      (exists rest,
          filter truthy (take 3 (splitIntoSentencesSecure (currentChunk st)))
          = carried ++ rest)
      /\ tokensOfSentences tc model carried <= overlapTokens
      /\ currentChunk (stateOf step)
         = join (str " ") carried
           ++ (if truthy (join (str " ") carried) then paragraphBreak else [])
           ++ section
      /\ (exists rest,
             filter truthy
               (drop (Z.max 0 (len (splitIntoSentencesSecure previousSection) - 5))
                     (splitIntoSentencesSecure previousSection))
             = trailing ++ rest)
      /\ tokensOfSentences tc model trailing <= overlapTokens
      /\ chunks (stateOf step)
         = chunks st
           ++ [createChunkSecure
                 (if truthy (join (str " ") trailing)
                  then join (str " ") trailing ++ paragraphBreak ++ currentChunk st
                  else currentChunk st)
                 (Counted (currentTokens st)) (chunkIndex st)].
Proof.
  intros m previousSection section st step Hfit Hover Htext.
  unfold packSection.
  destruct (Z.ltb_spec m (countOrEstimate tc section model)) as [Hbig |_]; [lia |].
  destruct (Z.ltb_spec m (currentTokens st + countOrEstimate tc section model))
    as [_ | Hno]; [| lia].
  rewrite Htext. cbn [andb].
  destruct (getContextStartSecure_spec (currentChunk st))
    as (carried & rest1 & Hc1 & Hc2 & Hc3).
  destruct (addOverlapSecure_spec (currentChunk st) previousSection)
    as (trailing & rest2 & Ht1 & Ht2 & Ht3).
  rewrite Hc2, Ht2.
  match goal with
  | |- context [countTokens tc ?s model] => destruct (countTokens tc s model) as [k |]
  end; cbn [bind]; [| discriminate].
  intros H. exists carried, trailing.
  assert (Hst : exists st', stateOf step = st'
                  /\ currentChunk st' = join (str " ") carried
                       ++ (if truthy (join (str " ") carried) then paragraphBreak else [])
                       ++ section
                  /\ chunks st' = chunks st
                       ++ [createChunkSecure
                             (if truthy (join (str " ") trailing)
                              then join (str " ") trailing ++ paragraphBreak ++ currentChunk st
                              else currentChunk st)
                             (Counted (currentTokens st)) (chunkIndex st)]).
  { destruct (MAX_CHUNK_COUNT - 10 <? _); injection H as <-; eexists;
      (split; [reflexivity |]); split; reflexivity. }
  destruct Hst as (st' & -> & Hcur & Hchunks).
  split; [eauto |]. split; [exact Hc3 |]. split; [exact Hcur |].
  split; [eauto |]. split; [exact Ht3 | exact Hchunks].
Qed.

End OverlapFacts.


Section OverlapExamples.

Import DocumentChunker.

Lemma overflow_example :
  packSection Samples.unitCounter 100 Samples.gpt4 Samples.alphaToDelta Samples.closing
    Samples.afterAlpha = Ok Samples.afterClosing
  /\ exists carried trailing,
      (exists rest,
          filter truthy (take 3 (splitIntoSentencesSecure (currentChunk Samples.afterAlpha)))
          = carried ++ rest)
      /\ tokensOfSentences Samples.unitCounter Samples.gpt4 carried <= overlapTokens
      /\ currentChunk (stateOf Samples.afterClosing)
         = join (str " ") carried
           ++ (if truthy (join (str " ") carried) then paragraphBreak else [])
           ++ Samples.closing
      /\ (exists rest,
             filter truthy
               (drop (Z.max 0 (len (splitIntoSentencesSecure Samples.alphaToDelta) - 5))
                     (splitIntoSentencesSecure Samples.alphaToDelta))
             = trailing ++ rest)
      /\ tokensOfSentences Samples.unitCounter Samples.gpt4 trailing <= overlapTokens
      /\ chunks (stateOf Samples.afterClosing)
         = chunks Samples.afterAlpha
           ++ [createChunkSecure
                 (if truthy (join (str " ") trailing)
                  then join (str " ") trailing ++ paragraphBreak
                       ++ currentChunk Samples.afterAlpha
                  else currentChunk Samples.afterAlpha)
                 (Counted (currentTokens Samples.afterAlpha))
                 (chunkIndex Samples.afterAlpha)].
Proof.
  split; [vm_compute; reflexivity |].
  apply (overflow_closes_and_carries_context Samples.unitCounter Samples.gpt4
           100 Samples.alphaToDelta Samples.closing Samples.afterAlpha
           Samples.afterClosing).
  - vm_compute. discriminate.
  - vm_compute. reflexivity.
  - vm_compute. reflexivity.
  - vm_compute. reflexivity.
Defined.

Lemma suffix_is_skipn {A : Type} (l before after : list A) :
  l = before ++ after -> skipn (length l - length after) l = after.
Proof.
  intros ->. rewrite length_app.
  replace (length before + length after - length after)%nat with (length before) by lia.
  rewrite skipn_app, skipn_all, Nat.sub_diag. reflexivity.
Qed.

(** C5 as stated fails.  Two paragraphs of 77 and 31 tokens, with a budget
    of 100: the second paragraph closes the first chunk.  The chunk that
    follows starts with the first three sentences of the closed chunk, not
    with its end; and the closed chunk, the first of the document, carries
    its own paragraph in front of it. *)
Lemma overlap_is_taken_from_the_start :
  exists c1 c2,
    chunkDocument OperationFirst Samples.unitCounter
      (Samples.alphaToDelta ++ paragraphBreak ++ Samples.closing) (MaxInt 100) Samples.gpt4
    = Ok [c1; c2]
    /\ text c1 = Samples.alphaToDelta ++ paragraphBreak ++ Samples.alphaToDelta
    /\ text c2 = Samples.alphaToGamma ++ paragraphBreak ++ Samples.closing
    /\ ~ (exists overlap before,
             Samples.alphaToDelta = before ++ overlap
             /\ text c2 = overlap ++ paragraphBreak ++ Samples.closing).
Proof.
  do 2 eexists. split; [vm_compute; reflexivity |].
  split; [reflexivity |]. split; [reflexivity |].
  intros (overlap & before & Hend & Hnext).
  cbn [text] in Hnext.
  assert (Ho : overlap = Samples.alphaToGamma).
  { apply (app_inv_tail (paragraphBreak ++ Samples.closing)). symmetry. exact Hnext. }
  subst overlap. apply suffix_is_skipn in Hend. vm_compute in Hend. discriminate Hend.
Qed.

End OverlapExamples.

(** ** DocumentChunker: what a chunk holds of the text *)

Section TrimFacts.

Context {A : Type} (p : A -> bool).

Lemma dropWhile_len_le (l : list A) : len (dropWhile p l) <= len l.
Proof.
  induction l as [| a l IH]; cbn [dropWhile]; [lia |].
  destruct (p a); rewrite ?len_cons; lia.
Qed.

Lemma dropWhile_head (l : list A) c r : dropWhile p l = c :: r -> p c = false.
Proof.
  induction l as [| a l IH]; cbn [dropWhile]; [discriminate |].
  destruct (p a) eqn:E; [exact IH |]. intros [= <- _]. exact E.
Qed.

Lemma dropWhile_nil (l : list A) : dropWhile p l = [] -> forallb p l = true.
Proof.
  induction l as [| a l IH]; cbn [dropWhile forallb]; [reflexivity |].
  destruct (p a); [exact IH | discriminate].
Qed.

Lemma dropWhile_idem (l : list A) : dropWhile p (dropWhile p l) = dropWhile p l.
Proof.
  induction l as [| a l IH]; cbn [dropWhile]; [reflexivity |].
  destruct (p a) eqn:E; [exact IH |]. cbn [dropWhile]. rewrite E. reflexivity.
Qed.

Lemma dropWhile_snoc (l : list A) c :
  p c = false -> dropWhile p (l ++ [c]) = dropWhile p l ++ [c].
Proof.
  intros Hc. induction l as [| a l IH]; cbn [dropWhile app].
  - rewrite Hc. reflexivity.
  - destruct (p a); [exact IH | reflexivity].
Qed.

End TrimFacts.

Lemma trim_shape s :
  trim s = [] /\ forallb isSpace s = true
  \/ exists c v, trim s = c :: v /\ isSpace c = false
                 /\ rev (c :: v) = dropWhile isSpace (rev (c :: v)).
Proof.
  unfold trim, trimEnd, trimStart.
  destruct (dropWhile isSpace s) as [| c t] eqn:E.
  - left. split; [reflexivity | apply dropWhile_nil, E].
  - right. pose proof (dropWhile_head isSpace s c t E) as Hc.
    cbn [rev]. rewrite (dropWhile_snoc isSpace (rev t) c Hc).
    rewrite rev_app_distr. cbn [rev app].
    exists c, (rev (dropWhile isSpace (rev t))). split; [reflexivity |].
    split; [exact Hc |].
    cbn [rev]. rewrite rev_involutive.
    rewrite (dropWhile_snoc isSpace _ c Hc), dropWhile_idem. reflexivity.
Qed.

Lemma trim_idempotent s : trim (trim s) = trim s.
Proof.
  destruct (trim_shape s) as [[-> _] | (c & v & -> & Hc & Hrev)]; [reflexivity |].
  unfold trim, trimEnd, trimStart. cbn [dropWhile]. rewrite Hc.
  rewrite <- Hrev. apply rev_involutive.
Qed.

Lemma trim_len_le s : len (trim s) <= len s.
Proof.
  unfold trim, trimEnd, trimStart, len. rewrite length_rev.
  pose proof (dropWhile_len_le isSpace (rev (dropWhile isSpace s))) as H1.
  pose proof (dropWhile_len_le isSpace s) as H2.
  unfold len in *. rewrite length_rev in H1. lia.
Qed.

Lemma startsTight_dropWhile s : startsTight s -> dropWhile isSpace s = s.
Proof. destruct s as [| c r]; cbn; [tauto |]. intros ->. reflexivity. Qed.

Lemma startsTight_app s r : startsTight s -> startsTight (s ++ r).
Proof. destruct s; cbn; tauto. Qed.

Lemma tight_trim s : tight s -> trim s = s.
Proof.
  intros [Hs He]. unfold trim, trimEnd, trimStart.
  rewrite (startsTight_dropWhile s Hs), (startsTight_dropWhile (rev s) He).
  apply rev_involutive.
Qed.

Lemma trim_tight s : truthy (trim s) = true -> tight (trim s).
Proof.
  destruct (trim_shape s) as [[-> _] | (c & v & E & Hc & Hrev)]; [discriminate |].
  intros _. rewrite E. split; [exact Hc |].
  destruct (rev (c :: v)) as [| d w] eqn:Er.
  - apply (f_equal (@length N)) in Er. rewrite length_rev in Er. discriminate.
  - cbn. symmetry in Hrev. apply (dropWhile_head isSpace _ d w Hrev).
Qed.

Lemma join_tight sep l :
  l <> [] -> Forall tight l -> tight (join sep l).
Proof.
  induction l as [| x r IH]; [congruence |]. intros _ H.
  inversion H as [| ? ? [Hxs Hxe] Hr]; subst.
  destruct r as [| y r']; [split; assumption |].
  change (join sep (x :: y :: r')) with (x ++ sep ++ join sep (y :: r')).
  destruct (IH ltac:(congruence) Hr) as [_ He]. split.
  - apply startsTight_app, Hxs.
  - rewrite !rev_app_distr, <- app_assoc. apply startsTight_app, He.
Qed.

Section SectionsAreTight.

Import DocumentChunker.

Lemma longParagraphLoop_trimmed maxLength sentences :
  forall sections currentSection out,
    Forall trimmed sections ->
    In out (fst (longParagraphLoop maxLength sentences sections currentSection)) ->
    trimmed out.
Proof.
  induction sentences as [| s r IH]; intros sections cur out Hacc; cbn [longParagraphLoop].
  - cbn [fst]. rewrite Forall_forall in Hacc. apply Hacc.
  - destruct ((maxLength <? len cur + len s) && truthy cur)%bool.
    + assert (Hacc' : Forall trimmed (sections ++ [trim cur])).
      { apply Forall_app. split; [exact Hacc |]. constructor; [now exists cur | constructor]. }
      destruct (50 <? len (sections ++ [trim cur])).
      * cbn [fst]. rewrite Forall_forall in Hacc'. apply Hacc'.
      * apply IH, Hacc'.
    + destruct (50 <? len sections).
      * cbn [fst]. rewrite Forall_forall in Hacc. apply Hacc.
      * apply IH, Hacc.
Qed.

Lemma splitLongParagraphSecure_trimmed paragraph maxLength :
  Forall trimmed (splitLongParagraphSecure paragraph maxLength).
Proof.
  unfold splitLongParagraphSecure.
  pose proof (longParagraphLoop_trimmed maxLength (splitIntoSentencesSecure paragraph)
                [] []) as H.
  destruct (longParagraphLoop maxLength (splitIntoSentencesSecure paragraph) [] [])
    as [sections cur].
  cbn [fst] in H.
  assert (Hs : Forall trimmed sections).
  { apply Forall_forall. intros out Hout. apply (H out); [constructor | exact Hout]. }
  destruct (truthy cur); [| exact Hs].
  apply Forall_app. split; [exact Hs |]. constructor; [now exists cur | constructor].
Qed.

Lemma refineSections_trimmed sections :
  forall refined, Forall trimmed refined -> Forall trimmed (refineSections sections refined).
Proof.
  induction sections as [| s r IH]; intros refined Hacc; cbn [refineSections]; [exact Hacc |].
  assert (Hacc' : Forall trimmed
                    (if len s <=? 3000 then refined ++ [trim s]
                     else refined ++ splitLongParagraphSecure s 3000)).
  { destruct (len s <=? 3000); apply Forall_app; split; try exact Hacc.
    - constructor; [now exists s | constructor].
    - apply splitLongParagraphSecure_trimmed. }
  destruct (MAX_CHUNK_COUNT * 2 <? _); [exact Hacc' | apply IH, Hacc'].
Qed.

Lemma sections_tight content :
  Forall tight (splitIntoSectionsSecure content).
Proof.
  unfold splitIntoSectionsSecure. apply Forall_forall. intros s Hs.
  apply filter_In in Hs. destruct Hs as [Hin Hkeep].
  apply andb_true_iff in Hkeep. destruct Hkeep as [Hs _].
  pose proof (refineSections_trimmed
                (filter (fun section => 10 <=? len (trim section))
                        (Regex.split Regex.re_blank_line (normalizeContent content)))
                [] (Forall_nil _)) as Hall.
  rewrite Forall_forall in Hall. destruct (Hall s Hin) as [x ->].
  apply trim_tight. exact Hs.
Qed.

End SectionsAreTight.

Section SingleChunk.

Import DocumentChunker.

Variable tc : TokenCounterApi.
Variable model : jsstring.
Variable m : Z.

Lemma joinOnto_join sections :
  forall current,
    truthy current = true ->
    joinOnto current sections = join paragraphBreak (current :: sections).
Proof.
  induction sections as [| s r IH]; intros current Hc; [reflexivity |].
  cbn [joinOnto]. rewrite Hc. rewrite IH.
  - destruct r as [| y r']; cbn [join]; rewrite <- ?app_assoc; reflexivity.
  - destruct current; [discriminate | reflexivity].
Qed.

Lemma joinOnto_empty sections :
  Forall (fun s => truthy s = true) sections ->
  joinOnto [] sections = join paragraphBreak sections.
Proof.
  destruct sections as [| s r]; [reflexivity |]. intros H.
  inversion H as [| ? ? Hs Hr]; subst. cbn [joinOnto truthy app].
  apply joinOnto_join, Hs.
Qed.

Lemma packLoop_fits sections :
  forall previousSection st,
    chunks st = [] ->
    fitsBudget tc model m (currentTokens st) sections = true ->
    packLoop tc m model previousSection sections st
    = Ok {| chunks := [];
            currentChunk := joinOnto (currentChunk st) sections;
            currentTokens := currentTokens st + tokensOfSections tc model sections;
            chunkIndex := chunkIndex st |}.
Proof.
  induction sections as [| s r IH]; intros previousSection st Hchunks Hfit.
  - cbn. rewrite Z.add_0_r, <- Hchunks. destruct st; reflexivity.
  - cbn [fitsBudget] in Hfit. apply andb_true_iff in Hfit. destruct Hfit as [Hfit Hrest].
    apply andb_true_iff in Hfit. destruct Hfit as [Hsmall Hsum].
    apply Z.leb_le in Hsmall, Hsum.
    cbn [packLoop]. unfold packSection.
    destruct (Z.ltb_spec m (countOrEstimate tc s model)); [lia |].
    destruct (Z.ltb_spec m (currentTokens st + countOrEstimate tc s model)); [lia |].
    cbn [andb bind]. rewrite Hchunks. cbn [chunks].
    change (MAX_CHUNK_COUNT - 10 <? len (@nil (option Chunk))) with false.
    cbv iota. cbn [bind]. rewrite IH; [| reflexivity | exact Hrest].
    cbn [currentChunk currentTokens chunkIndex tokensOfSections]. f_equal. f_equal. lia.
Qed.

(** The recursive call of [createChunkSecure] never recurses again: one unit
    of fuel is as good as any. *)
Lemma createChunkSecure_fuel_enough fuel text0 tokens idx :
  createChunkSecure_fuel (S fuel) text0 tokens idx = createChunkSecure text0 tokens idx.
Proof.
  unfold createChunkSecure. cbn [createChunkSecure_fuel].
  destruct (negb (truthy (trim text0))); [reflexivity |].
  destruct (100000 <? len (trim text0)); [| reflexivity].
  set (cut := substring 0 100000 (trim text0)).
  assert (Hcut : len (trim cut) <= 100000).
  { pose proof (trim_len_le cut). unfold cut in *.
    rewrite substring_from_zero in * by lia.
    pose proof (take_len_le (trim text0) 100000 ltac:(lia)). lia. }
  destruct fuel as [| fuel]; [reflexivity |]. cbn [createChunkSecure_fuel].
  destruct (negb (truthy (trim cut))); [reflexivity |].
  destruct (Z.ltb_spec 100000 (len (trim cut))); [lia | reflexivity].
Qed.

Lemma fitsBudget_total sections :
  forall running,
    sections <> [] -> fitsBudget tc model m running sections = true ->
    running + tokensOfSections tc model sections <= m.
Proof.
  induction sections as [| s r IH]; intros running Hne Hfit; [congruence |].
  cbn [fitsBudget] in Hfit. apply andb_true_iff in Hfit. destruct Hfit as [Hfit Hrest].
  apply andb_true_iff in Hfit. destruct Hfit as [_ Hsum]. apply Z.leb_le in Hsum.
  cbn [tokensOfSections]. destruct r as [| y r'].
  - cbn [tokensOfSections]. lia.
  - specialize (IH (running + countOrEstimate tc s model) ltac:(congruence) Hrest). lia.
Qed.

Lemma createChunkSecure_short text0 tokens idx :
  truthy (trim text0) = true -> len (trim text0) <= 100000 ->
  exists c, createChunkSecure text0 tokens idx = Some c
            /\ text c = trim text0 /\ tokenCount c = atLeastOne tokens.
Proof.
  intros Ht Hlen. unfold createChunkSecure. cbn [createChunkSecure_fuel].
  rewrite Ht. cbn [negb].
  destruct (Z.ltb_spec 100000 (len (trim text0))); [lia |].
  eexists. split; [reflexivity |]. split; reflexivity.
Qed.

Lemma withinBudget_counted c n :
  100 <= m <= 32000 -> tokenCount c = Num n -> 1 <= n <= m -> withinBudget m c = true.
Proof.
  intros Hm Hc Hn. unfold withinBudget. rewrite Hc.
  apply andb_true_iff. split; [apply Z.ltb_lt; lia |].
  unfold Dbl.int_leb. apply Z.leb_le. cbn [Dbl.scale Dbl.mul_int Dbl.d1_1 Dbl.mant].
  pose proof (budget_floor m Hm) as Hfloor.
  cbn [Dbl.scale Dbl.mul_int Dbl.d1_1 Dbl.mant] in Hfloor.
  set (x := Dbl.round53 (m * 4953959590107546)) in *.
  assert (Hp : 0 < 2 ^ 52) by (apply Z.pow_pos_nonneg; lia).
  pose proof (Z.mul_div_le x (2 ^ 52) Hp) as Hx.
  pose proof (Z.mul_div_le (11 * m) 10 ltac:(lia)) as H11.
  assert (Hm' : m <= 11 * m / 10).
  { apply Z.div_le_lower_bound; lia. }
  rewrite Hfloor in Hx. nia.
Qed.

(** The case of one chunk: when the sections fit one chunk (none is over
    the budget, their running total never passes it, and joined they hold at
    most 100000 characters), [chunkDocument] returns one chunk, and its text
    is the sections joined by blank lines. *)
Lemma single_chunk_holds_the_sections :
  forall content maxTokens,
    validateInput content maxTokens model = Ok m ->
    splitIntoSectionsSecure content <> [] ->
    fitsBudget tc model m 0 (splitIntoSectionsSecure content) = true ->
    len (join paragraphBreak (splitIntoSectionsSecure content)) <= 100000 ->
    exists c,
      chunkDocument OperationFirst tc content maxTokens model = Ok [c]
      /\ text c = join paragraphBreak (splitIntoSectionsSecure content).
Proof.
  intros content maxTokens Hvalid Hne Hfit Hlen.
  pose proof (validateInput_range content maxTokens model m Hvalid) as [_ Hm].
  pose proof (sections_tight content) as Htight.
  set (sections := splitIntoSectionsSecure content) in *.
  assert (Htruthy : Forall (fun s => truthy s = true) sections).
  { eapply Forall_impl; [| exact Htight]. intros s [Hs _].
    destruct s; [destruct Hs | reflexivity]. }
  pose proof (join_tight paragraphBreak sections Hne Htight) as HJt.
  set (J := join paragraphBreak sections) in *.
  pose proof (tight_trim J HJt) as Htrim.
  assert (HJ : truthy (trim J) = true).
  { rewrite Htrim. destruct HJt as [Hs _]. destruct J; [destruct Hs | reflexivity]. }
  assert (Hraw : performChunking tc content m model
                 = Ok [createChunkSecure J (Counted (tokensOfSections tc model sections)) 1]).
  { unfold performChunking. fold sections.
    rewrite (packLoop_fits sections [] initialPacking eq_refl Hfit).
    cbn [bind currentChunk initialPacking]. rewrite (joinOnto_empty sections Htruthy).
    fold J. rewrite HJ. reflexivity. }
  destruct (createChunkSecure_short J (Counted (tokensOfSections tc model sections)) 1 HJ)
    as (c & Hc & Htext & Hcount).
  { rewrite Htrim. exact Hlen. }
  rewrite Htrim in Htext.
  exists c. split; [| exact Htext].
  unfold chunkDocument. rewrite Hvalid. cbn [bind]. rewrite Hraw. cbn [bind tryCatch].
  f_equal. rewrite Hc. unfold validateChunks, validChunksOf. cbn [notNull filter].
  assert (Hhas : hasText c = true).
  { unfold hasText. rewrite Htext, Htrim. rewrite Htrim in HJ. rewrite HJ. cbn [andb].
    apply Z.ltb_lt, truthy_true_len, HJ. }
  assert (Hin : withinBudget m c = true).
  { apply (withinBudget_counted c (Z.max 1 (tokensOfSections tc model sections)) Hm).
    - rewrite Hcount. reflexivity.
    - pose proof (fitsBudget_total sections 0 Hne Hfit). lia. }
  rewrite Hhas. cbn [filter]. rewrite Hin. reflexivity.
Qed.

End SingleChunk.


(** ** Shapes of chunks, sentences and sections *)

Ltac jlia := unfold jsstring in *; lia.

Lemma len_app {A} (a b : list A) : len (a ++ b) = len a + len b.
Proof. unfold len. rewrite length_app. lia. Qed.

Lemma len_rev {A} (a : list A) : len (rev a) = len a.
Proof. unfold len. rewrite length_rev. reflexivity. Qed.

Section RegexFacts.

Variable m : Regex.Matcher.

Lemma split_from_len s :
  forall prev skip cur,
    Forall (fun p => len p <= len cur + len s) (Regex.split_from m prev skip cur s).
Proof.
  induction s as [| c r IH]; intros prev skip cur; cbn [Regex.split_from].
  - constructor; [rewrite len_rev, len_nil; lia | constructor].
  - rewrite len_cons. destruct skip as [| k].
    + destruct (m prev (c :: r)) as [[| k] |].
      * eapply Forall_impl; [| apply (IH (Some c) O (c :: cur))].
        cbn beta. intros p Hp. rewrite len_cons in Hp. lia.
      * constructor; [rewrite len_rev; pose proof (len_nonneg r); lia |].
        eapply Forall_impl; [| apply (IH (Some c) k [])].
        cbn beta. intros p Hp. rewrite len_nil in Hp. pose proof (len_nonneg cur). lia.
      * eapply Forall_impl; [| apply (IH (Some c) O (c :: cur))].
        cbn beta. intros p Hp. rewrite len_cons in Hp. lia.
    + eapply Forall_impl; [| apply (IH (Some c) k cur)]. cbn beta. intros p Hp. lia.
Qed.

Lemma split_len s : Forall (fun p => len p <= len s) (Regex.split m s).
Proof.
  unfold Regex.split. eapply Forall_impl; [| apply split_from_len].
  cbn beta. intros p Hp. rewrite len_nil in Hp. lia.
Qed.

Lemma split_from_Forall (P : N -> Prop) s :
  forall prev skip cur,
    Forall P cur -> Forall P s -> Forall (Forall P) (Regex.split_from m prev skip cur s).
Proof.
  induction s as [| c r IH]; intros prev skip cur Hcur Hs; cbn [Regex.split_from].
  - constructor; [apply Forall_rev, Hcur | constructor].
  - inversion Hs as [| ? ? Hc Hr]; subst. destruct skip as [| k].
    + destruct (m prev (c :: r)) as [[| k] |].
      * apply IH; [constructor |]; assumption.
      * constructor; [apply Forall_rev, Hcur |]. apply IH; [constructor | assumption].
      * apply IH; [constructor |]; assumption.
    + apply IH; assumption.
Qed.

Lemma replace_from_Forall (P : N -> Prop) repl s :
  forall prev skip,
    Forall P repl -> Forall P s -> Forall P (Regex.replace_from m repl prev skip s).
Proof.
  induction s as [| c r IH]; intros prev skip Hrepl Hs; cbn [Regex.replace_from].
  - constructor.
  - inversion Hs as [| ? ? Hc Hr]; subst. destruct skip as [| k].
    + destruct (m prev (c :: r)) as [[| k] |].
      * constructor; [assumption | apply IH; assumption].
      * apply Forall_app. split; [assumption | apply IH; assumption].
      * constructor; [assumption | apply IH; assumption].
    + apply IH; assumption.
Qed.

(** A replacement no longer than the shortest match does not lengthen the
    string. *)
Lemma replace_from_length repl s :
  (forall prev t k, m prev t = Some k -> (length repl <= k <= length t)%nat) ->
  forall prev skip,
    (length (Regex.replace_from m repl prev skip s) + Nat.min skip (length s)
     <= length s)%nat.
Proof.
  intros Hm. induction s as [| c r IH]; intros prev skip; cbn [Regex.replace_from].
  - cbn. lia.
  - destruct skip as [| k].
    + destruct (m prev (c :: r)) as [[| k] |] eqn:E.
      * specialize (IH (Some c) O). cbn [length] in *. lia.
      * apply Hm in E. specialize (IH (Some c) k). rewrite length_app.
        cbn [length] in *. lia.
      * specialize (IH (Some c) O). cbn [length] in *. lia.
    + specialize (IH (Some c) k). cbn [length]. lia.
Qed.

Lemma replace_len repl s :
  (forall prev t k, m prev t = Some k -> (length repl <= k <= length t)%nat) ->
  len (Regex.replace m repl s) <= len s.
Proof.
  intros Hm. pose proof (replace_from_length repl s Hm None O). unfold Regex.replace, len. lia.
Qed.

Lemma unmatched_replace repl s :
  forall prev, unmatched m prev s -> Regex.replace_from m repl prev O s = s.
Proof.
  induction s as [| c r IH]; intros prev; cbn [unmatched Regex.replace_from]; [reflexivity |].
  intros [-> Hr]. rewrite (IH _ Hr). reflexivity.
Qed.

Lemma unmatched_split s :
  forall prev cur, unmatched m prev s -> Regex.split_from m prev O cur s = [rev cur ++ s].
Proof.
  induction s as [| c r IH]; intros prev cur; cbn [unmatched Regex.split_from].
  - rewrite app_nil_r. reflexivity.
  - intros [-> Hr]. rewrite (IH _ _ Hr). cbn [rev]. rewrite <- app_assoc. reflexivity.
Qed.

Lemma unmatched_test s :
  forall prev, unmatched m prev s -> Regex.test_from m prev s = false.
Proof.
  induction s as [| c r IH]; intros prev; cbn [unmatched Regex.test_from].
  - intros [-> _]. reflexivity.
  - intros [-> Hr]. apply IH, Hr.
Qed.

End RegexFacts.

Lemma stripPrefix_length p : forall s r, stripPrefix p s = Some r -> (length p <= length s)%nat.
Proof.
  induction p as [| a p IH]; intros s r; cbn [stripPrefix length]; [lia |].
  destruct s as [| c s]; [discriminate |]. destruct (N.eqb a c); [| discriminate].
  intros H. apply IH in H. cbn [length]. lia.
Qed.

Lemma lit_match p prev t k :
  Regex.lit p prev t = Some k -> (k = length p /\ length p <= length t)%nat.
Proof.
  unfold Regex.lit. destruct (stripPrefix p t) eqn:E; [| discriminate].
  intros [= <-]. split; [reflexivity |]. eapply stripPrefix_length, E.
Qed.

Lemma takeWhile_length {A} (p : A -> bool) (s : list A) :
  (length (takeWhile p s) <= length s)%nat.
Proof.
  induction s as [| c r IH]; cbn [takeWhile length]; [lia |].
  destruct (p c); cbn [length]; lia.
Qed.

Section ChunkerShapes.

Import DocumentChunker.

Lemma normalizeContent_len content : len (normalizeContent content) <= len content.
Proof.
  unfold normalizeContent.
  etransitivity; [apply replace_len | etransitivity; [apply replace_len | apply replace_len]].
  - intros prev t k. unfold Regex.re_newlines4.
    pose proof (takeWhile_length (N.eqb 10) t).
    destruct (Nat.leb_spec 4 (length (takeWhile (N.eqb 10) t))); [| discriminate].
    intros [= <-]. cbn [length]. lia.
  - intros prev t k H. apply lit_match in H. cbn [length] in *. lia.
  - intros prev t k H. apply lit_match in H. cbn [length] in *. lia.
Qed.

(** A text of fewer than 10 code units has no section. *)
Lemma short_content_no_section content :
  len content < 10 -> splitIntoSectionsSecure content = [].
Proof.
  intros Hlen. unfold splitIntoSectionsSecure. cbv zeta.
  assert (E : filter (fun section => 10 <=? len (trim section))
                     (Regex.split Regex.re_blank_line (normalizeContent content)) = []).
  { pose proof (split_len Regex.re_blank_line (normalizeContent content)) as Hp.
    pose proof (normalizeContent_len content) as Hn.
    induction Hp as [| p l Hp1 _ IH]; [reflexivity |]. cbn [filter].
    pose proof (trim_len_le p).
    destruct (Z.leb_spec 10 (len (trim p))); [lia | exact IH]. }
  rewrite E. reflexivity.
Qed.

(** X1. A content that passes [validateInput] but has fewer than 10 code
    units gives no chunk: when the chunking ends before the timeout,
    [chunkDocument] resolves with the empty list; it does not reject. *)
Theorem short_content_yields_no_chunk :
  forall tc content maxTokens model n,
    validateInput content maxTokens model = Ok n ->
    len content < 10 ->
    chunkDocument OperationFirst tc content maxTokens model = Ok [].
Proof.
  intros tc content maxTokens model n Hvalid Hlen.
  unfold chunkDocument. rewrite Hvalid. cbn [bind].
  unfold performChunking. rewrite (short_content_no_section content Hlen).
  reflexivity.
Qed.

Lemma short_content_example :
  validateInput (str "Too short") (MaxInt 6000) Samples.gpt4 = Ok 6000
  /\ len (str "Too short") < 10
  /\ chunkDocument OperationFirst Samples.unitCounter (str "Too short") (MaxInt 6000)
       Samples.gpt4 = Ok [].
Proof.
  assert (Hv : validateInput (str "Too short") (MaxInt 6000) Samples.gpt4 = Ok 6000)
    by (vm_compute; reflexivity).
  assert (Hl : len (str "Too short") < 10) by (vm_compute; reflexivity).
  split; [exact Hv |]. split; [exact Hl |].
  exact (short_content_yields_no_chunk Samples.unitCounter (str "Too short") (MaxInt 6000)
           Samples.gpt4 6000 Hv Hl).
Defined.

(** Words *)
Lemma spaces_words s :
  forall prev skip cur,
    Forall (fun c => isSpace c = true) (firstn skip s) ->
    (cur <> [] \/ Exists (fun c => isSpace c = false) s) ->
    Exists (fun w => truthy w = true) (Regex.split_from Regex.re_spaces prev skip cur s).
Proof.
  induction s as [| c r IH]; intros prev skip cur Hskip Hword; cbn [Regex.split_from].
  - destruct Hword as [Hcur | Hex]; [| inversion Hex].
    constructor. destruct cur as [| a cur]; [congruence |].
    cbn [rev]. destruct (rev cur); reflexivity.
  - destruct skip as [| k].
    + unfold Regex.re_spaces at 1. cbn [takeWhile].
      destruct (isSpace c) eqn:Ec.
      * cbn [length]. destruct cur as [| a cur].
        -- apply Exists_cons_tl. apply IH.
           ++ clear. induction r as [| d r IH]; cbn [takeWhile]; [constructor |].
              destruct (isSpace d) eqn:E; cbn [length firstn]; constructor; assumption.
           ++ right. destruct Hword as [Hcur | Hex]; [congruence |].
              inversion Hex as [? ? Hc | ? ? Hr]; subst; [congruence | exact Hr].
        -- constructor. cbn [rev]. destruct (rev cur); reflexivity.
      * apply IH; [constructor | left; congruence].
    + cbn [firstn] in Hskip. inversion Hskip as [| ? ? Hc Hr]; subst.
      apply IH; [exact Hr |].
      destruct Hword as [Hcur | Hex]; [left; exact Hcur | right].
      inversion Hex as [? ? Hc' | ? ? Hr']; subst; [congruence | exact Hr'].
Qed.

Lemma tight_has_word s :
  startsTight s -> 1 <= len (filter truthy (Regex.split Regex.re_spaces s)).
Proof.
  intros Hs. unfold Regex.split.
  assert (Hex : Exists (fun w => truthy w = true)
                  (Regex.split_from Regex.re_spaces None O [] s)).
  { apply spaces_words; [constructor |]. right.
    destruct s as [| c r]; [destruct Hs |]. constructor. exact Hs. }
  induction Hex as [w l Hw | w l _ IH]; cbn [filter].
  - rewrite Hw. rewrite len_cons. pose proof (len_nonneg (filter truthy l)). lia.
  - destruct (truthy w); [rewrite len_cons |]; lia.
Qed.

(** The chunk [createChunkSecure] builds when the text fits. *)
Lemma chunk_of_clean_text cleanText tokens idx :
  truthy cleanText = true -> tight cleanText -> len cleanText <= 100000 ->
  forall c,
    Some c = Some {| index := idx;
                     text := cleanText;
                     tokenCount := atLeastOne tokens;
                     characterCount := len cleanText;
                     wordCount := len (filter truthy (Regex.split Regex.re_spaces cleanText));
                     preview := if 200 <? len cleanText
                                then substring 0 200 cleanText ++ str "..."
                                else cleanText;
                     sentences := Z.max 1 (len (splitIntoSentencesSecure cleanText)) |} ->
    index c = idx /\ tight (text c) /\ 1 <= len (text c) <= 100000
    /\ characterCount c = len (text c) /\ tokenCount c = atLeastOne tokens
    /\ 1 <= wordCount c /\ 1 <= sentences c /\ len (preview c) <= 203.
Proof.
  intros Ht Htight Hlen c [= ->]. cbn [index text characterCount tokenCount wordCount
                                         sentences preview].
  pose proof (truthy_true_len _ Ht).
  split; [reflexivity |]. split; [exact Htight |]. split; [lia |].
  split; [reflexivity |]. split; [reflexivity |].
  split; [apply tight_has_word, Htight |]. split; [lia |].
  destruct (Z.ltb_spec 200 (len cleanText)); [| lia].
  rewrite len_app, substring_from_zero by lia.
  pose proof (take_len_le cleanText 200 ltac:(lia)).
  change (len (str "...")) with 3. lia.
Qed.

(** X2. [createChunkSecure] returns [null] only for a text that is empty
    once trimmed.  The chunk it returns otherwise carries the index it was
    given, a text without white space at either end, of 1 to 100000 code
    units, a [characterCount] that is the length of that text, the token
    count [Math.max(1, tokenCount)] ([NaN] for a promise), a word count and
    a sentence count of 1 at least, and a preview of at most 203 code
    units. *)
Theorem createChunkSecure_shape :
  forall text0 tokens idx,
    match createChunkSecure text0 tokens idx with
    | None => trim text0 = []
    | Some c =>
        index c = idx /\ tight (text c) /\ 1 <= len (text c) <= 100000
        /\ characterCount c = len (text c) /\ tokenCount c = atLeastOne tokens
        /\ 1 <= wordCount c /\ 1 <= sentences c /\ len (preview c) <= 203
    end.
Proof.
  intros text0 tokens idx. unfold createChunkSecure. cbn [createChunkSecure_fuel].
  destruct (truthy (trim text0)) eqn:Ht; cbn [negb].
  2:{ destruct (trim text0); [reflexivity | discriminate]. }
  pose proof (trim_tight _ Ht) as Htight.
  destruct (Z.ltb_spec 100000 (len (trim text0))) as [Hlong | Hshort].
  - set (cut := substring 0 100000 (trim text0)).
    assert (Hcut : cut = take 100000 (trim text0))
      by (unfold cut; apply substring_from_zero; lia).
    assert (Hstart : startsTight cut).
    { rewrite Hcut. destruct Htight as [Hs _].
      destruct (trim text0) as [| a r]; [destruct Hs |]. cbn [take].
      change (100000 <=? 0) with false. cbn iota. exact Hs. }
    assert (Htc : truthy (trim cut) = true).
    { unfold trim, trimEnd, trimStart. rewrite (startsTight_dropWhile _ Hstart).
      destruct cut as [| a r]; [destruct Hstart |].
      cbn [rev]. rewrite (dropWhile_snoc isSpace (rev r) a Hstart).
      rewrite rev_app_distr. reflexivity. }
    rewrite Htc. cbn [negb].
    assert (Hlen : len (trim cut) <= 100000).
    { pose proof (trim_len_le cut). rewrite Hcut in *.
      pose proof (take_len_le (trim text0) 100000 ltac:(lia)). lia. }
    destruct (Z.ltb_spec 100000 (len (trim cut))); [lia |].
    eapply chunk_of_clean_text; [exact Htc | apply trim_tight, Htc | exact Hlen | reflexivity].
  - eapply chunk_of_clean_text; [exact Ht | exact Htight | exact Hshort | reflexivity].
Qed.

End ChunkerShapes.

Section PrefixFacts.
Context {A : Type}.

Lemma take_app_exact (a b : list A) : take (len a) (a ++ b) = a.
Proof.
  induction a as [| x a IH]; cbn [app].
  - destruct b; reflexivity.
  - cbn [take]. rewrite len_cons. pose proof (len_nonneg a).
    destruct (Z.leb_spec (len a + 1) 0); [lia |].
    replace (len a + 1 - 1) with (len a) by lia. rewrite IH. reflexivity.
Qed.

Lemma take_len_le_all (l : list A) n : len (take n l) <= len l.
Proof.
  revert n. induction l as [| x l IH]; intros n; cbn [take]; [lia |].
  destruct (n <=? 0); rewrite ?len_cons, ?len_nil.
  - pose proof (len_nonneg l). lia.
  - specialize (IH (n - 1)). lia.
Qed.

Lemma drop_len (l : list A) : forall n, 0 <= n -> len (drop n l) = Z.max 0 (len l - n).
Proof.
  induction l as [| x l IH]; intros n Hn; cbn [drop].
  - rewrite len_nil. lia.
  - destruct (Z.leb_spec n 0).
    + rewrite len_cons. pose proof (len_nonneg l). lia.
    + rewrite IH by lia. rewrite len_cons. lia.
Qed.

End PrefixFacts.

Section Sentences.

Import DocumentChunker.

Lemma sentences_shape :
  forall text0,
    len (splitIntoSentencesSecure text0) <= 200
    /\ (truthy text0 = true -> len text0 <= 50000 ->
        Forall (fun s : jsstring => tight s /\ 10 <= len s <= 5000) (splitIntoSentencesSecure text0))
    /\ Forall (fun s : jsstring => len s <= 50000) (splitIntoSentencesSecure text0).
Proof.
  intros text0. unfold splitIntoSentencesSecure.
  assert (Hnormal :
            Forall (fun s : jsstring => tight s /\ 10 <= len s <= 5000)
              (slice0 200
                 (filter (fun sentence => len sentence <=? 5000)
                    (List.map trim
                       (filter (fun sentence => 10 <=? len (trim sentence))
                          (Regex.split Regex.re_sentence_gap text0)))))).
  { apply take_Forall. apply Forall_forall. intros s Hs.
    apply filter_In in Hs. destruct Hs as [Hs H5000]. apply Z.leb_le in H5000.
    apply in_map_iff in Hs. destruct Hs as (x & <- & Hx).
    apply filter_In in Hx. destruct Hx as [_ H10]. apply Z.leb_le in H10.
    split; [| lia]. apply trim_tight.
    destruct (trim x); [rewrite len_nil in H10; lia | reflexivity]. }
  destruct (truthy text0) eqn:Ht; cbn [negb orb].
  - destruct (Z.ltb_spec 50000 (len text0)) as [Hlong | Hshort].
    + split; [rewrite len_cons, len_nil; lia |]. split; [lia |].
      constructor; [| constructor]. rewrite substring_from_zero by lia.
      apply take_len_le. lia.
    + split; [apply take_len_le; lia |]. split; [intros _ _; exact Hnormal |].
      eapply Forall_impl; [| exact Hnormal]. cbn beta. intros s [_ H]. lia.
  - split; [rewrite len_cons, len_nil; lia |]. split; [discriminate |].
    constructor; [| constructor]. rewrite substring_from_zero by lia.
    pose proof (take_len_le text0 50000 ltac:(lia)). lia.
Qed.

Lemma sentences_len text0 : Forall (fun s : jsstring => len s <= 50000) (splitIntoSentencesSecure text0).
Proof. apply sentences_shape. Qed.

(** X3. [splitIntoSentencesSecure] returns at most 200 pieces, none longer
    than 50000 code units; for a non-empty text of at most 50000 code units
    every piece is trimmed and has 10 to 5000 code units. *)
Theorem splitIntoSentencesSecure_bounds :
  forall text0,
    len (splitIntoSentencesSecure text0) <= 200
    /\ (truthy text0 = true -> len text0 <= 50000 ->
        Forall (fun s : jsstring => tight s /\ 10 <= len s <= 5000)
               (splitIntoSentencesSecure text0))
    /\ Forall (fun s : jsstring => len s <= 50000) (splitIntoSentencesSecure text0).
Proof. exact sentences_shape. Qed.

End Sentences.

Lemma filter_len_le {A} (p : A -> bool) (l : list A) : len (filter p l) <= len l.
Proof.
  induction l as [| a l IH]; cbn [filter]; [lia |].
  destruct (p a); rewrite ?len_cons; lia.
Qed.

Section SectionBounds.

Import DocumentChunker.

Lemma longParagraphLoop_bounds maxLength sentences :
  maxLength + 1 <= 50000 ->
  Forall (fun s : jsstring => len s <= 50000) sentences ->
  forall (sections : list jsstring) (cur : jsstring),
    Forall (fun s : jsstring => len s <= 50000) sections -> len cur <= 50000 -> len sections <= 50 ->
    Forall (fun s : jsstring => len s <= 50000) (fst (longParagraphLoop maxLength sentences sections cur))
    /\ len (snd (longParagraphLoop maxLength sentences sections cur)) <= 50000
    /\ len (fst (longParagraphLoop maxLength sentences sections cur)) <= 51.
Proof.
  intros Hmax Hsent. induction Hsent as [| s r Hs _ IH]; intros sections cur Hacc Hcur Hcount;
    cbn [longParagraphLoop].
  - cbn [fst snd]. split; [assumption | split; [assumption | jlia]].
  - destruct ((maxLength <? len cur + len s) && truthy cur)%bool eqn:Hclose.
    + apply andb_true_iff in Hclose. destruct Hclose as [_ Hc].
      assert (Hacc' : Forall (fun s : jsstring => len s <= 50000) (sections ++ [trim cur])).
      { apply Forall_app. split; [exact Hacc |]. constructor; [| constructor].
        pose proof (trim_len_le cur). jlia. }
      assert (Hcount' : len (sections ++ [trim cur]) <= 51)
        by (rewrite len_app, len_cons, len_nil; jlia).
      destruct (50 <? len _) eqn:E50.
      * cbn [fst snd]. split; [assumption | split; assumption].
      * apply Z.ltb_ge in E50. apply IH; assumption.
    + assert (Hcur' : len (cur ++ (if truthy cur then str " " else []) ++ s) <= 50000).
      { rewrite !len_app. apply andb_false_iff in Hclose.
        destruct (truthy cur) eqn:Hc.
        - destruct Hclose as [Hfit | ?]; [| discriminate]. apply Z.ltb_ge in Hfit.
          change (len (str " ")) with 1. jlia.
        - destruct cur; [| discriminate]. rewrite !len_nil. jlia. }
      destruct (50 <? len _) eqn:E50.
      * cbn [fst snd]. split; [assumption | split; [assumption | jlia]].
      * apply IH; assumption.
Qed.

Lemma splitLongParagraphSecure_bounds paragraph maxLength :
  maxLength + 1 <= 50000 ->
  Forall (fun s : jsstring => len s <= 50000) (splitLongParagraphSecure paragraph maxLength)
  /\ len (splitLongParagraphSecure paragraph maxLength) <= 52.
Proof.
  intros Hmax. unfold splitLongParagraphSecure.
  pose proof (longParagraphLoop_bounds maxLength (splitIntoSentencesSecure paragraph)
                Hmax (sentences_len paragraph) [] []
                (Forall_nil _) ltac:(rewrite len_nil; lia) ltac:(rewrite len_nil; lia)) as H.
  destruct (longParagraphLoop maxLength (splitIntoSentencesSecure paragraph) [] [])
    as [sections cur].
  cbn [fst snd] in H. destruct H as (Hall & Hcur & Hcount).
  destruct (truthy cur).
  - split.
    + apply Forall_app. split; [exact Hall |]. constructor; [| constructor].
      pose proof (trim_len_le cur). lia.
    + rewrite len_app, len_cons, len_nil. lia.
  - split; [exact Hall | lia].
Qed.

Lemma refineSections_bounds sections :
  forall refined : list jsstring,
    Forall (fun s : jsstring => len s <= 50000) refined -> len refined <= 200 ->
    Forall (fun s : jsstring => len s <= 50000) (refineSections sections refined)
    /\ len (refineSections sections refined) <= 252.
Proof.
  induction sections as [| s r IH]; intros refined Hacc Hcount; cbn [refineSections].
  - split; [exact Hacc | lia].
  - set (refined' := if len s <=? 3000 then refined ++ [trim s]
                     else refined ++ splitLongParagraphSecure s 3000).
    assert (H' : Forall (fun s : jsstring => len s <= 50000) refined' /\ len refined' <= 252).
    { subst refined'. destruct (Z.leb_spec (len s) 3000).
      - split.
        + apply Forall_app. split; [exact Hacc |]. constructor; [| constructor].
          pose proof (trim_len_le s). lia.
        + rewrite len_app, len_cons, len_nil. lia.
      - destruct (splitLongParagraphSecure_bounds s 3000 ltac:(lia)) as [Hall Hn].
        split; [apply Forall_app; split; assumption | rewrite len_app; lia]. }
    destruct H' as [Hall Hn]. unfold MAX_CHUNK_COUNT.
    destruct (Z.ltb_spec (100 * 2) (len refined')).
    + split; assumption.
    + apply IH; [exact Hall | lia].
Qed.

(** X4. [splitIntoSectionsSecure] returns at most 252 sections, whatever
    the content; each is trimmed (no white space at either end), not empty,
    and at most 50000 code units long. *)
Theorem sections_are_bounded :
  forall content,
    len (splitIntoSectionsSecure content) <= 252
    /\ Forall (fun s : jsstring => tight s /\ 1 <= len s <= 50000) (splitIntoSectionsSecure content).
Proof.
  intros content.
  pose proof (sections_tight content) as Htight.
  unfold splitIntoSectionsSecure in *. cbv zeta in *.
  match goal with
  | |- context [refineSections ?l []] =>
      destruct (refineSections_bounds l [] (Forall_nil _) ltac:(rewrite len_nil; lia))
      as [Hall Hn]
  end.
  split.
  - etransitivity; [apply filter_len_le | exact Hn].
  - apply Forall_forall. intros s Hs.
    rewrite Forall_forall in Htight. pose proof (Htight s Hs) as Ht.
    apply filter_In in Hs. destruct Hs as [Hin Hkeep].
    rewrite Forall_forall in Hall. specialize (Hall s Hin).
    split; [exact Ht |]. split; [| exact Hall].
    destruct Ht as [Hstart _]. destruct s; [destruct Hstart |].
    rewrite len_cons. pose proof (len_nonneg s). lia.
Qed.

End SectionBounds.

(** ** Splitting by characters, and the numbering of chunks *)

Lemma lastIndexOf_from_le ch from s :
  forall i found, found <= from -> lastIndexOf_from ch from i s found <= from.
Proof.
  induction s as [| c r IH]; intros i found Hf; cbn [lastIndexOf_from]; [exact Hf |].
  destruct (Z.ltb_spec from i); [exact Hf |].
  apply IH. destruct (N.eqb c ch); lia.
Qed.

Lemma lastIndexOf_le ch from s : 0 <= from -> lastIndexOf ch from s <= from.
Proof. intros H. apply lastIndexOf_from_le. lia. Qed.

Lemma substring_len {A} (s : list A) a b : 0 <= a <= b -> len (substring a b s) <= b - a.
Proof.
  intros H. unfold substring. rewrite Z.min_l, Z.max_r by lia.
  rewrite (Z.max_r 0 a) by lia. apply take_len_le. lia.
Qed.

Section CharacterSplit.

Import DocumentChunker.

(** [n > start + maxChars * k] holds of no [n] below [start]. *)
Lemma beyond_start n start maxChars d :
  0 <= start < 2 ^ 53 -> 0 <= maxChars -> 0 <= Dbl.mant d -> 52 <= Dbl.scale d ->
  Dbl.int_gtb n (Dbl.add_int start (Dbl.mul_int maxChars d)) = true -> start < n.
Proof.
  intros Hs Hm Hd Hsc H. unfold Dbl.int_gtb, Dbl.add_int, Dbl.mul_int in H.
  cbn [Dbl.mant Dbl.scale] in H. apply Z.ltb_lt in H.
  assert (Hp : 0 < 2 ^ Dbl.scale d) by (apply Z.pow_pos_nonneg; lia).
  pose proof (round53_nonneg (maxChars * Dbl.mant d) ltac:(nia)) as Hr.
  pose proof (round53_monotone (start * 2 ^ Dbl.scale d)
                (start * 2 ^ Dbl.scale d + Dbl.round53 (maxChars * Dbl.mant d))
                ltac:(nia)) as Hmono.
  rewrite round53_exact_scaled in Hmono by lia. nia.
Qed.

Lemma characterLoop_pieces text0 maxChars attempts :
  0 <= maxChars -> len text0 < 2 ^ 53 ->
  forall start,
    0 <= start ->
    Forall (pieceOk maxChars) (characterLoop attempts text0 maxChars start)
    /\ len (characterLoop attempts text0 maxChars start) <= Z.of_nat attempts.
Proof.
  intros Hmax Hlen. induction attempts as [| attempts IH]; intros start Hstart;
    cbn [characterLoop].
  - split; [constructor | rewrite len_nil; lia].
  - destruct (Z.ltb_spec start (len text0)) as [Hin | Hout].
    2:{ split; [constructor | rewrite len_nil; lia]. }
    cbv zeta.
    set (end0 := Z.min (start + maxChars) (len text0)).
    match goal with
    | |- context [substring start ?e text0] => set (end1 := e)
    end.
    assert (Hend : start <= end1 <= start + maxChars + 1).
    { subst end1. destruct (end0 <? len text0); [| subst end0; lia].
      pose proof (lastIndexOf_le 32 end0 text0 ltac:(subst end0; lia)).
      pose proof (lastIndexOf_le 46 end0 text0 ltac:(subst end0; lia)).
      pose proof (lastIndexOf_le 33 end0 text0 ltac:(subst end0; lia)).
      pose proof (lastIndexOf_le 63 end0 text0 ltac:(subst end0; lia)).
      destruct (Dbl.int_gtb (Z.max _ _) _) eqn:Hpunct.
      - apply beyond_start in Hpunct; cbn; try lia.
      - destruct (Dbl.int_gtb (lastIndexOf 32 _ _) _) eqn:Hspace.
        + apply beyond_start in Hspace; cbn; try lia.
        + subst end0. jlia. }
    destruct (IH end1 ltac:(lia)) as [Hrest Hcount].
    destruct (truthy (trim (substring start end1 text0))
              && (10 <=? len (trim (substring start end1 text0))))%bool eqn:Hkeep.
    + apply andb_true_iff in Hkeep. destruct Hkeep as [Ht H10]. apply Z.leb_le in H10.
      split.
      * constructor; [| exact Hrest]. split; [apply trim_tight, Ht |]. cbn [fst snd].
        split; [| reflexivity].
        pose proof (trim_len_le (substring start end1 text0)).
        pose proof (substring_len text0 start end1 ltac:(lia)). lia.
      * cbn [app]. rewrite len_cons. lia.
    + cbn [app]. split; [exact Hrest | lia].
Qed.

Lemma splitByCharacterLimitSecure_loop text0 maxTokens :
  splitByCharacterLimitSecure text0 maxTokens
  = characterLoop 20 text0 (Z.min (maxTokens * 3) 10000) 0.
Proof. reflexivity. Qed.

(** X5. For a [maxTokens] that is not negative, [splitByCharacterLimitSecure]
    returns at most 20 pieces; each piece is trimmed, has between 10 and
    [min(maxTokens * 3, 10000) + 1] code units, and carries as its token
    count the promise [countTokens] returned, which the method never
    awaits. *)
Theorem character_pieces_are_bounded :
  forall text0 maxTokens,
    0 <= maxTokens -> len text0 < 2 ^ 53 ->
    len (splitByCharacterLimitSecure text0 maxTokens) <= 20
    /\ Forall (fun p : jsstring * TokenCountArg =>
                 tight (fst p)
                 /\ 10 <= len (fst p) <= Z.min (maxTokens * 3) 10000 + 1
                 /\ snd p = Unawaited)
              (splitByCharacterLimitSecure text0 maxTokens).
Proof.
  intros text0 maxTokens Hm Hlen. rewrite splitByCharacterLimitSecure_loop.
  destruct (characterLoop_pieces text0 (Z.min (maxTokens * 3) 10000) 20
              ltac:(lia) Hlen 0 ltac:(lia)) as [Hall Hcount].
  split; [exact Hcount | exact Hall].
Qed.

End CharacterSplit.

Section CharacterChunks.

Import DocumentChunker.

Lemma characterLoop_unawaited text0 maxChars attempts :
  forall start,
    Forall (fun p : jsstring * TokenCountArg => tight (fst p) /\ snd p = Unawaited)
           (characterLoop attempts text0 maxChars start).
Proof.
  induction attempts as [| attempts IH]; intros start; cbn [characterLoop]; [constructor |].
  destruct (start <? len text0); [| constructor]. cbv zeta.
  apply Forall_app. split; [| apply IH].
  destruct (truthy _ && _)%bool eqn:Hkeep; [| constructor].
  apply andb_true_iff in Hkeep. destruct Hkeep as [Ht _].
  constructor; [| constructor]. split; [apply trim_tight, Ht | reflexivity].
Qed.

Lemma createChunkSecure_tight text0 tokens idx :
  tight text0 ->
  exists c, createChunkSecure text0 tokens idx = Some c /\ tokenCount c = atLeastOne tokens.
Proof.
  intros Ht. pose proof (tight_trim _ Ht) as Etrim.
  unfold createChunkSecure. cbn [createChunkSecure_fuel]. rewrite Etrim.
  assert (Htruthy : truthy text0 = true).
  { destruct Ht as [Hs _]. destruct text0; [destruct Hs | reflexivity]. }
  rewrite Htruthy. cbn [negb].
  destruct (100000 <? len text0); [| eexists; split; reflexivity].
  set (cut := substring 0 100000 text0).
  assert (Hcut : cut = take 100000 text0) by (apply substring_from_zero; lia).
  assert (Hstart : startsTight cut).
  { rewrite Hcut. destruct Ht as [Hs _]. destruct text0 as [| a r]; [destruct Hs |].
    cbn [take]. change (100000 <=? 0) with false. cbn iota. exact Hs. }
  assert (Htc : truthy (trim cut) = true).
  { unfold trim, trimEnd, trimStart. rewrite (startsTight_dropWhile _ Hstart).
    destruct cut as [| a r]; [destruct Hstart |].
    cbn [rev]. rewrite (dropWhile_snoc isSpace (rev r) a Hstart).
    rewrite rev_app_distr. reflexivity. }
  rewrite Htc. cbn [negb].
  assert (Hlen : len (trim cut) <= 100000).
  { pose proof (trim_len_le cut). rewrite Hcut in *.
    pose proof (take_len_le text0 100000 ltac:(lia)). lia. }
  destruct (Z.ltb_spec 100000 (len (trim cut))); [lia |].
  eexists; split; reflexivity.
Qed.

(** X6. Every piece of [splitByCharacterLimitSecure] makes a chunk
    ([createChunkSecure] does not return [null] on it), and the token count
    of that chunk is [NaN]: the token filter of [validateChunks] rejects the
    chunk for every [maxTokens]. *)
Theorem character_chunks_fail_the_filter :
  forall text0 maxTokens p idx,
    In p (splitByCharacterLimitSecure text0 maxTokens) ->
    exists c,
      createChunkSecure (fst p) (snd p) idx = Some c
      /\ tokenCount c = NaN
      /\ forall m, withinBudget m c = false.
Proof.
  intros text0 maxTokens p idx Hin.
  rewrite splitByCharacterLimitSecure_loop in Hin.
  pose proof (characterLoop_unawaited text0 (Z.min (maxTokens * 3) 10000) 20 0) as Hall.
  rewrite Forall_forall in Hall. apply Hall in Hin. destruct Hin as [Ht Hu].
  destruct (createChunkSecure_tight (fst p) (snd p) idx Ht) as (c & Hc & Htok).
  rewrite Hu in Htok. cbn [atLeastOne] in Htok.
  exists c. split; [exact Hc |]. split; [exact Htok |].
  intros m. unfold withinBudget. rewrite Htok. reflexivity.
Qed.

Lemma character_chunks_example :
  In (Samples.longWord, Unawaited) (splitByCharacterLimitSecure Samples.longWord 100)
  /\ exists c,
      createChunkSecure (fst (Samples.longWord, Unawaited)) (snd (Samples.longWord, Unawaited)) 1 = Some c
      /\ tokenCount c = NaN
      /\ forall m, withinBudget m c = false.
Proof.
  assert (Hin : In (Samples.longWord, Unawaited) (splitByCharacterLimitSecure Samples.longWord 100))
    by (left; vm_compute; reflexivity).
  split; [exact Hin |].
  exact (character_chunks_fail_the_filter Samples.longWord 100 (Samples.longWord, Unawaited) 1 Hin).
Defined.

(** X7. [validateInput] looks for harmful patterns in the first 10000 code
    units only: two contents within the size limit that share their first
    10000 code units get the same verdict, whatever follows. *)
Theorem validateInput_reads_first_10000 :
  forall prefix rest rest' maxTokens model,
    len prefix = 10000 ->
    len (prefix ++ rest) <= MAX_DOCUMENT_LENGTH ->
    len (prefix ++ rest') <= MAX_DOCUMENT_LENGTH ->
    validateInput (prefix ++ rest) maxTokens model
    = validateInput (prefix ++ rest') maxTokens model.
Proof.
  intros prefix rest rest' maxTokens model Hp Hr Hr'.
  assert (Hcut : forall x, substring 0 10000 (prefix ++ x) = prefix).
  { intros x. rewrite substring_from_zero by lia. rewrite <- Hp. apply take_app_exact. }
  assert (Htruthy : forall x, truthy (prefix ++ x) = true).
  { intros x. destruct prefix; [rewrite len_nil in Hp; lia | reflexivity]. }
  assert (Hpos : forall x, (len (prefix ++ x) =? 0) = false).
  { intros x. apply Z.eqb_neq. rewrite len_app. pose proof (len_nonneg x). lia. }
  unfold validateInput.
  rewrite !Htruthy, !Hpos, !Hcut. cbn [negb].
  destruct (Z.ltb_spec MAX_DOCUMENT_LENGTH (len (prefix ++ rest))); [lia |].
  destruct (Z.ltb_spec MAX_DOCUMENT_LENGTH (len (prefix ++ rest'))); [lia |].
  reflexivity.
Qed.

End CharacterChunks.

Section ChunkIndices.

Import DocumentChunker.

Lemma createChunkSecure_index text0 tokens idx c :
  createChunkSecure text0 tokens idx = Some c -> index c = idx.
Proof.
  unfold createChunkSecure. cbn [createChunkSecure_fuel].
  destruct (negb (truthy (trim text0))); [discriminate |].
  destruct (100000 <? len (trim text0)).
  - destruct (negb (truthy (trim (substring 0 100000 (trim text0))))); [discriminate |].
    destruct (100000 <? _); [discriminate |]. intros [= <-]. reflexivity.
  - intros [= <-]. reflexivity.
Qed.

Lemma numberedFrom_app start a b :
  numberedFrom start (a ++ b) <-> numberedFrom start a /\ numberedFrom (start + len a) b.
Proof.
  revert start. induction a as [| c a IH]; intros start; cbn [app numberedFrom].
  - rewrite len_nil, Z.add_0_r. tauto.
  - rewrite IH, len_cons. replace (start + 1 + len a) with (start + (len a + 1)) by lia. tauto.
Qed.

Lemma wellNumbered_push start st text0 tokens cur toks :
  wellNumbered start st ->
  wellNumbered start
    {| chunks := chunks st ++ [createChunkSecure text0 tokens (chunkIndex st)];
       currentChunk := cur; currentTokens := toks; chunkIndex := chunkIndex st + 1 |}.
Proof.
  intros [Hn Hi]. split; cbn [chunks chunkIndex].
  - apply numberedFrom_app. split; [exact Hn |]. cbn [numberedFrom]. split; [| exact I].
    destruct (createChunkSecure _ _ _) eqn:Hc; [| exact I].
    apply createChunkSecure_index in Hc. lia.
  - rewrite len_app, len_cons, len_nil. lia.
Qed.

Lemma wellNumbered_closeChunk start st :
  wellNumbered start st -> wellNumbered start (closeChunk st).
Proof. intros H. unfold closeChunk. apply wellNumbered_push. exact H. Qed.

Lemma wellNumbered_pushCharacterChunks start characterChunks :
  forall st, wellNumbered start st ->
             wellNumbered start (pushCharacterChunks characterChunks st).
Proof.
  induction characterChunks as [| [t k] rest IH]; intros st H; cbn [pushCharacterChunks].
  - exact H.
  - apply IH. apply wellNumbered_push. exact H.
Qed.

Lemma wellNumbered_same start st cur toks :
  wellNumbered start st ->
  wellNumbered start {| chunks := chunks st; currentChunk := cur; currentTokens := toks;
                        chunkIndex := chunkIndex st |}.
Proof. intros [Hn Hi]. split; assumption. Qed.

Lemma wellNumbered_sentenceLoop tc maxTokens model start sentences :
  forall st, wellNumbered start st ->
             wellNumbered start (sentenceLoop tc maxTokens model sentences st).
Proof.
  induction sentences as [| sentence rest IH]; intros st H; cbn [sentenceLoop].
  - exact H.
  - destruct (_ || _)%bool; [apply IH; exact H |].
    destruct (maxTokens <? _).
    + apply IH. apply wellNumbered_pushCharacterChunks.
      destruct (truthy (currentChunk st)); [apply wellNumbered_closeChunk |]; exact H.
    + destruct (_ && _)%bool.
      * assert (Hc : wellNumbered start
                       {| chunks := chunks (closeChunk st); currentChunk := sentence;
                          currentTokens := countOrEstimate tc sentence model;
                          chunkIndex := chunkIndex (closeChunk st) |}).
        { apply wellNumbered_same. apply wellNumbered_closeChunk. exact H. }
        destruct (MAX_CHUNK_COUNT - 5 <=? _); [exact Hc | apply IH; exact Hc].
      * match goal with
        | |- context [sentenceLoop tc maxTokens model rest ?s] =>
            assert (Hc : wellNumbered start s) by (apply wellNumbered_same; exact H)
        end.
        destruct (MAX_CHUNK_COUNT - 5 <=? _); [exact Hc | apply IH; exact Hc].
Qed.

Lemma splitLargeSectionSecure_numbered tc section maxTokens model startIndex :
  numberedFrom startIndex (splitLargeSectionSecure tc section maxTokens model startIndex).
Proof.
  unfold splitLargeSectionSecure.
  match goal with
  | |- context [sentenceLoop tc maxTokens model ?ss ?s0] =>
      assert (H : wellNumbered startIndex (sentenceLoop tc maxTokens model ss s0))
  end.
  { apply wellNumbered_sentenceLoop. split; cbn; [exact I | lia]. }
  cbv zeta. destruct (truthy _).
  - apply wellNumbered_closeChunk in H. apply H.
  - apply H.
Qed.

Lemma wellNumbered_packSection tc maxTokens model start previousSection section st step :
  wellNumbered start st ->
  packSection tc maxTokens model previousSection section st = Ok step ->
  wellNumbered start (stateOf step).
Proof.
  intros H. unfold packSection.
  destruct (maxTokens <? countOrEstimate tc section model).
  - set (st1 := if truthy (trim (currentChunk st)) then closeChunk st else st).
    assert (H1 : wellNumbered start st1).
    { subst st1. destruct (truthy _); [apply wellNumbered_closeChunk |]; exact H. }
    cbv zeta.
    match goal with
    | |- context [MAX_CHUNK_COUNT <? len (chunks ?s)] =>
        assert (Hs : wellNumbered start s)
    end.
    { destruct H1 as [Hn Hi]. split; cbn [chunks chunkIndex].
      - apply numberedFrom_app. split; [exact Hn |].
        rewrite <- Hi. apply splitLargeSectionSecure_numbered.
      - rewrite len_app. lia. }
    destruct (MAX_CHUNK_COUNT <? _); intros [= <-]; exact Hs.
  - destruct (_ && _)%bool; cbn [bind].
    + destruct (countTokens tc _ model) as [k |]; cbn [bind]; [| discriminate].
      match goal with
      | |- context [MAX_CHUNK_COUNT - 10 <? len (chunks ?s)] =>
          assert (Hs : wellNumbered start s) by (apply wellNumbered_push; exact H)
      end.
      destruct (MAX_CHUNK_COUNT - 10 <? _); intros [= <-]; exact Hs.
    + match goal with
      | |- context [MAX_CHUNK_COUNT - 10 <? len (chunks ?s)] =>
          assert (Hs : wellNumbered start s) by (apply wellNumbered_same; exact H)
      end.
      destruct (MAX_CHUNK_COUNT - 10 <? _); intros [= <-]; exact Hs.
Qed.

Lemma wellNumbered_packLoop tc maxTokens model start sections :
  forall previousSection st st',
    wellNumbered start st ->
    packLoop tc maxTokens model previousSection sections st = Ok st' ->
    wellNumbered start st'.
Proof.
  induction sections as [| section rest IH]; intros previousSection st st' H;
    cbn [packLoop].
  - intros [= <-]. exact H.
  - destruct (packSection tc maxTokens model previousSection section st) as [step |] eqn:Hstep;
      cbn [bind]; [| discriminate].
    apply (wellNumbered_packSection _ _ _ _ _ _ _ _ H) in Hstep.
    destruct step as [s | s]; cbn [stateOf] in Hstep.
    + apply IH. exact Hstep.
    + intros [= <-]. exact Hstep.
Qed.

Lemma performChunking_numbered tc content maxTokens model raw :
  performChunking tc content maxTokens model = Ok raw -> numberedFrom 1 raw.
Proof.
  unfold performChunking. cbv zeta.
  destruct (packLoop tc maxTokens model [] (splitIntoSectionsSecure content) initialPacking)
    as [st |] eqn:Hst; cbn [bind]; [| discriminate].
  apply wellNumbered_packLoop with (start := 1) in Hst.
  2:{ split; cbn; [exact I | lia]. }
  destruct (truthy _); intros [= <-].
  - apply wellNumbered_closeChunk in Hst. apply Hst.
  - apply Hst.
Qed.

Lemma numbered_notNull start l :
  numberedFrom start l ->
  Forall (fun c => start <= index c) (notNull l)
  /\ StronglySorted Z.lt (List.map index (notNull l)).
Proof.
  revert start. induction l as [| c l IH]; intros start; cbn [numberedFrom notNull].
  - split; constructor.
  - intros [Hc Hl]. destruct (IH _ Hl) as [Hge Hsorted].
    assert (Hge' : Forall (fun c => start <= index c) (notNull l)).
    { eapply Forall_impl; [| exact Hge]. cbn. intros; lia. }
    destruct c as [c |]; [| split; assumption].
    split; [constructor; [lia | exact Hge'] |].
    cbn [List.map]. constructor; [exact Hsorted |].
    apply Forall_map. eapply Forall_impl; [| exact Hge]. cbn. intros; lia.
Qed.

Lemma sorted_filter {A} (f : A -> Z) (p : A -> bool) (l : list A) :
  StronglySorted Z.lt (List.map f l) -> StronglySorted Z.lt (List.map f (filter p l)).
Proof.
  induction l as [| a l IH]; cbn [List.map filter]; [auto |].
  intros H. inversion H as [| ? ? Hs Hall]; subst.
  destruct (p a); [| auto]. cbn [List.map]. constructor; [auto |].
  rewrite Forall_map in *. rewrite Forall_forall in *. intros x Hx.
  apply Hall. apply filter_In in Hx. apply Hx.
Qed.

Lemma sorted_take {A} (f : A -> Z) (l : list A) :
  forall n, StronglySorted Z.lt (List.map f l) -> StronglySorted Z.lt (List.map f (take n l)).
Proof.
  induction l as [| a l IH]; intros n; cbn [List.map take]; [auto |].
  intros H. inversion H as [| ? ? Hs Hall]; subst.
  destruct (n <=? 0); [constructor |]. cbn [List.map]. constructor; [auto |].
  rewrite Forall_map in *. rewrite Forall_forall in *. intros x Hx.
  apply Hall. eapply take_In. exact Hx.
Qed.

Lemma findBest_In chunks c : findBest chunks = Some c -> In c (notNull chunks).
Proof.
  induction chunks as [| [x |] r IH]; cbn [findBest notNull]; [discriminate | |auto].
  destruct (truthy (text x)); [intros [= <-]; left; reflexivity | right; auto].
Qed.

Lemma validateChunks_indices raw m :
  numberedFrom 1 raw ->
  StronglySorted Z.lt (List.map index (validateChunks raw m))
  /\ Forall (fun c => 1 <= index c) (validateChunks raw m).
Proof.
  intros H. destruct (numbered_notNull _ _ H) as [Hge Hsorted].
  assert (Hslice :
            StronglySorted Z.lt (List.map index (slice0 MAX_CHUNK_COUNT (validChunksOf raw m)))
            /\ Forall (fun c => 1 <= index c) (slice0 MAX_CHUNK_COUNT (validChunksOf raw m))).
  { unfold slice0, validChunksOf. split.
    - apply sorted_take. apply sorted_filter. apply sorted_filter. exact Hsorted.
    - apply take_Forall. rewrite Forall_forall in *. intros x Hx.
      apply Hge. apply filter_In in Hx. destruct Hx as [Hx _].
      apply filter_In in Hx. apply Hx. }
  unfold validateChunks. cbv zeta.
  destruct (_ && _)%bool; [| exact Hslice].
  destruct (findBest raw) as [best |] eqn:Hbest; [| exact Hslice].
  apply findBest_In in Hbest. split.
  - cbn. constructor; constructor.
  - constructor; [| constructor]. rewrite Forall_forall in Hge. apply Hge. exact Hbest.
Qed.

(** X8. The chunks [chunkDocument] returns carry strictly increasing
    indices, each 1 at least. *)
Theorem chunk_indices_increase :
  forall race tc content maxTokens model chunks,
    chunkDocument race tc content maxTokens model = Ok chunks ->
    StronglySorted Z.lt (List.map index chunks)
    /\ Forall (fun c => 1 <= index c) chunks.
Proof.
  intros race tc content maxTokens model chunks H.
  apply chunkDocument_Ok in H. destruct H as (n & raw & _ & _ & Hraw & ->).
  apply validateChunks_indices. eapply performChunking_numbered. exact Hraw.
Qed.

End ChunkIndices.

(** ** The processor: jobs, scans and file names *)

Lemma str_eqb_refl s : str_eqb s s = true.
Proof. induction s as [| c s IH]; cbn [str_eqb]; [reflexivity |]. rewrite N.eqb_refl. exact IH. Qed.

Lemma str_eqb_eq a : forall b, str_eqb a b = true -> a = b.
Proof.
  induction a as [| x a IH]; intros [| y b]; cbn [str_eqb]; try discriminate; [reflexivity |].
  intros H. apply andb_true_iff in H. destruct H as [Hx Hab].
  apply N.eqb_eq in Hx. subst y. f_equal. apply IH, Hab.
Qed.

Section MapFacts.
Context {V : Type}.

Lemma JsMap_get_set_same (k : jsstring) (v : V) (m : JsMap.t V) :
  JsMap.get k (JsMap.set k v m) = Some v.
Proof.
  induction m as [| [k' v'] m IH]; cbn [JsMap.set JsMap.get].
  - rewrite str_eqb_refl. reflexivity.
  - destruct (str_eqb k k') eqn:E; cbn [JsMap.get]; rewrite ?E, ?str_eqb_refl; auto.
Qed.

Lemma JsMap_delete_set_absent (k : jsstring) (v : V) (m : JsMap.t V) :
  JsMap.get k m = None -> JsMap.delete k (JsMap.set k v m) = m.
Proof.
  induction m as [| [k' v'] m IH]; cbn [JsMap.set JsMap.get JsMap.delete].
  - rewrite str_eqb_refl. reflexivity.
  - destruct (str_eqb k k') eqn:E; [discriminate |]. intros H.
    cbn [JsMap.delete]. rewrite E, (IH H). reflexivity.
Qed.

Lemma JsMap_set_size (k : jsstring) (v : V) (m : JsMap.t V) :
  JsMap.size (JsMap.set k v m) <= JsMap.size m + 1.
Proof.
  unfold JsMap.size. induction m as [| [k' v'] m IH]; cbn [JsMap.set].
  - rewrite len_cons, len_nil. lia.
  - destruct (str_eqb k k'); rewrite !len_cons; lia.
Qed.

End MapFacts.

Section ProcessorJobs.

Import SecureFileProcessor.

Lemma processFile_busy :
  forall h sp fileBuffer callerName mimeType options,
    validateFileSecurely h fileBuffer callerName mimeType = Ok tt ->
    MAX_CONCURRENT_PROCESSING <= JsMap.size (activeProcessing sp) ->
    processFile h sp fileBuffer callerName mimeType options
    = (Throw (mkError ErrorK serverBusy), sp).
Proof.
  intros h sp fileBuffer callerName mimeType options Hv Hbusy.
  unfold processFile. rewrite Hv.
  destruct (Z.leb_spec MAX_CONCURRENT_PROCESSING (JsMap.size (activeProcessing sp))); [| lia].
  reflexivity.
Qed.

(** X9. For a file that passes validation, with fewer than 10 jobs
    running and a processing id that is not in use, [processFile] leaves the
    table of running jobs as it found it, whether it resolves or rejects;
    and either it touches no temporary file, or it writes one, hands it to
    the extractor and deletes it. *)
Theorem processFile_releases_what_it_took :
  forall h sp fileBuffer callerName mimeType options,
    validateFileSecurely h fileBuffer callerName mimeType = Ok tt ->
    JsMap.size (activeProcessing sp) < MAX_CONCURRENT_PROCESSING ->
    JsMap.get (randomUUID h) (activeProcessing sp) = None ->
    let sp' := snd (processFile h sp fileBuffer callerName mimeType options) in
    activeProcessing sp' = activeProcessing sp
    /\ (events sp' = events sp
        \/ exists path,
            events sp' = events sp ++ [TempFileWritten path;
                                       ExtractorInvoked path mimeType;
                                       TempFileDeleted path]).
Proof.
  intros h sp fileBuffer callerName mimeType options Hv Hfree Hfresh.
  unfold processFile. rewrite Hv.
  destruct (Z.leb_spec MAX_CONCURRENT_PROCESSING (JsMap.size (activeProcessing sp))); [lia |].
  unfold processBody. cbv zeta.
  match goal with
  | |- context [writeFile h ?path fileBuffer] =>
      set (tempFilePath := path); destruct (writeFile h tempFilePath fileBuffer)
  end.
  - match goal with
    | |- context [FileExtractor.extractContent ?a ?b ?c ?d] =>
        destruct (FileExtractor.extractContent a b c d) as [extraction fx]
    end.
    cbn [snd cleanupProcessing activeProcessing events fileExtractor].
    split; [apply JsMap_delete_set_absent, Hfresh |].
    right. exists tempFilePath. rewrite <- app_assoc. reflexivity.
  - cbn [snd cleanupProcessing activeProcessing events fileExtractor].
    split; [apply JsMap_delete_set_absent, Hfresh |].
    left. apply app_nil_r.
Qed.

Lemma substring_prefix {A} (prefix rest : list A) n :
  len prefix = n -> substring 0 (Z.min (len (prefix ++ rest)) n) (prefix ++ rest) = prefix.
Proof.
  intros Hn. pose proof (len_nonneg prefix). pose proof (len_nonneg rest).
  rewrite len_app, Z.min_r by lia. rewrite substring_from_zero by lia.
  rewrite <- Hn. apply take_app_exact.
Qed.

(** X10. [scanForMaliciousContent] reads the first 10000 bytes of the
    buffer only: the bytes after them never change its verdict. *)
Theorem scan_reads_first_10000 :
  forall h prefix rest,
    len prefix = 10000 ->
    scanForMaliciousContent h (prefix ++ rest) = scanForMaliciousContent h prefix.
Proof.
  intros h prefix rest Hp. unfold scanForMaliciousContent. cbv zeta.
  rewrite (substring_prefix prefix rest 10000 Hp).
  pose proof (substring_prefix prefix [] 10000 Hp) as E. rewrite app_nil_r in E.
  rewrite E. reflexivity.
Qed.

Lemma take_all {A} (l : list A) n : len l <= n -> take n l = l.
Proof.
  revert n. induction l as [| a l IH]; intros n Hn; cbn [take]; [reflexivity |].
  rewrite len_cons in Hn. pose proof (len_nonneg l).
  destruct (Z.leb_spec n 0); [lia |]. rewrite IH by lia. reflexivity.
Qed.

Lemma sanitizeFileName_safe fileName :
  Forall (fun c => Regex.isSafeNameChar c = true) fileName -> len fileName <= 100 ->
  sanitizeFileName fileName = fileName.
Proof.
  intros Hsafe Hlen. unfold sanitizeFileName. rewrite substring_from_zero by lia.
  unfold Regex.replace, Regex.re_unsafe_name_char. rewrite replace_oneOf.
  assert (E : flat_map (fun c => if negb (Regex.isSafeNameChar c) then str "_" else [c]) fileName
              = fileName).
  { clear Hlen. induction Hsafe as [| c l Hc _ IH]; [reflexivity |]. cbn [flat_map].
    rewrite Hc. cbn [negb]. cbv iota. cbn [app]. rewrite IH. reflexivity. }
  rewrite E. apply take_all, Hlen.
Qed.

(** X11. [sanitizeFileName] is idempotent, and the name it returns is
    never longer than the one it was given. *)
Theorem sanitizeFileName_idempotent :
  forall fileName,
    sanitizeFileName (sanitizeFileName fileName) = sanitizeFileName fileName
    /\ len (sanitizeFileName fileName) <= len fileName.
Proof.
  intros fileName. split.
  - apply sanitizeFileName_safe; [apply sanitizeFileName_chars | apply sanitizeFileName_length].
  - unfold sanitizeFileName. rewrite substring_from_zero by lia.
    etransitivity; [apply take_len_le_all |].
    unfold Regex.replace, Regex.re_unsafe_name_char. rewrite replace_oneOf.
    induction fileName as [| c l IH]; cbn [flat_map]; [lia |].
    rewrite len_app, len_cons. destruct (negb _); [change (len (str "_")) with 1 |
                                                   rewrite len_cons, len_nil]; lia.
Qed.

Lemma everyByteMatches_prefix expected rest :
  everyByteMatches expected (expected ++ rest) = true.
Proof.
  induction expected as [| b e IH]; cbn [everyByteMatches app]; [reflexivity |].
  rewrite IH, andb_true_r. destruct (Byte.eqb b b) eqn:E; [reflexivity |].
  exfalso. pose proof (Byte.byte_dec_lb (eq_refl b)) as H. congruence.
Qed.

Lemma everyByteMatches_take expected :
  forall buffer,
    everyByteMatches expected (take (len expected) buffer) = everyByteMatches expected buffer.
Proof.
  induction expected as [| b e IH]; intros buffer; [reflexivity |].
  destruct buffer as [| c f]; [reflexivity |]. cbn [take].
  rewrite len_cons. pose proof (len_nonneg e).
  destruct (Z.leb_spec (len e + 1) 0); [lia |].
  replace (len e + 1 - 1) with (len e) by lia.
  cbn [everyByteMatches]. rewrite IH. reflexivity.
Qed.

Lemma everyByteMatches_split expected :
  forall buffer,
    everyByteMatches expected buffer = true -> exists rest, buffer = expected ++ rest.
Proof.
  induction expected as [| b e IH]; intros buffer; [exists buffer; reflexivity |].
  destruct buffer as [| c f]; cbn [everyByteMatches]; [discriminate |].
  intros H. apply andb_true_iff in H. destruct H as [Hb He].
  apply Byte.byte_dec_bl in Hb. subst c. destruct (IH f He) as [rest ->].
  exists rest. reflexivity.
Qed.

(** X12. For a MIME type with a signature, [validateFileSignature] accepts
    a buffer exactly when the buffer starts with the bytes of the
    signature. *)
Theorem signature_check_accepts_the_prefix :
  forall buffer mimeType expected,
    JsObject.get signatures mimeType = JsObject.Own (Some expected) ->
    (validateFileSignature buffer mimeType = Ok tt
     <-> exists rest, buffer = expected ++ rest).
Proof.
  intros buffer mimeType expected Hsig. unfold validateFileSignature. rewrite Hsig.
  rewrite substring_from_zero by apply len_nonneg. rewrite everyByteMatches_take.
  split.
  - destruct (everyByteMatches expected buffer) eqn:E; [| discriminate].
    intros _. apply everyByteMatches_split, E.
  - intros [rest ->]. rewrite everyByteMatches_prefix. reflexivity.
Qed.

End ProcessorJobs.

Lemma test_oneOf (p : N -> bool) (s : jsstring) :
  forall prev, Regex.test_from (Regex.oneOf p) prev s = existsb p s.
Proof.
  induction s as [| c r IH]; intros prev; cbn [Regex.test_from existsb]; [reflexivity |].
  unfold Regex.oneOf at 1. destruct (p c); [reflexivity | apply IH].
Qed.

Lemma stripPrefix_app p s : stripPrefix p (p ++ s) = Some s.
Proof.
  induction p as [| a p IH]; cbn [stripPrefix app]; [destruct s; reflexivity |].
  rewrite N.eqb_refl. exact IH.
Qed.

Lemma test_lit_inside (p : jsstring) (a b : jsstring) :
  forall prev, Regex.test_from (Regex.lit p) prev (a ++ p ++ b) = true.
Proof.
  induction a as [| c a IH]; intros prev.
  - cbn [app]. destruct (p ++ b) eqn:E; cbn [Regex.test_from]; unfold Regex.lit;
      rewrite <- E, stripPrefix_app; reflexivity.
  - cbn [app Regex.test_from]. destruct (Regex.lit p prev _); [reflexivity | apply IH].
Qed.

Section FileNames.

Import SecureFileProcessor.

(** X13. A file name that [isValidFileName] accepts has 1 to 255 code
    units, none of them a character of the invalid class, holds no two dots
    in a row, and its part before the first dot is no reserved device name,
    in any letter case. *)
Theorem valid_file_names_are_plain :
  forall fileName,
    isValidFileName fileName = true ->
    1 <= len fileName <= 255
    /\ Forall (fun c => Regex.isInvalidNameChar c = false) fileName
    /\ (forall a b, fileName <> a ++ str ".." ++ b)
    /\ Regex.reserved_name (takeWhile (fun c => negb (N.eqb c 46)) fileName) = false.
Proof.
  intros fileName H. unfold isValidFileName in H.
  repeat (apply andb_true_iff in H; destruct H as [H ?Hc]).
  apply negb_true_iff in Hc, Hc0, Hc1. apply Z.leb_le in Hc2.
  pose proof (truthy_true_len _ H). split; [lia |].
  split.
  - unfold Regex.test, Regex.re_invalid_chars in Hc1. rewrite test_oneOf in Hc1.
    apply Forall_forall. intros c Hin.
    destruct (Regex.isInvalidNameChar c) eqn:E; [| reflexivity].
    assert (existsb Regex.isInvalidNameChar fileName = true)
      by (apply existsb_exists; eauto).
    congruence.
  - split; [| exact Hc].
    intros a b ->. unfold Regex.test, Regex.re_path_traversal in Hc0.
    rewrite test_lit_inside in Hc0. discriminate.
Qed.

Lemma valid_file_name_example :
  isValidFileName (str "notes/2024.final.txt") = true
  /\ (1 <= len (str "notes/2024.final.txt") <= 255
      /\ Forall (fun c => Regex.isInvalidNameChar c = false) (str "notes/2024.final.txt")
      /\ (forall a b, str "notes/2024.final.txt" <> a ++ str ".." ++ b)
      /\ Regex.reserved_name
           (takeWhile (fun c => negb (N.eqb c 46)) (str "notes/2024.final.txt")) = false).
Proof.
  assert (H : isValidFileName (str "notes/2024.final.txt") = true) by reflexivity.
  split; [exact H |]. exact (valid_file_names_are_plain _ H).
Defined.

End FileNames.

(** ** Extracted text, cleaned and sanitised *)

Section PairFacts.

Variables P Q : N -> bool.

Lemma hasPair_cons a s :
  hasPair P Q (a :: s) = ((P a && startsWith Q s) || hasPair P Q s)%bool.
Proof. destruct s as [| b r]; cbn [hasPair startsWith]; [rewrite andb_false_r |]; reflexivity. Qed.

Lemma hasPair_app_false a b :
  hasPair P Q (a ++ b) = false -> hasPair P Q a = false /\ hasPair P Q b = false.
Proof.
  induction a as [| x a IH]; cbn [app]; [intros H; split; [reflexivity | exact H] |].
  rewrite !hasPair_cons. intros H. apply orb_false_iff in H. destruct H as [Hx Hr].
  destruct (IH Hr) as [Ha Hb]. split; [| exact Hb].
  rewrite Ha, orb_false_r. destruct a as [| y a]; [apply andb_false_r |].
  exact Hx.
Qed.

End PairFacts.

Lemma hasPair_rev P Q s : hasPair P Q (rev s) = hasPair Q P s.
Proof.
  induction s as [| a s IH]; [reflexivity |].
  rewrite hasPair_cons. cbn [rev].
  destruct s as [| b r]; [cbn; rewrite andb_false_r; reflexivity |].
  cbn [startsWith].
  assert (H : forall l x y, hasPair P Q (l ++ [x; y]) = (hasPair P Q (l ++ [x]) || (P x && Q y))%bool).
  { clear. induction l as [| c l IH]; intros x y.
    - cbn. rewrite orb_false_r. reflexivity.
    - cbn [app]. rewrite !hasPair_cons, IH.
      destruct l as [| d l]; cbn [app startsWith]; rewrite ?orb_assoc; reflexivity. }
  cbn [rev] in *. rewrite <- app_assoc. cbn [app]. rewrite H, IH.
  rewrite (andb_comm (P b)). apply orb_comm.
Qed.

Lemma hasPair_dropWhile P Q p s : hasPair P Q s = false -> hasPair P Q (dropWhile p s) = false.
Proof.
  induction s as [| a s IH]; cbn [dropWhile]; [auto |].
  destruct (p a); [| auto]. rewrite hasPair_cons. intros H.
  apply orb_false_iff in H. apply IH, H.
Qed.

Lemma hasPair_trim P Q s : hasPair P Q s = false -> hasPair P Q (trim s) = false.
Proof.
  intros H. unfold trim, trimEnd, trimStart. rewrite hasPair_rev.
  apply hasPair_dropWhile. rewrite hasPair_rev. apply hasPair_dropWhile. exact H.
Qed.

Section Skipping.

Variable m : Regex.Matcher.
Variable repl : jsstring.

Lemma replace_from_skip s :
  forall k prev,
    (k <= length s)%nat ->
    Regex.replace_from m repl prev k s
    = Regex.replace_from m repl (lastOr prev (firstn k s)) O (skipn k s).
Proof.
  induction s as [| c r IH]; intros k prev Hk.
  - destruct k; [reflexivity | cbn in Hk; lia].
  - destruct k as [| k]; [reflexivity |].
    cbn [Regex.replace_from firstn skipn]. rewrite IH by (cbn in Hk; lia).
    f_equal. unfold lastOr. cbn [rev].
    destruct (rev (firstn k r)) as [| d l]; reflexivity.
Qed.

End Skipping.

Lemma takeWhile_dropWhile {A} (p : A -> bool) (s : list A) :
  takeWhile p s ++ dropWhile p s = s.
Proof.
  induction s as [| c r IH]; cbn [takeWhile dropWhile]; [reflexivity |].
  destruct (p c); [cbn [app]; rewrite IH |]; reflexivity.
Qed.

Lemma skipn_takeWhile {A} (p : A -> bool) (s : list A) :
  skipn (length (takeWhile p s)) s = dropWhile p s.
Proof.
  induction s as [| c r IH]; cbn [takeWhile dropWhile]; [reflexivity |].
  destruct (p c); [cbn [length skipn]; exact IH | reflexivity].
Qed.

Lemma lastIndexWhere_bound p s :
  forall i found j,
    Regex.lastIndexWhere p i s found = Some j ->
    found = Some j \/ (i <= j < i + length s)%nat.
Proof.
  induction s as [| c r IH]; intros i found j; cbn [Regex.lastIndexWhere].
  - intros ->. left. reflexivity.
  - intros H. apply IH in H. cbn [length]. destruct H as [H | H]; [| right; lia].
    destruct (p c); [injection H as <-; right; lia | left; exact H].
Qed.

Section LineEdges.

Let m := Regex.re_line_edges.

Lemma line_edges_nonspace prev c r : isSpace c = false -> m prev (c :: r) = None.
Proof. intros H. unfold m, Regex.re_line_edges. cbn [takeWhile]. rewrite H. reflexivity. Qed.

Lemma line_edges_match_length prev t k :
  m prev t = Some k -> (1 <= k <= length (takeWhile isSpace t))%nat.
Proof.
  unfold m, Regex.re_line_edges.
  destruct (takeWhile isSpace t) as [| a run] eqn:Erun; [discriminate |].
  destruct (match prev with None => true | Some p => Regex.isLineTerminator p end).
  - intros [= <-]. cbn [length]. lia.
  - destruct (dropWhile isSpace t); [intros [= <-]; cbn [length]; lia |].
    destruct (Regex.lastIndexWhere _ _ _ _) as [[| j] |] eqn:El; try discriminate.
    intros [= <-]. apply lastIndexWhere_bound in El.
    destruct El as [El | El]; [discriminate | lia].
Qed.

Lemma line_edges_at_start prev c r :
  atLineStart prev = true -> isSpace c = true ->
  m prev (c :: r) = Some (S (length (takeWhile isSpace r))).
Proof.
  intros Hp Hc. unfold m, Regex.re_line_edges. cbn [takeWhile]. rewrite Hc.
  unfold atLineStart in Hp. rewrite Hp. reflexivity.
Qed.

(** The output of the replacement: no line terminator stands before white
    space, and after a line start the output does not begin with white
    space. *)
Lemma line_edges_output n :
  forall s prev,
    (length s <= n)%nat ->
    hasPair Regex.isLineTerminator isSpace (Regex.replace_from m [] prev O s) = false
    /\ (atLineStart prev = true ->
        startsWith isSpace (Regex.replace_from m [] prev O s) = false).
Proof.
  induction n as [| n IH]; intros s prev Hn.
  - destruct s; [split; reflexivity | cbn in Hn; lia].
  - destruct s as [| c r]; [split; reflexivity |].
    cbn [length] in Hn. cbn [Regex.replace_from].
    destruct (m prev (c :: r)) as [k |] eqn:Em.
    + pose proof (line_edges_match_length _ _ _ Em) as Hk.
      destruct k as [| k]; [lia |]. cbn [app].
      pose proof (takeWhile_length isSpace (c :: r)) as Hrun.
      cbn [length] in Hrun.
      rewrite replace_from_skip by lia.
      destruct (atLineStart prev) eqn:Hstart.
      * (* the whole run is taken: what follows begins with no white space *)
        assert (Hc : isSpace c = true).
        { destruct (isSpace c) eqn:E; [reflexivity |].
          rewrite (line_edges_nonspace prev c r E) in Em. discriminate. }
        rewrite (line_edges_at_start prev c r Hstart Hc) in Em. injection Em as <-.
        rewrite skipn_takeWhile.
        destruct (dropWhile isSpace r) as [| d r2] eqn:Erest; [split; reflexivity |].
        pose proof (dropWhile_head isSpace r d r2 Erest) as Hd.
        cbn [Regex.replace_from]. rewrite (line_edges_nonspace _ d r2 Hd).
        assert (Hlen : (length r2 <= n)%nat).
        { pose proof (dropWhile_len_le isSpace r) as Hl. rewrite Erest in Hl.
          rewrite len_cons in Hl. unfold len in Hl. lia. }
        destruct (IH r2 (Some d) Hlen) as [Hpair Hfirst].
        split; [| intros _; exact Hd].
        rewrite hasPair_cons, Hpair, orb_false_r.
        assert (Hlt : Regex.isLineTerminator d = false).
        { unfold Regex.isLineTerminator. unfold isSpace, in_range in Hd.
          destruct (N.eqb_spec d 10) as [-> | _]; [discriminate |].
          destruct (N.eqb_spec d 13) as [-> | _]; [discriminate |].
          destruct (N.eqb_spec d 8232) as [-> | _]; [discriminate |].
          destruct (N.eqb_spec d 8233) as [-> | _]; [discriminate |].
          reflexivity. }
        rewrite Hlt. reflexivity.
      * split; [| discriminate].
        apply IH. rewrite length_skipn. lia.
    + destruct (IH r (Some c) ltac:(lia)) as [Hpair Hfirst].
      split.
      * rewrite hasPair_cons, Hpair, orb_false_r.
        destruct (Regex.isLineTerminator c) eqn:Hlt; [| reflexivity].
        cbn [andb]. apply Hfirst. exact Hlt.
      * intros Hstart. cbn [startsWith].
        destruct (isSpace c) eqn:Hc; [| reflexivity].
        rewrite (line_edges_at_start prev c r Hstart Hc) in Em. discriminate.
Qed.

Lemma line_edges_no_space_after_terminator s :
  hasPair Regex.isLineTerminator isSpace (Regex.replace Regex.re_line_edges [] s) = false.
Proof. apply (line_edges_output (length s) s None (Nat.le_refl _)). Qed.

End LineEdges.

Lemma replace_lit1 (a : N) (repl : jsstring) (s : jsstring) :
  forall prev,
    Regex.replace_from (Regex.lit [a]) repl prev O s
    = flat_map (fun c => if N.eqb a c then repl else [c]) s.
Proof.
  induction s as [| c r IH]; intros prev; [reflexivity |].
  cbn [Regex.replace_from flat_map]. unfold Regex.lit at 1. cbn [stripPrefix length].
  destruct (N.eqb a c); rewrite IH; reflexivity.
Qed.

Lemma Forall_dropWhile {A} (P : A -> Prop) p (s : list A) :
  Forall P s -> Forall P (dropWhile p s).
Proof.
  induction 1 as [| a s Ha Hs IH]; cbn [dropWhile]; [constructor |].
  destruct (p a); [exact IH | constructor; assumption].
Qed.

Lemma Forall_trim (P : N -> Prop) s : Forall P s -> Forall P (trim s).
Proof.
  intros H. unfold trim, trimEnd, trimStart.
  apply Forall_rev, Forall_dropWhile, Forall_rev, Forall_dropWhile, H.
Qed.

Section CleanedText.

Import FileExtractor.

Lemma cleanExtractedTextSecure_cases text0 :
  cleanExtractedTextSecure text0 = []
  \/ exists cut, len cut <= MAX_TEXT_LENGTH /\ len cut <= len text0
                 /\ cleanExtractedTextSecure text0 = trim (normalized cut).
Proof.
  unfold cleanExtractedTextSecure. destruct (truthy text0); cbn [negb]; [| left; reflexivity].
  right. cbv zeta. destruct (Z.ltb_spec MAX_TEXT_LENGTH (len text0)).
  - exists (substring 0 MAX_TEXT_LENGTH text0). split; [| split; [| reflexivity]].
    + rewrite substring_from_zero by (unfold MAX_TEXT_LENGTH; lia).
      apply take_len_le. unfold MAX_TEXT_LENGTH. lia.
    + rewrite substring_from_zero by (unfold MAX_TEXT_LENGTH; lia). apply take_len_le_all.
  - exists text0. split; [assumption | split; [lia | reflexivity]].
Qed.

Lemma literal_replaced (a : N) (repl s : jsstring) :
  Forall (fun c => c <> a) repl ->
  Forall (fun c => c <> a) (Regex.replace (Regex.lit [a]) repl s).
Proof.
  intros Hrepl. unfold Regex.replace. rewrite replace_lit1.
  apply Forall_forall. intros x Hx. apply in_flat_map in Hx. destruct Hx as (c & _ & Hc).
  destruct (N.eqb_spec a c) as [-> | Hne].
  - rewrite Forall_forall in Hrepl. apply Hrepl, Hc.
  - destruct Hc as [<- | []]. congruence.
Qed.

Lemma class_removed (p : N -> bool) (s : jsstring) :
  Forall (fun c => p c = false) (Regex.replace (Regex.oneOf p) [] s).
Proof.
  unfold Regex.replace. rewrite replace_oneOf.
  apply Forall_forall. intros x Hx. apply in_flat_map in Hx. destruct Hx as (c & _ & Hc).
  destruct (p c) eqn:E; [destruct Hc | destruct Hc as [<- | []]; exact E].
Qed.

Lemma normalized_chars text0 :
  Forall (fun c => Regex.isControl c = false /\ c <> 13%N) (normalized text0).
Proof.
  unfold normalized, Regex.replace.
  assert (Hcr : Forall (fun c => c <> 13%N)
                  (Regex.replace Regex.re_cr [10%N] (Regex.replace Regex.re_crlf [10%N] text0))).
  { apply literal_replaced. constructor; [discriminate | constructor]. }
  assert (Hctl : Forall (fun c => Regex.isControl c = false /\ c <> 13%N)
                   (Regex.replace Regex.re_control []
                      (Regex.replace Regex.re_cr [10%N]
                         (Regex.replace Regex.re_crlf [10%N] text0)))).
  { apply Forall_and.
    - apply class_removed.
    - apply replace_from_Forall; [constructor | exact Hcr]. }
  do 3 (apply replace_from_Forall; [repeat constructor; discriminate |]).
  exact Hctl.
Qed.

Lemma newline_run_match k (repl : jsstring) (t : jsstring) n :
  (length repl <= k)%nat ->
  (let run := length (takeWhile (N.eqb 10) t) in
   if (k <=? run)%nat then Some run else None) = Some n ->
  (length repl <= n <= length t)%nat.
Proof.
  intros Hk. cbv zeta. pose proof (takeWhile_length (N.eqb 10) t).
  destruct (Nat.leb_spec k (length (takeWhile (N.eqb 10) t))); [| discriminate].
  intros [= <-]. lia.
Qed.

Lemma normalized_len text0 : len (normalized text0) <= len text0.
Proof.
  unfold normalized.
  etransitivity; [apply replace_len |].
  { intros prev t k H. apply line_edges_match_length in H.
    pose proof (takeWhile_length isSpace t). cbn [length]. lia. }
  etransitivity; [apply replace_len |].
  { intros prev t k. unfold Regex.re_blanks2.
    pose proof (takeWhile_length Regex.isBlank t).
    destruct (Nat.leb_spec 2 (length (takeWhile Regex.isBlank t))); [| discriminate].
    intros [= <-]. change (length (str " ")) with 1%nat. lia. }
  etransitivity; [apply replace_len |].
  { intros prev t k. apply newline_run_match. cbn [length]. lia. }
  etransitivity; [apply replace_len |].
  { intros prev t k. unfold Regex.re_control, Regex.oneOf.
    destruct t as [| c r]; [discriminate |]. destruct (Regex.isControl c); [| discriminate].
    intros [= <-]. cbn [length]. lia. }
  etransitivity; [apply replace_len |].
  { intros prev t k H. apply lit_match in H. cbn [length] in *. lia. }
  apply replace_len.
  intros prev t k H. apply lit_match in H. cbn [length] in *. lia.
Qed.

Lemma cleaned_shape text0 :
  let c := cleanExtractedTextSecure text0 in
  Forall (fun ch => Regex.isControl ch = false /\ ch <> 13%N) c
  /\ trim c = c
  /\ len c <= MAX_TEXT_LENGTH /\ len c <= len text0
  /\ hasPair Regex.isLineTerminator isSpace c = false.
Proof.
  cbv zeta. destruct (cleanExtractedTextSecure_cases text0) as [-> | (cut & Hcut & Hle & ->)].
  - split; [constructor |]. split; [reflexivity |].
    rewrite len_nil. pose proof (len_nonneg text0). unfold MAX_TEXT_LENGTH.
    split; [lia |]. split; [lia | reflexivity].
  - pose proof (normalized_len cut). pose proof (trim_len_le (normalized cut)).
    split; [apply Forall_trim, normalized_chars |].
    split; [apply trim_idempotent |].
    split; [lia |]. split; [lia |].
    apply hasPair_trim. apply line_edges_no_space_after_terminator.
Qed.

(** X14. The text [cleanExtractedTextSecure] returns holds no control
    character and no carriage return, is trimmed (trimming it again changes
    nothing), has at most [MAX_TEXT_LENGTH] code units and is never longer
    than the text it was made from. *)
Theorem cleaned_text_is_plain :
  forall text0,
    let c := cleanExtractedTextSecure text0 in
    Forall (fun ch => Regex.isControl ch = false /\ ch <> 13%N) c
    /\ trim c = c
    /\ len c <= MAX_TEXT_LENGTH
    /\ len c <= len text0.
Proof.
  intros text0. destruct (cleaned_shape text0) as (H1 & H2 & H3 & H4 & _).
  cbv zeta. auto.
Qed.

(** Blank lines *)
Lemma no_pair_no_blank_line s :
  forall prev,
    hasPair Regex.isLineTerminator isSpace s = false ->
    unmatched Regex.re_blank_line prev s.
Proof.
  induction s as [| c r IH]; intros prev Hp; cbn [unmatched]; [split; reflexivity |].
  rewrite hasPair_cons in Hp. apply orb_false_iff in Hp. destruct Hp as [Hc Hr].
  split; [| apply IH, Hr].
  unfold Regex.re_blank_line.
  destruct (N.eqb_spec c 10) as [-> | Hne].
  - destruct r as [| d r']; [reflexivity |].
    cbn [startsWith] in Hc. change (Regex.isLineTerminator 10) with true in Hc.
    cbn [andb] in Hc. cbn [takeWhile]. rewrite Hc. reflexivity.
  - destruct c as [| p]; [reflexivity |].
    repeat (destruct p as [p | p |]; try reflexivity); exfalso; apply Hne; reflexivity.
Qed.

Lemma no_pair_no_newline_run k s :
  (2 <= k)%nat ->
  forall prev,
    hasPair Regex.isLineTerminator isSpace s = false ->
    unmatched (fun _ t => let n := length (takeWhile (N.eqb 10) t) in
                          if (k <=? n)%nat then Some n else None) prev s.
Proof.
  intros Hk. induction s as [| c r IH]; intros prev Hp; cbn [unmatched].
  - split; [| exact I]. cbn. destruct k; [lia | reflexivity].
  - rewrite hasPair_cons in Hp. apply orb_false_iff in Hp. destruct Hp as [Hc Hr].
    split; [| apply IH, Hr]. cbv zeta. cbn [takeWhile].
    destruct (N.eqb_spec 10 c) as [<- | Hne].
    + destruct r as [| d r']; cbn [takeWhile length].
      * destruct (Nat.leb_spec k 1); [lia | reflexivity].
      * cbn [startsWith] in Hc. change (Regex.isLineTerminator 10) with true in Hc.
        cbn [andb] in Hc.
        destruct (N.eqb_spec 10 d) as [<- | _]; [discriminate |].
        cbn [length]. destruct (Nat.leb_spec k 1); [lia | reflexivity].
    + cbn [length]. destruct k; [lia | reflexivity].
Qed.

Lemma no_cr_no_literal (p : jsstring) s :
  Forall (fun c => c <> 13%N) s ->
  forall prev, unmatched (Regex.lit (13%N :: p)) prev s.
Proof.
  induction 1 as [| c r Hc _ IH]; intros prev; cbn [unmatched]; [split; reflexivity |].
  split; [| apply IH]. unfold Regex.lit. cbn [stripPrefix].
  destruct (N.eqb_spec 13 c) as [<- | _]; [congruence | reflexivity].
Qed.

Lemma plain_text_is_normal s :
  Forall (fun c => c <> 13%N) s ->
  hasPair Regex.isLineTerminator isSpace s = false ->
  DocumentChunker.normalizeContent s = s
  /\ Regex.split Regex.re_blank_line s = [s].
Proof.
  intros Hcr Hpair. split.
  - unfold DocumentChunker.normalizeContent, Regex.replace.
    rewrite (unmatched_replace Regex.re_crlf _ s None (no_cr_no_literal [10%N] s Hcr None)).
    rewrite (unmatched_replace Regex.re_cr _ s None (no_cr_no_literal [] s Hcr None)).
    apply unmatched_replace.
    apply (no_pair_no_newline_run 4 s ltac:(lia) None Hpair).
  - unfold Regex.split. rewrite unmatched_split by (apply no_pair_no_blank_line, Hpair).
    reflexivity.
Qed.

(** X15. In the text [cleanExtractedTextSecure] returns no line terminator
    stands before white space: the replacement of [/^\s+|\s+$/gm] takes
    every blank line away, line breaks included.  So the normalisation of
    the chunker leaves that text as it is, and the paragraph split
    [/\n\s*\n/] of the chunker finds no paragraph break in it. *)
Theorem cleaned_text_has_no_blank_line :
  forall text0,
    let c := cleanExtractedTextSecure text0 in
    hasPair Regex.isLineTerminator isSpace c = false
    /\ DocumentChunker.normalizeContent c = c
    /\ Regex.split Regex.re_blank_line c = [c].
Proof.
  intros text0. destruct (cleaned_shape text0) as (Hchars & _ & _ & _ & Hpair).
  cbv zeta. split; [exact Hpair |].
  apply plain_text_is_normal; [| exact Hpair].
  eapply Forall_impl; [| exact Hchars]. cbn beta. intros c [_ Hc]. exact Hc.
Qed.

End CleanedText.

Section PairsKept.

Variables P Q : N -> bool.
Variable m : Regex.Matcher.
Variable repl : jsstring.

Hypothesis repl_first : startsWith Q repl = false.
Hypothesis repl_last : startsWith P (rev repl) = false.
Hypothesis repl_inside : hasPair P Q repl = false.
Hypothesis repl_nonempty : repl <> [].

Lemma hasPair_app a b :
  a <> [] ->
  hasPair P Q (a ++ b)
  = (hasPair P Q a || (startsWith P (rev a) && startsWith Q b) || hasPair P Q b)%bool.
Proof.
  induction a as [| x a IH]; [congruence |]. intros _. cbn [app].
  destruct a as [| y a].
  - cbn [app rev startsWith]. rewrite hasPair_cons. cbn [hasPair]. reflexivity.
  - rewrite hasPair_cons. change (startsWith Q ((y :: a) ++ b)) with (Q y).
    rewrite IH by congruence.
    rewrite (hasPair_cons P Q x (y :: a)). cbn [startsWith].
    assert (E : startsWith P (rev (x :: y :: a)) = startsWith P (rev (y :: a))).
    { cbn [rev]. destruct (rev a) as [| z l]; reflexivity. }
    rewrite E. rewrite !orb_assoc. reflexivity.
Qed.

Lemma replaced_first s prev :
  startsWith Q (Regex.replace_from m repl prev O s) = true -> startsWith Q s = true.
Proof.
  destruct s as [| c r]; cbn [Regex.replace_from]; [auto |].
  destruct (m prev (c :: r)) as [[| k] |]; cbn [startsWith]; auto.
  destruct repl as [| x l]; [congruence |]. cbn [app startsWith].
  cbn [startsWith] in repl_first. congruence.
Qed.

Lemma replaced_pairs s :
  forall prev skip,
    hasPair P Q s = false -> hasPair P Q (Regex.replace_from m repl prev skip s) = false.
Proof.
  induction s as [| c r IH]; intros prev skip Hs; cbn [Regex.replace_from]; [reflexivity |].
  rewrite hasPair_cons in Hs. apply orb_false_iff in Hs. destruct Hs as [Hc Hr].
  assert (Hkeep : hasPair P Q (c :: Regex.replace_from m repl (Some c) O r) = false).
  { rewrite hasPair_cons, (IH _ _ Hr), orb_false_r.
    destruct (P c); [| reflexivity]. cbn [andb] in *.
    destruct (startsWith Q (Regex.replace_from m repl (Some c) O r)) eqn:E; [| reflexivity].
    apply replaced_first in E. congruence. }
  destruct skip as [| k]; [| apply IH, Hr].
  destruct (m prev (c :: r)) as [[| k] |]; try exact Hkeep.
  rewrite hasPair_app by exact repl_nonempty.
  rewrite repl_inside, repl_last, (IH _ _ Hr). reflexivity.
Qed.

End PairsKept.

Section Pipeline.

Import SecureFileProcessor.

Lemma marker_plain m repl s :
  In repl markers -> plain s -> plain (Regex.replace m repl s).
Proof.
  intros Hin [Hchars Hpair]. split.
  - apply replace_from_Forall; [| exact Hchars].
    destruct Hin as [<- | [<- | [<- | [<- | []]]]];
      repeat constructor; discriminate.
  - destruct Hin as [<- | [<- | [<- | [<- | []]]]];
      (apply replaced_pairs; [reflexivity | reflexivity | reflexivity | discriminate | exact Hpair]).
Qed.

Lemma no_control_kept s :
  Forall (fun ch => Regex.isControl ch = false /\ ch <> 13%N) s ->
  Regex.replace Regex.re_control [] s = s.
Proof.
  intros H. unfold Regex.replace, Regex.re_control. rewrite replace_oneOf.
  induction H as [| c l [Hc _] _ IH]; [reflexivity |]. cbn [flat_map].
  rewrite Hc, IH. reflexivity.
Qed.

Lemma sanitizeContent_plain s : plain s -> plain (sanitizeContent s).
Proof.
  intros Hs. unfold sanitizeContent.
  assert (H4 : plain (Regex.replace Regex.re_event_handler (str "[EVENT_HANDLER_REMOVED]")
                        (Regex.replace Regex.re_vbscript (str "[VBSCRIPT_REMOVED]")
                           (Regex.replace Regex.re_javascript (str "[JAVASCRIPT_REMOVED]")
                              (Regex.replace Regex.re_script_element (str "[SCRIPT_REMOVED]") s))))).
  { repeat (apply marker_plain; [unfold markers; cbn [In]; tauto |]). exact Hs. }
  rewrite (no_control_kept _ (proj1 H4)). destruct H4 as [Hchars Hpair].
  split; [apply Forall_trim, Hchars | apply hasPair_trim, Hpair].
Qed.

Lemma sanitizeContent_trimmed s : trim (sanitizeContent s) = sanitizeContent s.
Proof. unfold sanitizeContent. apply trim_idempotent. Qed.

Lemma sanitizeContent_strips_controls :
  forall content,
    Forall (fun ch => Regex.isControl ch = false) (sanitizeContent content)
    /\ trim (sanitizeContent content) = sanitizeContent content.
Proof.
  intros content. split; [| apply sanitizeContent_trimmed].
  unfold sanitizeContent. apply Forall_trim. apply class_removed.
Qed.

Lemma pipeline_plain text0 :
  plain (sanitizeContent (FileExtractor.cleanExtractedTextSecure text0)).
Proof.
  apply sanitizeContent_plain.
  destruct (cleaned_shape text0) as (Hchars & _ & _ & _ & Hpair). split; assumption.
Qed.

Lemma extracted_text_is_one_paragraph :
  forall text0,
    let c := sanitizeContent (FileExtractor.cleanExtractedTextSecure text0) in
    Regex.split Regex.re_blank_line (DocumentChunker.normalizeContent c) = [c].
Proof.
  intros text0. cbv zeta. destruct (pipeline_plain text0) as [Hchars Hpair].
  assert (Hcr : Forall (fun c => c <> 13%N)
                  (sanitizeContent (FileExtractor.cleanExtractedTextSecure text0))).
  { eapply Forall_impl; [| exact Hchars]. cbn beta. intros c [_ Hc]. exact Hc. }
  destruct (plain_text_is_normal _ Hcr Hpair) as [-> ->]. reflexivity.
Qed.

End Pipeline.

Section LongDocuments.

Import DocumentChunker.

Lemma tight_truthy s : tight s -> truthy s = true.
Proof. intros [Hs _]. destruct s; [destruct Hs | reflexivity]. Qed.

Lemma trimmed_tight s : trim s = s -> truthy s = true -> tight s.
Proof. intros E H. rewrite <- E. apply trim_tight. rewrite E. exact H. Qed.

Lemma take_tight_start n s : 0 < n -> startsTight s -> startsTight (take n s).
Proof.
  intros Hn Hs. destruct s as [| c r]; [destruct Hs |]. cbn [take].
  destruct (Z.leb_spec n 0); [lia | exact Hs].
Qed.

Lemma trim_startsTight s : startsTight s -> truthy (trim s) = true.
Proof.
  intros Hs. unfold trim, trimEnd, trimStart. rewrite (startsTight_dropWhile _ Hs).
  destruct s as [| a r]; [destruct Hs |].
  cbn [rev]. rewrite (dropWhile_snoc isSpace (rev r) a Hs).
  rewrite rev_app_distr. reflexivity.
Qed.

(** The sections of a text that is one paragraph. *)
Lemma one_paragraph_sections c :
  tight c ->
  Regex.split Regex.re_blank_line (normalizeContent c) = [c] ->
  (10 <= len c <= 3000 -> splitIntoSectionsSecure c = [c])
  /\ (50000 < len c -> splitIntoSectionsSecure c = [trim (substring 0 50000 c)]).
Proof.
  intros Htight Hsplit. pose proof (tight_trim _ Htight) as Etrim.
  pose proof (tight_truthy _ Htight) as Htruthy.
  unfold splitIntoSectionsSecure. cbv zeta. rewrite Hsplit. cbn [filter]. rewrite Etrim.
  split; intros Hlen.
  - destruct (Z.leb_spec 10 (len c)); [| lia]. cbn [refineSections].
    destruct (Z.leb_spec (len c) 3000); [| lia]. cbn [app]. rewrite Etrim.
    destruct (MAX_CHUNK_COUNT * 2 <? len [c]); cbn [filter]; rewrite Etrim, Htruthy;
      (destruct (Z.ltb_spec 0 (len c)); [reflexivity | lia]).
  - destruct (Z.leb_spec 10 (len c)); [| lia]. cbn [refineSections].
    destruct (Z.leb_spec (len c) 3000); [lia |]. cbn [app].
    assert (Hlong : splitLongParagraphSecure c 3000 = [trim (substring 0 50000 c)]).
    { unfold splitLongParagraphSecure, splitIntoSentencesSecure. rewrite Htruthy.
      cbn [negb orb]. destruct (Z.ltb_spec 50000 (len c)); [| lia].
      cbn [longParagraphLoop truthy andb app]. rewrite andb_false_r.
      change (50 <? len (@nil jsstring)) with false. cbv iota. cbn [app].
      assert (Hcut : truthy (substring 0 50000 c) = true).
      { rewrite substring_from_zero by lia. destruct Htight as [Hs _].
        pose proof (take_tight_start 50000 c ltac:(lia) Hs) as Ht.
        destruct (take 50000 c); [destruct Ht | reflexivity]. }
      rewrite Hcut. reflexivity. }
    rewrite Hlong.
    assert (Hkeep : truthy (trim (substring 0 50000 c)) = true).
    { apply trim_startsTight. rewrite substring_from_zero by lia.
      apply take_tight_start; [lia | apply Htight]. }
    assert (Hfilter : filter (fun section : jsstring =>
                                (truthy section && (0 <? len (trim section)))%bool)
                             [trim (substring 0 50000 c)] = [trim (substring 0 50000 c)]).
    { cbn [filter]. rewrite trim_idempotent, Hkeep.
      pose proof (truthy_true_len _ Hkeep).
      destruct (Z.ltb_spec 0 (len (trim (substring 0 50000 c)))); [reflexivity | lia]. }
    destruct (MAX_CHUNK_COUNT * 2 <? _); exact Hfilter.
Qed.

(** X16. Of a text that went through [cleanExtractedTextSecure] and
    [sanitizeContent], [splitIntoSectionsSecure] makes one section: the text
    itself when it has 10 to 3000 code units, and the first 50000 code
    units of it, trimmed, when it has more than 50000.  No section holds
    what comes after them. *)
Theorem long_extracted_text_is_cut :
  forall text0,
    let c := SecureFileProcessor.sanitizeContent
               (FileExtractor.cleanExtractedTextSecure text0) in
    (10 <= len c <= 3000 -> splitIntoSectionsSecure c = [c])
    /\ (50000 < len c -> splitIntoSectionsSecure c = [trim (substring 0 50000 c)]).
Proof.
  intros text0. cbv zeta.
  set (c := SecureFileProcessor.sanitizeContent (FileExtractor.cleanExtractedTextSecure text0)).
  destruct (pipeline_plain text0) as [Hchars Hpair]. fold c in Hchars, Hpair.
  assert (Hcr : Forall (fun ch => ch <> 13%N) c).
  { eapply Forall_impl; [| exact Hchars]. cbn beta. intros ch [_ Hc]. exact Hc. }
  assert (Hsplit : Regex.split Regex.re_blank_line (normalizeContent c) = [c]).
  { destruct (plain_text_is_normal _ Hcr Hpair) as [-> ->]. reflexivity. }
  destruct (truthy c) eqn:Ht.
  - apply one_paragraph_sections; [| exact Hsplit].
    apply trimmed_tight; [apply sanitizeContent_trimmed | exact Ht].
  - destruct c; [| discriminate]. rewrite len_nil. split; intros; lia.
Qed.

End LongDocuments.

(** ** Extraction, the extraction cache and the encoders *)

Section Division.

Import Dbl.

(** The quotient [div_int a b] keeps: enough binary places to tell the
    multiples of [1 / b] apart, and a mantissa within one of the exact
    quotient, equal to it when the division is exact. *)
Lemma div_int_spec a b :
  0 < a < 2 ^ 52 -> 0 < b ->
  exists e q',
    div_int a b = mk q' e
    /\ 0 <= e /\ b <= 2 ^ e
    /\ a * 2 ^ e / b <= q' <= a * 2 ^ e / b + 1
    /\ ((a * 2 ^ e) mod b = 0 -> q' = a * 2 ^ e / b).
Proof.
  intros [Ha Ha52] Hb. unfold div_int.
  destruct (Z.leb_spec a 0); [lia |].
  assert (Hbits_a : 1 <= bits a <= 52).
  { rewrite bits_log2 by lia. pose proof (Z.log2_nonneg a).
    assert (Z.log2 a < 52) by (apply Z.log2_lt_pow2; lia). lia. }
  assert (Hbits_b : b < 2 ^ bits b).
  { rewrite bits_log2 by lia. pose proof (Z.log2_spec b Hb) as [_ Hlt].
    replace (Z.succ (Z.log2 b)) with (Z.log2 b + 1) in Hlt by lia. exact Hlt. }
  assert (Hbb : 1 <= bits b).
  { rewrite bits_log2 by lia. pose proof (Z.log2_nonneg b). lia. }
  cbv zeta.
  set (e0 := 52 + bits b - bits a).
  set (e := if a * 2 ^ e0 / b <? 2 ^ 52 then e0 + 1 else e0).
  assert (He : bits b <= e) by (subst e e0; destruct (_ <? _); lia).
  assert (Hpow : b <= 2 ^ e).
  { assert (2 ^ bits b <= 2 ^ e) by (apply Z.pow_le_mono_r; lia). lia. }
  exists e. eexists. split; [reflexivity |].
  split; [lia |]. split; [exact Hpow |].
  set (n := a * 2 ^ e). set (q := n / b). set (r := n mod b).
  split.
  - destruct (_ || _)%bool; lia.
  - intros Hr. subst r. rewrite Hr.
    destruct (Z.ltb_spec b (2 * 0)); [lia |].
    destruct (Z.eqb_spec (2 * 0) b); [lia |]. reflexivity.
Qed.

Lemma ceil_of_quotient a b :
  0 <= a < 2 ^ 52 -> 0 < b ->
  Math_ceil (div_int a b) = (a + b - 1) / b.
Proof.
  intros [Ha Ha52] Hb.
  destruct (Z.eq_dec a 0) as [-> | Hne].
  { unfold div_int, Math_ceil. cbn [Z.leb Z.compare mant scale].
    change (2 ^ 0) with 1. rewrite Z.div_1_r.
    symmetry. apply Z.div_small. lia. }
  destruct (div_int_spec a b ltac:(lia) Hb) as (e & q' & -> & He & Hpow & Hq & Hexact).
  unfold Math_ceil. cbn [mant scale].
  assert (Hp : 0 < 2 ^ e) by (apply Z.pow_pos_nonneg; lia).
  set (k := (a + b - 1) / b).
  assert (Hk : (k - 1) * b < a <= k * b).
  { pose proof (Z.div_mod (a + b - 1) b ltac:(lia)) as D.
    pose proof (Z.mod_pos_bound (a + b - 1) b Hb) as R. fold k in D. nia. }
  set (n := a * 2 ^ e) in *.
  pose proof (Z.div_mod n b ltac:(lia)) as Dn.
  pose proof (Z.mod_pos_bound n b Hb) as Rn.
  assert (Hlow : (k - 1) * 2 ^ e < q').
  { assert ((k - 1) * 2 ^ e * b + b <= n) by (subst n; nia).
    assert ((k - 1) * 2 ^ e + 1 <= n / b).
    { apply Z.div_le_lower_bound; [lia |]. lia. }
    lia. }
  assert (Hup : q' <= k * 2 ^ e).
  { destruct (Z.eq_dec a (k * b)) as [Eq | Nq].
    - assert (En : n = k * 2 ^ e * b) by (subst n; rewrite Eq; lia).
      assert (Hmod : n mod b = 0) by (rewrite En; apply Z.mod_mul; lia).
      rewrite (Hexact Hmod). rewrite En, Z.div_mul by lia. lia.
    - assert (Hn : n <= (k * 2 ^ e - 1) * b) by (subst n; nia).
      assert (n / b <= k * 2 ^ e - 1).
      { apply (Z.div_le_mono _ _ b Hb) in Hn. rewrite Z.div_mul in Hn by lia. exact Hn. }
      lia. }
  symmetry. apply Z.div_unique with (r := q' + 2 ^ e - 1 - 2 ^ e * k); lia.
Qed.

End Division.

Section ExtractorHelpers.

Import FileExtractor.

(** X17. [sanitizeSheetName] returns a name of at most 50 code units that
    holds none of the characters it strips, and it returns a name that is
    such already as it is. *)
Theorem sanitizeSheetName_is_safe :
  forall name,
    Forall (fun c => Regex.isSheetNameMarkup c = false) (sanitizeSheetName name)
    /\ len (sanitizeSheetName name) <= 50
    /\ (Forall (fun c => Regex.isSheetNameMarkup c = false) name -> len name <= 50 ->
        sanitizeSheetName name = name).
Proof.
  intros name. unfold sanitizeSheetName. rewrite substring_from_zero by lia.
  split; [apply take_Forall, class_removed |].
  split; [apply take_len_le; lia |].
  intros Hsafe Hlen. unfold Regex.replace, Regex.re_sheet_markup. rewrite replace_oneOf.
  assert (E : flat_map (fun c => if Regex.isSheetNameMarkup c then [] else [c]) name = name).
  { clear Hlen. induction Hsafe as [| c l Hc _ IH]; [reflexivity |]. cbn [flat_map].
    rewrite Hc, IH. reflexivity. }
  rewrite E. apply take_all, Hlen.
Qed.

(** X18. Every entry of the object [sanitizeMetadata] returns has a key of
    the allow-list, and its value is the first 200 code units of a string
    that the input holds under that key as a property of its own; the value
    is not empty. *)
Theorem sanitizeMetadata_keeps_the_allow_list :
  forall metadata key v,
    In (key, v) (sanitizeMetadata metadata) ->
    In key allowedKeys
    /\ 1 <= len v <= 200
    /\ exists s, JsObject.own metadata (str key) = Some (VString s)
                 /\ v = substring 0 200 s.
Proof.
  intros metadata key v Hin. unfold sanitizeMetadata in Hin.
  apply in_flat_map in Hin. destruct Hin as (k & Hk & Hv).
  unfold JsObject.get in Hv.
  destruct (JsObject.own metadata (str k)) as [[s |] |] eqn:Eown.
  - destruct (truthy s) eqn:Hs; [| destruct Hv].
    destruct Hv as [[= <- <-] | []].
    split; [exact Hk |]. split; [| exists s; split; [exact Eown | reflexivity]].
    rewrite substring_from_zero by lia.
    pose proof (take_len_le s 200 ltac:(lia)) as Hup.
    assert (Hpos : 1 <= len (take 200 s)).
    { destruct s as [| c r]; [discriminate |]. cbn [take].
      change (200 <=? 0) with false. cbv iota. rewrite len_cons.
      pose proof (len_nonneg (take (200 - 1) r)). lia. }
    lia.
  - destruct Hv.
  - destruct (existsb _ _); destruct Hv.
Qed.

Lemma sanitizeMetadata_example :
  In ("title", str "Report")
     (sanitizeMetadata [("Producer", VString (str "x")); ("title", VString (str "Report"))])
  /\ (In "title" allowedKeys
      /\ 1 <= len (str "Report") <= 200
      /\ exists s,
          JsObject.own [("Producer", VString (str "x")); ("title", VString (str "Report"))]
                       (str "title") = Some (VString s)
          /\ str "Report" = substring 0 200 s).
Proof.
  assert (Hin : In ("title", str "Report")
                   (sanitizeMetadata [("Producer", VString (str "x"));
                                      ("title", VString (str "Report"))]))
    by (left; reflexivity).
  split; [exact Hin |].
  exact (sanitizeMetadata_keeps_the_allow_list _ _ _ Hin).
Defined.

End ExtractorHelpers.

Section Extractions.

Import FileExtractor.
Import FileExtractor.Extraction.

Lemma bufferEquals_length a : forall b, bufferEquals a b = true -> length a = length b.
Proof.
  induction a as [| x a IH]; intros [| y b]; cbn [bufferEquals]; try discriminate; [reflexivity |].
  intros H. apply andb_true_iff in H. destruct H as [_ H]. cbn [length]. f_equal. apply IH, H.
Qed.

(** X19. [extractDOCXSecure] rejects every file that is not exactly 4 bytes
    long with [Invalid DOCX file signature]: [fs.readFile] takes no [start]
    and [end], so the whole file is read, and [Buffer.equals] compares all
    of it with the 4 bytes of the ZIP header. *)
Theorem extractDOCXSecure_rejects_real_files :
  forall d filePath buffer,
    readFile d filePath = Ok buffer ->
    len buffer <> 4 ->
    extractDOCXSecure d filePath
    = Throw (mkError ErrorK (str "Invalid DOCX file signature")).
Proof.
  intros d filePath buffer Hread Hlen. unfold extractDOCXSecure. rewrite Hread. cbn [bind].
  destruct (bufferEquals buffer zipSignature) eqn:E; [| reflexivity].
  apply bufferEquals_length in E. exfalso. apply Hlen. unfold len. rewrite E. reflexivity.
Qed.

Lemma pages_of_clean_text text0 :
  Dbl.Math_ceil (Dbl.div_int (len (cleanExtractedTextSecure text0)) 2000)
  = (len (cleanExtractedTextSecure text0) + 1999) / 2000.
Proof.
  destruct (cleaned_shape text0) as (_ & _ & Hmax & _ & _). cbv zeta in Hmax.
  pose proof (len_nonneg (cleanExtractedTextSecure text0)).
  rewrite ceil_of_quotient; [f_equal; lia | | lia].
  unfold MAX_TEXT_LENGTH in Hmax. split; [lia |].
  assert (10 * 1024 * 1024 < 2 ^ 52) by reflexivity. lia.
Qed.

(** X20. [extractTXTSecure] on a file that can be read: a zero byte among
    the first 1000 bytes makes it reject the file as binary; without one it
    resolves, the text being the cleaned decoding of the whole file and the
    page count the length of that text over 2000, rounded up, which is 5243
    at most. *)
Theorem extractTXTSecure_outcomes :
  forall d filePath buffer,
    readFile d filePath = Ok buffer ->
    (In Byte.x00 (firstn 1000 buffer) ->
     extractTXTSecure d filePath
     = Throw (mkError ErrorK (str "File appears to be binary, not text")))
    /\ (~ In Byte.x00 (firstn 1000 buffer) ->
        exists r,
          extractTXTSecure d filePath = Ok r
          /\ text r = cleanExtractedTextSecure (toUtf8 d buffer)
          /\ pageCount r = (len (text r) + 1999) / 2000
          /\ pageCount r <= 5243).
Proof.
  intros d filePath buffer Hread. unfold extractTXTSecure. rewrite Hread. cbn [bind].
  assert (Hcut : substring 0 (Z.min (len buffer) 1000) buffer = firstn 1000 buffer).
  { pose proof (len_nonneg buffer). rewrite substring_from_zero by lia.
    destruct (Z.le_ge_cases (len buffer) 1000).
    - rewrite Z.min_l by lia. rewrite take_all by lia.
      symmetry. apply firstn_all2. unfold len in *. lia.
    - rewrite Z.min_r by lia. change 1000 with (Z.of_nat 1000). apply take_firstn. }
  rewrite Hcut. split.
  - intros Hin.
    assert (E : existsb (Byte.eqb Byte.x00) (firstn 1000 buffer) = true).
    { apply existsb_exists. exists Byte.x00. split; [exact Hin |].
      apply Byte.byte_dec_lb. reflexivity. }
    rewrite E. reflexivity.
  - intros Hnot.
    destruct (existsb (Byte.eqb Byte.x00) (firstn 1000 buffer)) eqn:E.
    + exfalso. apply Hnot. apply existsb_exists in E. destruct E as (x & Hx & Hb).
      apply Byte.byte_dec_bl in Hb. subst x. exact Hx.
    + cbv zeta. eexists. split; [reflexivity |]. cbn [text pageCount].
      split; [reflexivity |]. rewrite pages_of_clean_text. split; [reflexivity |].
      destruct (cleaned_shape (toUtf8 d buffer)) as (_ & _ & Hmax & _ & _).
      cbv zeta in Hmax. unfold MAX_TEXT_LENGTH in Hmax.
      apply Z.lt_succ_r. apply Z.div_lt_upper_bound; lia.
Qed.

(** X21. [extractPDFSecure] on a file that can be read: it rejects a file
    whose first 4 bytes are not [%PDF] before the parser runs; and when it
    resolves, the parser did return, the text is the cleaned text of the
    parser, and the page count is [MAX_PAGES_PDF] at most. *)
Theorem extractPDFSecure_outcomes :
  forall d filePath buffer,
    readFile d filePath = Ok buffer ->
    (firstn 4 buffer <> pdfSignature ->
     extractPDFSecure d filePath
     = Throw (mkError ErrorK (str "Invalid PDF file signature")))
    /\ (forall r,
           extractPDFSecure d filePath = Ok r ->
           pageCount r <= MAX_PAGES_PDF
           /\ exists data,
               pdfParse d buffer = Ok data
               /\ text r = cleanExtractedTextSecure (pdfText data)).
Proof.
  intros d filePath buffer Hread. unfold extractPDFSecure. rewrite Hread. cbn [bind].
  split.
  - intros Hsig. destruct (bufferEquals (substring 0 4 buffer) pdfSignature) eqn:E;
      [| reflexivity].
    exfalso. apply Hsig. rewrite substring_from_zero in E by lia.
    change 4 with (Z.of_nat 4) in E. rewrite take_firstn in E.
    clear Hsig Hread. unfold pdfSignature in *.
    destruct (firstn 4 buffer) as [| b0 [| b1 [| b2 [| b3 [| b4 l]]]]];
      cbn [bufferEquals] in E; try discriminate;
      try (rewrite ?andb_false_r in E; discriminate).
    repeat (apply andb_true_iff in E; destruct E as [?H E]).
    repeat match goal with
           | H : Byte.eqb _ _ = true |- _ => apply Byte.byte_dec_bl in H; subst
           end.
    reflexivity.
  - intros r. destruct (negb _); [discriminate |].
    destruct (pdfParse d buffer) as [data |]; cbn [bind]; [| discriminate].
    intros [= <-]. cbn [pageCount text]. split; [apply Z.le_min_r |].
    exists data. split; reflexivity.
Qed.

End Extractions.

Section Cache.

Import FileExtractor.

Lemma JsMap_delete_head {V} (k : jsstring) (v : V) (m : JsMap.t V) :
  JsMap.size (JsMap.delete k ((k, v) :: m)) = JsMap.size ((k, v) :: m) - 1.
Proof.
  cbn [JsMap.delete]. rewrite str_eqb_refl. unfold JsMap.size. rewrite len_cons. lia.
Qed.

(** X22. [cacheResult] keeps a cache of at most [cacheMaxSize] entries at
    most that large, and the cache it leaves holds the result under the key,
    stamped with the current time. *)
Theorem cacheResult_keeps_the_cache_bounded :
  forall h fx key r,
    JsMap.size (extractionCache fx) <= cacheMaxSize ->
    JsMap.size (extractionCache (cacheResult h fx key r)) <= cacheMaxSize
    /\ JsMap.get key (extractionCache (cacheResult h fx key r))
       = Some {| result := r; timestamp := now h |}.
Proof.
  intros h fx key r Hsize. unfold cacheResult. cbv zeta. cbn [extractionCache].
  split; [| apply JsMap_get_set_same].
  etransitivity; [apply JsMap_set_size |].
  destruct (Z.leb_spec cacheMaxSize (JsMap.size (extractionCache fx))).
  - destruct (extractionCache fx) as [| [oldestKey v] m] eqn:E.
    + unfold JsMap.size, cacheMaxSize in *. rewrite len_nil in *. lia.
    + rewrite JsMap_delete_head. lia.
  - lia.
Qed.

(** X23. Round trip of the cache: after [cacheResult] stored a result under
    the key of a file (the MD5 of its path, size and modification time),
    [extractContent] on that file, for a supported MIME type and before the
    entry is [cacheExpiry] old, returns that result and leaves the cache as
    it is; no extractor runs. *)
Theorem cached_result_is_returned :
  forall h h' fx filePath mimeType fileType size mtime r,
    JsObject.get supportedTypes mimeType = JsObject.Own fileType ->
    stat h' filePath = Ok (size, mtime) ->
    now h' - now h < cacheExpiry ->
    let key := md5 h' (filePath ++ decimal size ++ decimal mtime) in
    extractContent h' (cacheResult h fx key r) filePath mimeType
    = (Ok r, cacheResult h fx key r).
Proof.
  intros h h' fx filePath mimeType fileType size mtime r Htype Hstat Hage. cbv zeta.
  unfold extractContent. rewrite Htype. unfold checkCache. rewrite Hstat.
  cbn [resolve lookupScope cacheCheckScope String.eqb Ascii.eqb Bool.eqb].
  unfold cacheResult at 1. cbv zeta. cbn [extractionCache].
  rewrite JsMap_get_set_same. cbn [timestamp result].
  destruct (Z.ltb_spec (now h' - now h) cacheExpiry); [reflexivity | lia].
Qed.

End Cache.

Section MapLookups.
Context {V : Type}.

Lemma JsMap_get_set_other (k k' : jsstring) (v : V) (m : JsMap.t V) :
  str_eqb k k' = false -> JsMap.get k (JsMap.set k' v m) = JsMap.get k m.
Proof.
  intros Hne. induction m as [| [k'' v''] m IH]; cbn [JsMap.set JsMap.get].
  - rewrite Hne. reflexivity.
  - destruct (str_eqb k' k'') eqn:E; cbn [JsMap.get].
    + apply str_eqb_eq in E. subst k''. rewrite Hne. reflexivity.
    + rewrite IH. reflexivity.
Qed.

End MapLookups.

Section Encoders.

Import UniversalTokenCounter.

Lemma loadEncodersFor_keys tk models :
  forall acc encs k,
    loadEncodersFor tk models acc = Ok encs ->
    existsb (str_eqb k) models = false ->
    JsMap.get k encs = JsMap.get k acc.
Proof.
  induction models as [| model rest IH]; intros acc encs k; cbn [loadEncodersFor existsb].
  - intros [= <-] _. reflexivity.
  - destruct (tryCatch _ _) as [enc |]; cbn [bind]; [| discriminate].
    intros Hload Hk. apply orb_false_iff in Hk. destruct Hk as [Hne Hrest].
    rewrite (IH _ _ _ Hload Hrest). apply JsMap_get_set_other, Hne.
Qed.

Lemma initialize_encoders tk u k :
  initialize tk = Ok u ->
  existsb (str_eqb k) openaiModels = false ->
  JsMap.get k (encoders u) = None.
Proof.
  unfold initialize, loadOpenAIEncoders.
  destruct (loadEncodersFor tk openaiModels []) as [encs |] eqn:Hload; cbn [bind];
    [| discriminate].
  destruct (encoding_for_model tk (str "gpt-4")); cbn [bind]; [| discriminate].
  intros [= <-] Hk. cbn [encoders fst].
  rewrite (loadEncodersFor_keys tk openaiModels [] encs k Hload Hk). reflexivity.
Qed.

(** X24. When tiktoken cannot load the GPT-4 encoding, [initialize] rejects
    with that error, and the wrapper [TokenCounter.countTokens] answers
    [Math.ceil(text.length / 4)] for every text and every model. *)
Theorem initialize_needs_the_gpt4_encoding :
  forall tk e,
    encoding_for_model tk (str "gpt-4") = Throw e ->
    initialize tk = Throw e
    /\ forall text model,
        TokenCounter.countTokens (initialize tk) text model = Ok (ceil_div4 (len text)).
Proof.
  intros tk e Hgpt4.
  assert (Hinit : initialize tk = Throw e).
  { unfold initialize, loadOpenAIEncoders, openaiModels. cbn [List.map loadEncodersFor].
    rewrite Hgpt4. reflexivity. }
  split; [exact Hinit |]. intros text model.
  unfold TokenCounter.countTokens, countTokens. rewrite Hinit. reflexivity.
Qed.

(** What [countTokens] returns for a model that the database holds and for
    which no encoder of its own was loaded. *)
Lemma countTokens_by_fallback u text model spec :
  normalizeModelName model = model ->
  JsMap.get model (modelDatabase u) = Some spec ->
  JsMap.get model (encoders u) = None ->
  countTokens (Ok u) text model
  = if negb (truthy text) then Ok 0
    else toks <- fallbackEncoder u text ;;
         Ok (if hasEncoder spec then len toks else scaleTokens (len toks) spec).
Proof.
  intros Hnorm Hdb Henc. unfold countTokens. cbn [bind].
  destruct (negb (truthy text)); [reflexivity |].
  rewrite Hnorm, Hdb, Henc. destruct (hasEncoder spec); reflexivity.
Qed.

(** X25. An alias of a model is counted with the fallback (GPT-4) encoder,
    also when the model has an encoder of its own: encoders are stored under
    the model ids only.  The count is the number of tokens for a model with
    an encoder, and that number scaled by the ratio of the model otherwise;
    the empty text counts 0. *)
Theorem aliases_count_with_the_fallback_encoder :
  forall tk u text model als alias spec,
    initialize tk = Ok u ->
    In (model, als) aliases -> In alias als ->
    JsObject.own modelSpecs (str model) = Some spec ->
    countTokens (initialize tk) text (str alias)
    = if negb (truthy text) then Ok 0
      else toks <- fallbackEncoder u text ;;
           Ok (if hasEncoder spec then len toks else scaleTokens (len toks) spec).
Proof.
  intros tk u text model als alias spec Hinit Hmodel Halias Hspec.
  rewrite Hinit.
  pose proof (initialize_database tk u Hinit) as Hdb.
  unfold aliases in Hmodel. cbn [In] in Hmodel.
  repeat (destruct Hmodel as [[= <- <-] | Hmodel];
          [cbn [In] in Halias;
           repeat (destruct Halias as [<- | Halias];
                   [apply countTokens_by_fallback;
                    [reflexivity
                    | rewrite Hdb, <- Hspec; reflexivity
                    | apply (initialize_encoders tk u _ Hinit); reflexivity] |]);
           destruct Halias |]).
  destruct Hmodel.
Qed.

End Encoders.

(** ** The statements above on sample inputs *)

Lemma len_repeat {A} (a : A) n : 0 <= n -> len (repeat a (Z.to_nat n)) = n.
Proof. intros H. unfold len. rewrite repeat_length. lia. Qed.

Section Witnesses.

Import DocumentChunker.

Lemma chunk_indices_example :
  exists chunks,
    chunkDocument OperationFirst Samples.unitCounter Samples.twoParagraphs (MaxInt 100)
      Samples.gpt4 = Ok chunks
    /\ List.map index chunks = [1; 2]
    /\ StronglySorted Z.lt (List.map index chunks)
    /\ Forall (fun c => 1 <= index c) chunks.
Proof.
  eexists. split; [vm_compute; reflexivity |]. split; [reflexivity |].
  apply (chunk_indices_increase OperationFirst Samples.unitCounter Samples.twoParagraphs
           (MaxInt 100) Samples.gpt4).
  vm_compute. reflexivity.
Defined.

Lemma character_pieces_example :
  0 <= 100 /\ len Samples.longWord < 2 ^ 53
  /\ len (splitByCharacterLimitSecure Samples.longWord 100) <= 20
  /\ Forall (fun p : jsstring * TokenCountArg =>
               tight (fst p)
               /\ 10 <= len (fst p) <= Z.min (100 * 3) 10000 + 1
               /\ snd p = Unawaited)
            (splitByCharacterLimitSecure Samples.longWord 100).
Proof.
  assert (H1 : 0 <= 100) by lia.
  assert (H2 : len Samples.longWord < 2 ^ 53) by (vm_compute; reflexivity).
  split; [exact H1 |]. split; [exact H2 |].
  exact (character_pieces_are_bounded Samples.longWord 100 H1 H2).
Defined.

Lemma validateInput_prefix_example :
  len Samples.tenThousandUnits = 10000
  /\ len (Samples.tenThousandUnits ++ str "<script>") <= MAX_DOCUMENT_LENGTH
  /\ len (Samples.tenThousandUnits ++ str "plain") <= MAX_DOCUMENT_LENGTH
  /\ validateInput (Samples.tenThousandUnits ++ str "<script>") (MaxInt 6000) Samples.gpt4
     = validateInput (Samples.tenThousandUnits ++ str "plain") (MaxInt 6000) Samples.gpt4.
Proof.
  assert (H1 : len Samples.tenThousandUnits = 10000) by (apply len_repeat; lia).
  assert (H2 : len (Samples.tenThousandUnits ++ str "<script>") <= MAX_DOCUMENT_LENGTH).
  { rewrite len_app, H1. vm_compute. discriminate. }
  assert (H3 : len (Samples.tenThousandUnits ++ str "plain") <= MAX_DOCUMENT_LENGTH).
  { rewrite len_app, H1. vm_compute. discriminate. }
  split; [exact H1 |]. split; [exact H2 |]. split; [exact H3 |].
  exact (validateInput_reads_first_10000 Samples.tenThousandUnits (str "<script>")
           (str "plain") (MaxInt 6000) Samples.gpt4 H1 H2 H3).
Defined.

End Witnesses.

Section ProcessorWitnesses.

Import SecureFileProcessor.

Lemma processFile_release_example :
  validateFileSecurely Samples.processorHost Samples.pdfBytes (str "report.pdf")
    Samples.pdfMime = Ok tt
  /\ JsMap.size (activeProcessing Samples.idleProcessor) < MAX_CONCURRENT_PROCESSING
  /\ JsMap.get (randomUUID Samples.processorHost) (activeProcessing Samples.idleProcessor)
     = None
  /\ (let sp' := snd (processFile Samples.processorHost Samples.idleProcessor
                        Samples.pdfBytes (str "report.pdf") Samples.pdfMime
                        Samples.noOptions) in
      activeProcessing sp' = activeProcessing Samples.idleProcessor
      /\ (events sp' = events Samples.idleProcessor
          \/ exists path,
              events sp' = events Samples.idleProcessor
                           ++ [TempFileWritten path;
                               ExtractorInvoked path Samples.pdfMime;
                               TempFileDeleted path])).
Proof.
  assert (H1 : validateFileSecurely Samples.processorHost Samples.pdfBytes
                 (str "report.pdf") Samples.pdfMime = Ok tt) by (vm_compute; reflexivity).
  assert (H2 : JsMap.size (activeProcessing Samples.idleProcessor)
               < MAX_CONCURRENT_PROCESSING) by (vm_compute; reflexivity).
  assert (H3 : JsMap.get (randomUUID Samples.processorHost)
                         (activeProcessing Samples.idleProcessor) = None) by reflexivity.
  split; [exact H1 |]. split; [exact H2 |]. split; [exact H3 |].
  exact (processFile_releases_what_it_took Samples.processorHost Samples.idleProcessor
           Samples.pdfBytes (str "report.pdf") Samples.pdfMime Samples.noOptions H1 H2 H3).
Defined.

Lemma scan_prefix_example :
  len Samples.tenThousandBytes = 10000
  /\ scanForMaliciousContent Samples.processorHost
       (Samples.tenThousandBytes ++ Samples.textBytes)
     = scanForMaliciousContent Samples.processorHost Samples.tenThousandBytes.
Proof.
  assert (H1 : len Samples.tenThousandBytes = 10000) by (apply len_repeat; lia).
  split; [exact H1 |].
  exact (scan_reads_first_10000 Samples.processorHost Samples.tenThousandBytes
           Samples.textBytes H1).
Defined.

Lemma signature_check_example :
  JsObject.get signatures Samples.pdfMime
  = JsObject.Own (Some [Byte.x25; Byte.x50; Byte.x44; Byte.x46])
  /\ (validateFileSignature Samples.pdfBytes Samples.pdfMime = Ok tt
      <-> exists rest, Samples.pdfBytes = [Byte.x25; Byte.x50; Byte.x44; Byte.x46] ++ rest).
Proof.
  assert (H1 : JsObject.get signatures Samples.pdfMime
               = JsObject.Own (Some [Byte.x25; Byte.x50; Byte.x44; Byte.x46]))
    by reflexivity.
  split; [exact H1 |].
  exact (signature_check_accepts_the_prefix Samples.pdfBytes Samples.pdfMime _ H1).
Defined.

End ProcessorWitnesses.

Section ExtractorWitnesses.

Import FileExtractor.
Import FileExtractor.Extraction.

Lemma extractDOCXSecure_example :
  readFile (Samples.diskOf Samples.zipBytes) (str "/tmp/upload.tmp") = Ok Samples.zipBytes
  /\ len Samples.zipBytes <> 4
  /\ extractDOCXSecure (Samples.diskOf Samples.zipBytes) (str "/tmp/upload.tmp")
     = Throw (mkError ErrorK (str "Invalid DOCX file signature")).
Proof.
  assert (H1 : readFile (Samples.diskOf Samples.zipBytes) (str "/tmp/upload.tmp")
               = Ok Samples.zipBytes) by reflexivity.
  assert (H2 : len Samples.zipBytes <> 4) by (vm_compute; discriminate).
  split; [exact H1 |]. split; [exact H2 |].
  exact (extractDOCXSecure_rejects_real_files _ _ _ H1 H2).
Defined.

Lemma extractTXTSecure_example :
  readFile (Samples.diskOf Samples.textBytes) (str "/tmp/upload.tmp")
  = Ok Samples.textBytes
  /\ (In Byte.x00 (firstn 1000 Samples.textBytes) ->
      extractTXTSecure (Samples.diskOf Samples.textBytes) (str "/tmp/upload.tmp")
      = Throw (mkError ErrorK (str "File appears to be binary, not text")))
  /\ (~ In Byte.x00 (firstn 1000 Samples.textBytes) ->
      exists r,
        extractTXTSecure (Samples.diskOf Samples.textBytes) (str "/tmp/upload.tmp") = Ok r
        /\ text r = cleanExtractedTextSecure
                      (toUtf8 (Samples.diskOf Samples.textBytes) Samples.textBytes)
        /\ pageCount r = (len (text r) + 1999) / 2000
        /\ pageCount r <= 5243).
Proof.
  assert (H1 : readFile (Samples.diskOf Samples.textBytes) (str "/tmp/upload.tmp")
               = Ok Samples.textBytes) by reflexivity.
  split; [exact H1 |].
  exact (extractTXTSecure_outcomes _ _ _ H1).
Defined.

Lemma extractPDFSecure_example :
  readFile (Samples.diskOf Samples.pdfBytes) (str "/tmp/upload.tmp")
  = Ok Samples.pdfBytes
  /\ (firstn 4 Samples.pdfBytes <> pdfSignature ->
      extractPDFSecure (Samples.diskOf Samples.pdfBytes) (str "/tmp/upload.tmp")
      = Throw (mkError ErrorK (str "Invalid PDF file signature")))
  /\ (forall r,
         extractPDFSecure (Samples.diskOf Samples.pdfBytes) (str "/tmp/upload.tmp") = Ok r ->
         pageCount r <= MAX_PAGES_PDF
         /\ exists data,
             pdfParse (Samples.diskOf Samples.pdfBytes) Samples.pdfBytes = Ok data
             /\ text r = cleanExtractedTextSecure (pdfText data)).
Proof.
  assert (H1 : readFile (Samples.diskOf Samples.pdfBytes) (str "/tmp/upload.tmp")
               = Ok Samples.pdfBytes) by reflexivity.
  split; [exact H1 |].
  exact (extractPDFSecure_outcomes _ _ _ H1).
Defined.

Lemma cacheResult_example :
  JsMap.size (extractionCache FileExtractor.new) <= cacheMaxSize
  /\ JsMap.size (extractionCache
                   (cacheResult Samples.extractorHost FileExtractor.new (str "k")
                                Samples.extraction)) <= cacheMaxSize
  /\ JsMap.get (str "k")
       (extractionCache (cacheResult Samples.extractorHost FileExtractor.new (str "k")
                                     Samples.extraction))
     = Some {| result := Samples.extraction; timestamp := now Samples.extractorHost |}.
Proof.
  assert (H1 : JsMap.size (extractionCache FileExtractor.new) <= cacheMaxSize)
    by (vm_compute; discriminate).
  split; [exact H1 |].
  exact (cacheResult_keeps_the_cache_bounded Samples.extractorHost FileExtractor.new
           (str "k") Samples.extraction H1).
Defined.

Lemma cached_result_example :
  JsObject.get supportedTypes Samples.pdfMime = JsObject.Own pdf
  /\ stat Samples.extractorHost (str "/tmp/upload.tmp") = Ok (2048, 1699999999000)
  /\ now Samples.extractorHost - now Samples.extractorHost < cacheExpiry
  /\ (let key := md5 Samples.extractorHost
                     (str "/tmp/upload.tmp" ++ decimal 2048 ++ decimal 1699999999000) in
      extractContent Samples.extractorHost
        (cacheResult Samples.extractorHost FileExtractor.new key Samples.extraction)
        (str "/tmp/upload.tmp") Samples.pdfMime
      = (Ok Samples.extraction,
         cacheResult Samples.extractorHost FileExtractor.new key Samples.extraction)).
Proof.
  assert (H1 : JsObject.get supportedTypes Samples.pdfMime = JsObject.Own pdf) by reflexivity.
  assert (H2 : stat Samples.extractorHost (str "/tmp/upload.tmp")
               = Ok (2048, 1699999999000)) by reflexivity.
  assert (H3 : now Samples.extractorHost - now Samples.extractorHost < cacheExpiry)
    by (vm_compute; reflexivity).
  split; [exact H1 |]. split; [exact H2 |]. split; [exact H3 |].
  exact (cached_result_is_returned Samples.extractorHost Samples.extractorHost
           FileExtractor.new (str "/tmp/upload.tmp") Samples.pdfMime pdf 2048 1699999999000
           Samples.extraction H1 H2 H3).
Defined.

End ExtractorWitnesses.

Section CounterWitnesses.

Import UniversalTokenCounter.

Lemma initialize_failure_example :
  encoding_for_model Samples.failingTiktoken (str "gpt-4") = Throw Samples.noEncoding
  /\ initialize Samples.failingTiktoken = Throw Samples.noEncoding
  /\ forall text model,
      TokenCounter.countTokens (initialize Samples.failingTiktoken) text model
      = Ok (ceil_div4 (len text)).
Proof.
  assert (H1 : encoding_for_model Samples.failingTiktoken (str "gpt-4")
               = Throw Samples.noEncoding) by reflexivity.
  split; [exact H1 |].
  exact (initialize_needs_the_gpt4_encoding Samples.failingTiktoken Samples.noEncoding H1).
Defined.

Lemma alias_example :
  exists u spec,
    initialize (Samples.tiktokenOf Samples.wordEncoder) = Ok u
    /\ In ("claude-3-opus", ["claude-opus"; "opus"]) aliases
    /\ In "opus" ["claude-opus"; "opus"]
    /\ JsObject.own modelSpecs (str "claude-3-opus") = Some spec
    /\ countTokens (initialize (Samples.tiktokenOf Samples.wordEncoder))
         (str "hello wide world") (str "opus")
       = if negb (truthy (str "hello wide world")) then Ok 0
         else toks <- fallbackEncoder u (str "hello wide world") ;;
              Ok (if hasEncoder spec then len toks else scaleTokens (len toks) spec).
Proof.
  eexists. eexists.
  split; [vm_compute; reflexivity |].
  assert (H2 : In ("claude-3-opus", ["claude-opus"; "opus"]) aliases)
    by (unfold aliases; cbn [In]; tauto).
  assert (H3 : In "opus" ["claude-opus"; "opus"]) by (cbn [In]; tauto).
  split; [exact H2 |]. split; [exact H3 |].
  split; [reflexivity |].
  apply (aliases_count_with_the_fallback_encoder
           (Samples.tiktokenOf Samples.wordEncoder) _ (str "hello wide world")
           "claude-3-opus" ["claude-opus"; "opus"] "opus" _).
  - vm_compute. reflexivity.
  - exact H2.
  - exact H3.
  - reflexivity.
Defined.

End CounterWitnesses.

(** ** Supported models and chunk sizes *)

Section SupportedModels.

Import UniversalTokenCounter.

Lemma listedIds_app a b : listedIds (a ++ b) = listedIds a ++ listedIds b.
Proof. unfold listedIds. rewrite map_app, concat_app, map_app. reflexivity. Qed.

Lemma listedIds_cons k l r :
  listedIds ((k, l) :: r) = List.map Supported.id l ++ listedIds r.
Proof. unfold listedIds. cbn [List.map snd concat]. apply map_app. Qed.

Lemma own_listed (models : list (string * list Supported.t)) k listed m :
  JsObject.own models k = Some listed -> In m listed -> In (Supported.id m) (listedIds models).
Proof.
  induction models as [| [k' l] r IH]; cbn [JsObject.own]; [discriminate |].
  rewrite listedIds_cons. intros H Hm. apply in_or_app.
  destruct (str_eqb (str k') k).
  - injection H as ->. left. apply in_map, Hm.
  - right. apply IH; assumption.
Qed.

Lemma setOwn_ids (models : list (string * list Supported.t)) k listed e x :
  JsObject.own models (str k) = Some listed ->
  In x (listedIds (setOwn models k (listed ++ [e])))
  <-> In x (listedIds models) \/ x = Supported.id e.
Proof.
  induction models as [| [k' l] r IH]; cbn [JsObject.own setOwn]; [discriminate |].
  destruct (str_eqb (str k') (str k)).
  - intros [= ->]. rewrite !listedIds_cons, map_app. cbn [List.map].
    rewrite !in_app_iff. cbn [In]. intuition congruence.
  - intros H. rewrite !listedIds_cons, !in_app_iff, (IH H). tauto.
Qed.

Lemma listModel_ids models modelId spec models' x :
  listModel models modelId spec = Ok models' ->
  In x (listedIds models') <-> In x (listedIds models) \/ x = modelId.
Proof.
  unfold listModel, JsObject.get.
  destruct (JsObject.own models (str (orElse (category spec) "other"))) as [listed |] eqn:Hown.
  - destruct (existsb _ listed) eqn:Hfound.
    + intros [= <-]. split; [tauto |]. intros [H | ->]; [exact H |].
      apply existsb_exists in Hfound. destruct Hfound as (m & Hm & Heq).
      apply str_eqb_eq in Heq. rewrite <- Heq. exact (own_listed _ _ _ _ Hown Hm).
    + intros [= <-]. rewrite (setOwn_ids _ _ _ _ x Hown). reflexivity.
  - destruct (existsb _ JsObject.prototypeKeys); [discriminate |].
    intros [= <-]. rewrite listedIds_app, in_app_iff.
    unfold listedIds. cbn [List.map snd concat app In Supported.id supportedEntry].
    intuition congruence.
Qed.

Lemma listModels_ids entries : forall models models' x,
  listModels entries models = Ok models' ->
  In x (listedIds models') <-> In x (listedIds models) \/ In x (List.map fst entries).
Proof.
  induction entries as [| [modelId spec] rest IH]; intros models models' x;
    cbn [listModels List.map fst In].
  - intros [= <-]. tauto.
  - destruct (listModel models modelId spec) as [models1 |] eqn:H1; cbn [bind];
      [| discriminate].
    intros H. rewrite (IH _ _ x H), (listModel_ids _ _ _ _ x H1). intuition congruence.
Qed.

Lemma JsMap_get_key (V : Type) (k : jsstring) (m : JsMap.t V) :
  (exists v, JsMap.get k m = Some v) <-> In k (List.map fst m).
Proof.
  induction m as [| [k' v'] r IH]; cbn [JsMap.get List.map fst In].
  - split; [intros [v H]; discriminate | tauto].
  - destruct (str_eqb k k') eqn:E.
    + apply str_eqb_eq in E. subst k'. split; [tauto | intros _; eauto].
    + rewrite IH. split; [tauto |]. intros [-> | H]; [| exact H].
      rewrite str_eqb_refl in E. discriminate.
Qed.

Lemma JsMap_get_value (V : Type) (k : jsstring) (m : JsMap.t V) v :
  JsMap.get k m = Some v -> In v (List.map snd m).
Proof.
  induction m as [| [k' v'] r IH]; cbn [JsMap.get List.map snd In]; [discriminate |].
  destruct (str_eqb k k'); [intros [= ->]; tauto | intros H; right; apply IH, H].
Qed.

(** The database of the source lists without a throw: none of its
    categories names a property of [Object.prototype]. *)
Lemma database_lists : exists models, listModels loadModelDatabase [] = Ok models.
Proof.
  destruct (listModels loadModelDatabase []) as [models | e] eqn:E; [eauto |].
  vm_compute in E. discriminate.
Qed.

Lemma existsb_str_eqb (ids : list jsstring) (model : jsstring) :
  existsb (fun id => str_eqb id model) ids = true <-> In model ids.
Proof.
  rewrite existsb_exists. split.
  - intros (id & Hin & Heq). apply str_eqb_eq in Heq. subst. exact Hin.
  - intros H. exists model. split; [exact H | apply str_eqb_refl].
Qed.

(** Once the counter is initialised, [isModelSupported] tells whether the
    name is a key of the database, letter for letter. *)
Lemma isModelSupported_keys tk u model :
  initialize tk = Ok u ->
  TokenCounter.isModelSupported (initialize tk) model = true
  <-> exists spec, JsMap.get model loadModelDatabase = Some spec.
Proof.
  intros Hinit. rewrite Hinit. unfold TokenCounter.isModelSupported,
    TokenCounter.getSupportedModels, getSupportedModels. cbn [bind].
  rewrite (initialize_database tk u Hinit).
  destruct database_lists as [models Hlist]. rewrite Hlist.
  rewrite existsb_str_eqb, JsMap_get_key.
  rewrite <- (app_nil_r (List.map fst loadModelDatabase)).
  assert (Hids : List.map TokenCounter.listedId
                   (concat (List.map snd
                      (List.map (fun entry => (fst entry, List.map TokenCounter.Listed (snd entry)))
                                models)))
                 = listedIds models).
  { unfold listedIds. clear Hlist. induction models as [| [k l] r IH]; [reflexivity |].
    cbn [List.map snd fst concat]. rewrite !map_app, IH. f_equal.
    rewrite map_map. reflexivity. }
  rewrite Hids, (listModels_ids _ _ _ model Hlist). cbn [listedIds List.map concat In].
  rewrite in_app_iff. cbn [In]. tauto.
Qed.


(** The windows of the database. *)
Lemma database_windows k spec :
  JsMap.get k loadModelDatabase = Some spec -> 4096 <= contextWindow spec <= 2000000.
Proof.
  intros H. apply JsMap_get_value in H.
  assert (Hall : forallb (fun spec => (4096 <=? contextWindow spec)
                                      && (contextWindow spec <=? 2000000))%bool
                         (List.map snd loadModelDatabase) = true) by (vm_compute; reflexivity).
  rewrite forallb_forall in Hall. specialize (Hall _ H).
  apply andb_true_iff in Hall. destruct Hall as [H1 H2].
  apply Z.leb_le in H1, H2. lia.
Qed.

Lemma windowOf_bounds k : 4096 <= windowOf (JsMap.get k loadModelDatabase) <= 2000000.
Proof.
  unfold windowOf. destruct (JsMap.get k loadModelDatabase) as [spec |] eqn:E; [| lia].
  pose proof (database_windows _ _ E). destruct (Z.eqb_spec (contextWindow spec) 0); lia.
Qed.

(** X26. [isModelSupported] answers [true] exactly when the counter is
    initialised and the name, as it is given, is a key of the model
    database (a model id or an alias); the name is not normalised first, and
    a counter that failed to initialise supports no model. *)
Theorem isModelSupported_means_a_database_key :
  forall tk model,
    TokenCounter.isModelSupported (initialize tk) model = true
    <-> (exists u, initialize tk = Ok u)
        /\ (exists spec, JsMap.get model loadModelDatabase = Some spec).
Proof.
  intros tk model. destruct (initialize tk) as [u | e] eqn:Hinit.
  - rewrite <- Hinit, (isModelSupported_keys tk u model Hinit). split.
    + intros H. split; [rewrite Hinit; eauto | exact H].
    + tauto.
  - cbn [TokenCounter.isModelSupported]. split; [discriminate |].
    intros [[u Hu] _]. discriminate.
Qed.



End SupportedModels.

Section ChunkSizes.

Import Dbl.
Import UniversalTokenCounter.

(** A number of at most 53 bits, scaled by a power of two, is a double. *)
Lemma round53_exact n sc :
  0 <= n < 2 ^ 53 -> 0 <= sc -> round53 (n * 2 ^ sc) = n * 2 ^ sc.
Proof.
  intros [Hn Hlt] Hsc.
  destruct (Z.eq_dec n 0) as [-> | Hne]; [reflexivity |].
  assert (Hpos : 0 < n) by lia.
  assert (Hp : 0 < 2 ^ sc) by (apply Z.pow_pos_nonneg; lia).
  unfold round53. rewrite bits_log2 by nia.
  rewrite Z.log2_mul_pow2 by lia.
  assert (Hlog : Z.log2 n < 53) by (apply Z.log2_lt_pow2; lia).
  pose proof (Z.log2_nonneg n) as Hlog0.
  cbv zeta. set (s := sc + Z.log2 n + 1 - 53).
  destruct (Z.leb_spec s 0) as [Hs | Hs]; [reflexivity |].
  assert (Hs_sc : s <= sc) by (unfold s; lia).
  assert (Hsplit : n * 2 ^ sc = (n * 2 ^ (sc - s)) * 2 ^ s).
  { rewrite <- Z.mul_assoc, <- Z.pow_add_r by lia. do 2 f_equal. lia. }
  assert (Hps : 0 < 2 ^ s) by (apply Z.pow_pos_nonneg; lia).
  assert (Hph : 0 < 2 ^ (s - 1)) by (apply Z.pow_pos_nonneg; lia).
  rewrite Hsplit. rewrite Z.div_mul, Z.mod_mul by lia.
  destruct (Z.ltb_spec (2 ^ (s - 1)) 0); [lia |].
  destruct (Z.eqb_spec 0 (2 ^ (s - 1))); [lia |].
  cbn [orb andb]. lia.
Qed.

(** A fifth of an integer, in doubles: [Math.floor(w * 0.2)] is the
    integer quotient. *)
Lemma floor_of_a_fifth w :
  0 <= w < 2 ^ 50 -> Math_floor (mul_int w d0_2) = w / 5.
Proof.
  intros Hw. unfold mul_int, d0_2, Math_floor. cbn [mant scale].
  set (k := w / 5).
  assert (Hk : 5 * k <= w < 5 * k + 5).
  { unfold k. pose proof (Z.div_mod w 5 ltac:(lia)). pose proof (Z.mod_pos_bound w 5 ltac:(lia)).
    lia. }
  change (2 ^ 50) with 1125899906842624 in Hw.
  assert (Hlo : k * 2 ^ 55 <= round53 (w * 7205759403792794)).
  { rewrite <- (round53_exact k 55) by (change (2 ^ 53) with 9007199254740992; lia).
    apply round53_monotone. change (2 ^ 55) with 36028797018963968. lia. }
  assert (Hhi : round53 (w * 7205759403792794) <= (8 * k + 7) * 2 ^ 52).
  { rewrite <- (round53_exact (8 * k + 7) 52) by (change (2 ^ 53) with 9007199254740992; lia).
    apply round53_monotone. change (2 ^ 52) with 4503599627370496. lia. }
  symmetry. apply (Z.div_unique_pos _ _ k (round53 (w * 7205759403792794) - k * 2 ^ 55)).
  - change (2 ^ 55) with 36028797018963968 in *. change (2 ^ 52) with 4503599627370496 in *. lia.
  - lia.
Qed.

(** X28. With the default buffer of 0.2, the chunk size an initialised
    counter recommends is the window of the model less a fifth of it,
    rounded down: the double product [contextWindow * 0.2] loses nothing.
    The window is 8192 for a model the database does not hold; the size lies
    between 3277 and the window, so the minimum of 1000 never applies. *)
Theorem recommended_chunk_size_is_four_fifths :
  forall tk u model,
    initialize tk = Ok u ->
    let w := windowOf (JsMap.get (normalizeModelName model) loadModelDatabase) in
    getOptimalChunkSize (initialize tk) model d0_2 = Ok (w - w / 5)
    /\ TokenCounter.getRecommendedChunkSize (initialize tk) model d0_2 = Num (w - w / 5)
    /\ 3277 <= w - w / 5 <= w.
Proof.
  intros tk u model Hinit w.
  pose proof (windowOf_bounds (normalizeModelName model)) as Hw. fold w in Hw.
  assert (Hsize : getOptimalChunkSize (initialize tk) model d0_2 = Ok (w - w / 5)).
  { rewrite Hinit. unfold getOptimalChunkSize. cbn [bind].
    rewrite (initialize_database tk u Hinit). fold w.
    rewrite floor_of_a_fifth by (change (2 ^ 50) with 1125899906842624; lia).
    f_equal. pose proof (Z.div_mod w 5 ltac:(lia)). pose proof (Z.mod_pos_bound w 5 ltac:(lia)).
    lia. }
  split; [exact Hsize |]. split.
  - unfold TokenCounter.getRecommendedChunkSize. rewrite Hsize. reflexivity.
  - pose proof (Z.div_mod w 5 ltac:(lia)). pose proof (Z.mod_pos_bound w 5 ltac:(lia)). lia.
Qed.

(** The percentage [Math.round((t / w) * 100)] on either side of 100. *)
Lemma utilization_sides t w :
  t < 2 ^ 52 -> 0 < w ->
  0 <= Math_round (mul_int 100 (div_int t w))
  /\ (t <= w -> Math_round (mul_int 100 (div_int t w)) <= 100)
  /\ (w <= t -> 100 <= Math_round (mul_int 100 (div_int t w))).
Proof.
  intros Ht Hw.
  destruct (Z.leb_spec t 0) as [Hneg | Hpos].
  { unfold div_int. destruct (Z.leb_spec t 0); [| lia].
    unfold mul_int, Math_round. cbn [mant scale]. change (round53 (100 * 0)) with 0.
    cbn. repeat split; intros; lia. }
  destruct (div_int_spec t w ltac:(lia) Hw) as (e & q' & -> & He & Hwe & Hq & Hexact).
  unfold mul_int. cbn [mant scale].
  assert (Hp : 0 < 2 ^ e) by (apply Z.pow_pos_nonneg; lia).
  assert (Hfloor : 0 <= t * 2 ^ e / w) by (apply Z.div_pos; nia).
  assert (H100 : round53 (100 * 2 ^ e) = 100 * 2 ^ e).
  { apply round53_exact; [change (2 ^ 53) with 9007199254740992; lia | lia]. }
  split; [| split].
  - unfold Math_round. cbn [mant scale]. apply Z.div_pos; [| lia].
    pose proof (round53_nonneg (100 * q') ltac:(lia)). lia.
  - intros Hle.
    assert (Hq' : q' <= 2 ^ e).
    { destruct (Z.eq_dec t w) as [-> | Hne].
      - rewrite Hexact by (rewrite Z.mul_comm; apply Z.mod_mul; lia).
        rewrite Z.mul_comm, Z.div_mul by lia. lia.
      - assert (t * 2 ^ e / w < 2 ^ e) by (apply Z.div_lt_upper_bound; nia). lia. }
    assert (Hr : round53 (100 * q') <= 100 * 2 ^ e).
    { rewrite <- H100. apply round53_monotone. lia. }
    unfold Math_round. cbn [mant scale].
    apply Z.lt_succ_r. apply Z.div_lt_upper_bound; lia.
  - intros Hge.
    assert (Hq' : 2 ^ e <= q').
    { assert (2 ^ e <= t * 2 ^ e / w) by (apply Z.div_le_lower_bound; nia). lia. }
    assert (Hr : 100 * 2 ^ e <= round53 (100 * q')).
    { rewrite <- H100. apply round53_monotone. lia. }
    unfold Math_round. cbn [mant scale].
    apply Z.div_le_lower_bound; lia.
Qed.

(** X29. The analysis of a text is consistent about the context window:
    [exceedsContext] tells whether the token count is above the window; when
    it is, the utilisation reported is 100 percent or more, and when it is
    not, the utilisation is between 0 and 100.  The window reported is that
    of the database, or 8192: between 4096 and 2000000. *)
Theorem analysis_utilization_agrees_with_the_window :
  forall tk text model a,
    analyzeText (initialize tk) text model = Ok a ->
    Analysis.tokenCount a < 2 ^ 52 ->
    4096 <= Analysis.contextWindow a <= 2000000
    /\ Analysis.exceedsContext a = (Analysis.contextWindow a <? Analysis.tokenCount a)
    /\ (Analysis.exceedsContext a = true -> 100 <= Analysis.utilizationPercent a)
    /\ (Analysis.exceedsContext a = false -> 0 <= Analysis.utilizationPercent a <= 100).
Proof.
  intros tk text model a. unfold analyzeText.
  destruct (initialize tk) as [u | e] eqn:Hinit; cbn [bind]; [| discriminate].
  destruct (countTokens (Ok u) text model) as [tokenCount |]; cbn [bind]; [| discriminate].
  destruct (estimateInputCost (Ok u) tokenCount model) as [inputCost |]; cbn [bind];
    [| discriminate].
  destruct (estimateOutputCost (Ok u) tokenCount model) as [outputCost |]; cbn [bind];
    [| discriminate].
  rewrite (initialize_database tk u Hinit).
  pose proof (windowOf_bounds (normalizeModelName model)) as Hw.
  set (w := windowOf _) in *.
  intros [= <-]. cbn [Analysis.tokenCount Analysis.contextWindow Analysis.exceedsContext
                       Analysis.utilizationPercent].
  intros Ht.
  destruct (utilization_sides tokenCount w Ht ltac:(lia)) as (H0 & Hfit & Hover).
  split; [exact Hw |]. split; [reflexivity |]. split.
  - intros Hex. apply Z.ltb_lt in Hex. apply Hover. lia.
  - intros Hex. apply Z.ltb_ge in Hex. split; [exact H0 | apply Hfit, Hex].
Qed.

End ChunkSizes.

(** ** Costs *)

Section Costs.

Import Dbl.
Import UniversalTokenCounter.

(** The mantissa of a quotient has 53 bits, and is within one unit of the
    exact quotient. *)
Lemma div_int_mant a b :
  0 < a < 2 ^ 52 -> 0 < b ->
  exists e q',
    div_int a b = mk q' e
    /\ 0 <= e /\ 2 ^ 52 <= q'
    /\ - b <= q' * b - a * 2 ^ e <= b.
Proof.
  intros [Ha Ha52] Hb. unfold div_int.
  destruct (Z.leb_spec a 0); [lia |].
  assert (Hbits_a : 1 <= bits a <= 52).
  { rewrite bits_log2 by lia. pose proof (Z.log2_nonneg a).
    assert (Z.log2 a < 52) by (apply Z.log2_lt_pow2; lia). lia. }
  assert (Hlow_a : 2 ^ (bits a - 1) <= a).
  { rewrite bits_log2 by lia. replace (Z.log2 a + 1 - 1) with (Z.log2 a) by lia.
    apply Z.log2_spec. lia. }
  assert (Hbits_b : b < 2 ^ bits b).
  { rewrite bits_log2 by lia. pose proof (Z.log2_spec b Hb) as [_ Hlt].
    replace (Z.succ (Z.log2 b)) with (Z.log2 b + 1) in Hlt by lia. exact Hlt. }
  assert (Hbb : 1 <= bits b).
  { rewrite bits_log2 by lia. pose proof (Z.log2_nonneg b). lia. }
  cbv zeta.
  set (e0 := 52 + bits b - bits a).
  assert (He0 : 1 <= e0) by (subst e0; lia).
  assert (H51 : 2 ^ 51 <= a * 2 ^ e0 / b).
  { apply Z.div_le_lower_bound; [lia |].
    assert (E : 2 ^ (bits a - 1) * 2 ^ e0 = 2 ^ 51 * 2 ^ bits b).
    { rewrite <- !Z.pow_add_r by lia. f_equal. subst e0. lia. }
    assert (0 < 2 ^ e0) by (apply Z.pow_pos_nonneg; lia).
    assert (0 < 2 ^ 51) by reflexivity.
    nia. }
  set (e := if a * 2 ^ e0 / b <? 2 ^ 52 then e0 + 1 else e0).
  assert (He : 1 <= e) by (subst e; destruct (_ <? _); lia).
  assert (H52 : 2 ^ 52 <= a * 2 ^ e / b).
  { subst e. destruct (Z.ltb_spec (a * 2 ^ e0 / b) (2 ^ 52)) as [Hlt | Hge]; [| exact Hge].
    rewrite Z.pow_add_r by lia. change (2 ^ 1) with 2.
    apply Z.div_le_lower_bound; [lia |].
    pose proof (Z.mul_div_le (a * 2 ^ e0) b Hb).
    change (2 ^ 52) with (2 * 2 ^ 51). nia. }
  exists e. eexists. split; [reflexivity |].
  split; [lia |].
  set (n := a * 2 ^ e) in *.
  pose proof (Z.div_mod n b ltac:(lia)) as Dn.
  pose proof (Z.mod_pos_bound n b Hb) as Rn.
  split; destruct (_ || _)%bool; nia.
Qed.

(** Rounding to 53 bits moves a number by no more than its 2^53-th part. *)
Lemma round53_error x :
  0 <= x -> - x <= (round53 x - x) * 2 ^ 53 <= x.
Proof.
  intros Hx. unfold round53.
  destruct (Z.eq_dec x 0) as [-> | Hne]; [cbn; lia |].
  assert (Hpos : 0 < x) by lia.
  rewrite bits_log2 by lia. cbv zeta.
  replace (Z.log2 x + 1 - 53) with (Z.log2 x - 52) by lia.
  destruct (Z.leb_spec (Z.log2 x - 52) 0) as [Hs | Hs]; [lia |].
  destruct (leading_bits x (Z.log2 x - 52) Hpos eq_refl Hs) as (E1 & E2 & Hq).
  set (s := Z.log2 x - 52) in *.
  assert (Hps : 0 < 2 ^ (s - 1)) by (apply Z.pow_pos_nonneg; lia).
  assert (E : 2 ^ s = 2 * 2 ^ (s - 1)).
  { replace s with (1 + (s - 1)) at 1 by lia. rewrite Z.pow_add_r by lia. reflexivity. }
  pose proof (Z.div_mod x (2 ^ s) ltac:(lia)) as D.
  pose proof (Z.mod_pos_bound x (2 ^ s) ltac:(lia)) as R.
  set (q := x / 2 ^ s) in *. set (r := x mod 2 ^ s) in *.
  change (2 ^ 53) with (2 * 2 ^ 52) in *.
  assert (Hbig : 2 ^ 52 * (2 * 2 ^ (s - 1)) <= x) by nia.
  destruct (Z.ltb_spec (2 ^ (s - 1)) r) as [Hlt | Hge]; cbn [orb].
  - nia.
  - destruct (Z.eqb_spec r (2 ^ (s - 1))) as [Heq | Hneq]; cbn [andb].
    + destruct (Z.odd q); nia.
    + nia.
Qed.

(** A double that is within [10^-9] of [x / 10^9] dollars prints as the
    amount [x / 10^5] ten-thousandths, rounded to the nearest integer. *)
Lemma tenThousandths_nearest p s x :
  0 <= s -> - 2 ^ s < p * 1000000000 - x * 2 ^ s < 2 ^ s ->
  Z.abs (tenThousandths (mk p s) * 100000 - x) <= 50000.
Proof.
  intros Hs Hd. unfold tenThousandths. cbn [mant scale].
  assert (Hp : 0 < 2 ^ s) by (apply Z.pow_pos_nonneg; lia).
  pose proof (Z.div_mod (2 * p * 10000 + 2 ^ s) (2 * 2 ^ s) ltac:(lia)) as D.
  pose proof (Z.mod_pos_bound (2 * p * 10000 + 2 ^ s) (2 * 2 ^ s) ltac:(lia)) as R.
  set (n := (2 * p * 10000 + 2 ^ s) / (2 * 2 ^ s)) in *.
  set (r := (2 * p * 10000 + 2 ^ s) mod (2 * 2 ^ s)) in *.
  assert (H1 : (n * 100000 - x - 50001) * (2 * 2 ^ s) < 0) by nia.
  assert (H2 : 0 < (n * 100000 - x + 50001) * (2 * 2 ^ s)) by nia.
  assert (n * 100000 - x - 50001 < 0) by nia.
  assert (0 < n * 100000 - x + 50001) by nia.
  lia.
Qed.

(** The error of a product of two quotients that is rounded once more:
    [d1] and [d2] are the errors of the quotients [T] and [C], [R] that of
    the rounding of the product [Q]. *)
Lemma product_error T C d1 d2 R Q :
  0 < T -> 0 < C ->
  - T <= d1 * 2251799813685248 <= T ->
  - C <= d2 * 2251799813685248 <= C ->
  Q = T * C + T * d2 + C * d1 + d1 * d2 ->
  - Q <= R * 9007199254740992 <= Q ->
  - (4 * (T * C)) <= (R + T * d2 + C * d1 + d1 * d2) * 2251799813685248 <= 4 * (T * C).
Proof.
  intros HT HC Hd1 Hd2 HQ HR.
  assert (A1 : 0 <= T * (C - d2 * 2251799813685248)) by (apply Z.mul_nonneg_nonneg; lia).
  assert (A2 : 0 <= T * (C + d2 * 2251799813685248)) by (apply Z.mul_nonneg_nonneg; lia).
  assert (B1 : 0 <= C * (T - d1 * 2251799813685248)) by (apply Z.mul_nonneg_nonneg; lia).
  assert (B2 : 0 <= C * (T + d1 * 2251799813685248)) by (apply Z.mul_nonneg_nonneg; lia).
  assert (D1 : 0 <= (T - d1) * (C - d2 * 2251799813685248))
    by (apply Z.mul_nonneg_nonneg; lia).
  assert (D2 : 0 <= (T + d1) * (C + d2 * 2251799813685248))
    by (apply Z.mul_nonneg_nonneg; lia).
  assert (D3 : 0 <= (T - d1) * (C + d2 * 2251799813685248))
    by (apply Z.mul_nonneg_nonneg; lia).
  assert (D4 : 0 <= (T + d1) * (C - d2 * 2251799813685248))
    by (apply Z.mul_nonneg_nonneg; lia).
  assert (HTC : 0 < T * C) by (apply Z.mul_pos_pos; assumption).
  lia.
Qed.

(** The printed cost of [t] tokens at [c] millionths of a dollar per 1K
    tokens. *)
Lemma costString_nearest t c :
  0 <= t -> 0 <= c -> t * c <= 2 ^ 48 -> t < 2 ^ 52 -> c < 2 ^ 52 ->
  exists n,
    costString t c = printFixed4 n
    /\ Z.abs (n * 100000 - t * c) <= 50000.
Proof.
  intros Ht Hc Htc Ht52 Hc52. unfold costString, toFixed4.
  eexists. split; [reflexivity |].
  destruct (Z.eq_dec t 0) as [-> | Htne].
  { change (div_int 0 1000) with (mk 0 0). unfold mul, tenThousandths.
    destruct (div_int c 1000000) as [q2 e2] eqn:E2. cbn [mant scale].
    rewrite Z.mul_0_l, Z.add_0_l. change (round53 0) with 0.
    assert (0 <= e2).
    { destruct (Z.eq_dec c 0) as [-> | Hcne]; [injection E2 as <- <-; lia |].
      destruct (div_int_mant c 1000000 ltac:(lia) ltac:(lia)) as (e & q & E & He & _).
      rewrite E in E2. injection E2 as <- <-. exact He. }
    assert (Hp : 0 < 2 ^ e2) by (apply Z.pow_pos_nonneg; lia).
    rewrite Z.div_small by lia. cbn. lia. }
  destruct (Z.eq_dec c 0) as [-> | Hcne].
  { change (div_int 0 1000000) with (mk 0 0). unfold mul, tenThousandths.
    cbn [mant scale]. rewrite Z.mul_0_r, Z.add_0_r. change (round53 0) with 0.
    destruct (div_int_mant t 1000 ltac:(lia) ltac:(lia)) as (e & q & -> & He & _).
    cbn [scale].
    assert (Hp : 0 < 2 ^ e) by (apply Z.pow_pos_nonneg; lia).
    rewrite Z.div_small by lia. cbn. lia. }
  destruct (div_int_mant t 1000 ltac:(lia) ltac:(lia)) as (e1 & q1 & -> & He1 & Hq1 & Hd1).
  destruct (div_int_mant c 1000000 ltac:(lia) ltac:(lia)) as (e2 & q2 & -> & He2 & Hq2 & Hd2).
  unfold mul. cbn [mant scale].
  apply tenThousandths_nearest; [lia |].
  rewrite Z.pow_add_r by lia.
  assert (Hp1 : 0 < 2 ^ e1) by (apply Z.pow_pos_nonneg; lia).
  assert (Hp2 : 0 < 2 ^ e2) by (apply Z.pow_pos_nonneg; lia).
  change (2 ^ 52) with 4503599627370496 in *.
  change (2 ^ 48) with 281474976710656 in *.
  assert (Hq12 : 0 <= q1 * q2) by (apply Z.mul_nonneg_nonneg; lia).
  pose proof (round53_error (q1 * q2) Hq12) as Hr.
  change (2 ^ 53) with 9007199254740992 in Hr.
  set (P := round53 (q1 * q2)) in *.
  assert (HT : 0 < t * 2 ^ e1) by (apply Z.mul_pos_pos; lia).
  assert (HC : 0 < c * 2 ^ e2) by (apply Z.mul_pos_pos; lia).
  set (T := t * 2 ^ e1) in *. set (C := c * 2 ^ e2) in *.
  pose proof (product_error T C (q1 * 1000 - T) (q2 * 1000000 - C)
                ((P - q1 * q2) * 1000000000) (q1 * q2 * 1000000000)
                HT HC ltac:(lia) ltac:(lia) ltac:(ring) ltac:(lia)) as Hsum.
  assert (HX : T * C = t * c * (2 ^ e1 * 2 ^ e2)) by (subst T C; ring).
  assert (Hpp : 0 < 2 ^ e1 * 2 ^ e2) by (apply Z.mul_pos_pos; assumption).
  assert (Hbound : 4 * (T * C) <= 1125899906842624 * (2 ^ e1 * 2 ^ e2)).
  { rewrite HX.
    assert (t * c * (2 ^ e1 * 2 ^ e2) <= 281474976710656 * (2 ^ e1 * 2 ^ e2))
      by (apply Z.mul_le_mono_nonneg_r; lia).
    lia. }
  assert (HD : P * 1000000000 - t * c * (2 ^ e1 * 2 ^ e2)
               = (P - q1 * q2) * 1000000000 + T * (q2 * 1000000 - C)
                 + C * (q1 * 1000 - T) + (q1 * 1000 - T) * (q2 * 1000000 - C)).
  { rewrite <- HX. ring. }
  rewrite HD. lia.
Qed.

(** The prices of the database. *)
Lemma database_prices k spec :
  JsMap.get k loadModelDatabase = Some spec ->
  0 <= inputCost spec <= 75000 /\ 0 <= outputCost spec <= 75000.
Proof.
  intros H. apply JsMap_get_value in H.
  assert (Hall : forallb (fun spec => (0 <=? inputCost spec) && (inputCost spec <=? 75000)
                                      && (0 <=? outputCost spec) && (outputCost spec <=? 75000))%bool
                         (List.map snd loadModelDatabase) = true) by (vm_compute; reflexivity).
  rewrite forallb_forall in Hall. specialize (Hall _ H).
  repeat (apply andb_true_iff in Hall; destruct Hall as [Hall ?]).
  repeat match goal with H : (_ <=? _) = true |- _ => apply Z.leb_le in H end. lia.
Qed.

(** X30. For a model of the database and fewer than 2^31 tokens, the cost
    [estimateInputCost] and [estimateOutputCost] print is the exact cost,
    tokens times the price per 1K tokens over 1000, rounded to the nearest
    ten-thousandth of a dollar: the double arithmetic of the source costs
    nothing.  With the price in millionths of a dollar, the amount printed,
    [n] ten-thousandths, is within half a unit of
    [tokens * price / 100000]. *)
Theorem printed_cost_is_the_exact_cost_rounded :
  forall tk u tokenCount model spec,
    initialize tk = Ok u ->
    JsMap.get (normalizeModelName model) loadModelDatabase = Some spec ->
    0 <= tokenCount < 2 ^ 31 ->
    (exists n,
        estimateInputCost (initialize tk) tokenCount model = Ok (printFixed4 n)
        /\ Z.abs (n * 100000 - tokenCount * inputCost spec) <= 50000)
    /\ (exists n,
        estimateOutputCost (initialize tk) tokenCount model = Ok (printFixed4 n)
        /\ Z.abs (n * 100000 - tokenCount * outputCost spec) <= 50000).
Proof.
  intros tk u tokenCount model spec Hinit Hdb Ht.
  destruct (database_prices _ _ Hdb) as [Hin Hout].
  rewrite Hinit. unfold estimateInputCost, estimateOutputCost. cbn [bind].
  rewrite (initialize_database tk u Hinit), Hdb.
  change (2 ^ 31) with 2147483648 in Ht.
  split.
  - destruct (costString_nearest tokenCount (inputCost spec)) as (n & -> & Hn);
      try (change (2 ^ 48) with 281474976710656; change (2 ^ 52) with 4503599627370496; nia).
    exists n. split; [reflexivity | exact Hn].
  - destruct (costString_nearest tokenCount (outputCost spec)) as (n & -> & Hn);
      try (change (2 ^ 48) with 281474976710656; change (2 ^ 52) with 4503599627370496; nia).
    exists n. split; [reflexivity | exact Hn].
Qed.

End Costs.

(** ** The statements about the counter on sample inputs *)

Section AnalysisWitnesses.

Import UniversalTokenCounter.


Lemma recommended_chunk_size_example :
  exists u,
    initialize (Samples.tiktokenOf Samples.wordEncoder) = Ok u
    /\ getOptimalChunkSize (initialize (Samples.tiktokenOf Samples.wordEncoder))
         (str "GPT-4o") Dbl.d0_2 = Ok 102400
    /\ TokenCounter.getRecommendedChunkSize
         (initialize (Samples.tiktokenOf Samples.wordEncoder)) (str "GPT-4o") Dbl.d0_2
       = Num 102400.
Proof.
  eexists.
  assert (H1 : initialize (Samples.tiktokenOf Samples.wordEncoder) = Ok _)
    by (vm_compute; reflexivity).
  split; [exact H1 |].
  destruct (recommended_chunk_size_is_four_fifths
              (Samples.tiktokenOf Samples.wordEncoder) _ (str "GPT-4o") H1) as (H2 & H3 & _).
  split; [exact H2 | exact H3].
Defined.

Lemma analysis_utilization_example :
  exists a,
    analyzeText (initialize (Samples.tiktokenOf Samples.wordEncoder))
      (str "hello wide world") (str "gpt-4") = Ok a
    /\ Analysis.tokenCount a < 2 ^ 52
    /\ Analysis.exceedsContext a = false
    /\ 0 <= Analysis.utilizationPercent a <= 100.
Proof.
  eexists.
  assert (H1 : analyzeText (initialize (Samples.tiktokenOf Samples.wordEncoder))
                 (str "hello wide world") (str "gpt-4") = Ok _)
    by (vm_compute; reflexivity).
  split; [exact H1 |].
  match type of H1 with _ = Ok ?a =>
    assert (H2 : Analysis.tokenCount a < 2 ^ 52) by (vm_compute; reflexivity);
    assert (H3 : Analysis.exceedsContext a = false) by reflexivity
  end.
  split; [exact H2 |]. split; [exact H3 |].
  destruct (analysis_utilization_agrees_with_the_window
              (Samples.tiktokenOf Samples.wordEncoder) (str "hello wide world") (str "gpt-4")
              _ H1 H2) as (_ & _ & _ & Hfit).
  exact (Hfit H3).
Defined.

Lemma printed_cost_example :
  exists u spec,
    initialize (Samples.tiktokenOf Samples.wordEncoder) = Ok u
    /\ JsMap.get (normalizeModelName (str "gpt-4")) loadModelDatabase = Some spec
    /\ 0 <= 1234 < 2 ^ 31
    /\ (exists n,
          estimateInputCost (initialize (Samples.tiktokenOf Samples.wordEncoder)) 1234
            (str "gpt-4") = Ok (Dbl.printFixed4 n)
          /\ Z.abs (n * 100000 - 1234 * inputCost spec) <= 50000)
    /\ (exists n,
          estimateOutputCost (initialize (Samples.tiktokenOf Samples.wordEncoder)) 1234
            (str "gpt-4") = Ok (Dbl.printFixed4 n)
          /\ Z.abs (n * 100000 - 1234 * outputCost spec) <= 50000).
Proof.
  eexists. eexists.
  assert (H1 : initialize (Samples.tiktokenOf Samples.wordEncoder) = Ok _)
    by (vm_compute; reflexivity).
  assert (H2 : JsMap.get (normalizeModelName (str "gpt-4")) loadModelDatabase = Some _)
    by (vm_compute; reflexivity).
  assert (H3 : 0 <= 1234 < 2 ^ 31) by (split; [lia | reflexivity]).
  split; [exact H1 |]. split; [exact H2 |]. split; [exact H3 |].
  exact (printed_cost_is_the_exact_cost_rounded
           (Samples.tiktokenOf Samples.wordEncoder) _ 1234 (str "gpt-4") _ H1 H2 H3).
Defined.

End AnalysisWitnesses.

(** ** UniversalTokenCounter: models the database does not hold *)

Section UnknownModels.

Import UniversalTokenCounter.

Lemma initialize_fallback tk u :
  initialize tk = Ok u -> encoding_for_model tk (str "gpt-4") = Ok (fallbackEncoder u).
Proof.
  unfold initialize, loadOpenAIEncoders.
  destruct (loadEncodersFor tk openaiModels []) as [encs |]; cbn [bind]; [| discriminate].
  destruct (encoding_for_model tk (str "gpt-4")) as [fb |]; cbn [bind]; [| discriminate].
  intros [= <-]. reflexivity.
Qed.

(** C4, as amended. For every text and every model that the database does
    not hold, aliases included: when the counter initialised, [countTokens]
    does not throw, and the count is 0 for the empty text, the number of
    tokens the GPT-4 encoder yields for the text, unscaled (which is that
    number scaled by the ratio 1.0), and [Math.ceil(text.length / 4)] when
    that encoder throws on the text; when the initialisation failed,
    [countTokens] rejects with the error of the initialisation. *)
Theorem countTokens_unknown_model_outcomes :
  forall tk text model,
    JsMap.get (normalizeModelName model) loadModelDatabase = None ->
    match initialize tk with
    | Throw e => countTokens (initialize tk) text model = Throw e
    | Ok u =>
        encoding_for_model tk (str "gpt-4") = Ok (fallbackEncoder u)
        /\ countTokens (initialize tk) text model
           = Ok (if truthy text
                 then match fallbackEncoder u text with
                      | Ok toks => len toks
                      | Throw _ => ceil_div4 (len text)
                      end
                 else 0)
        /\ (forall toks,
               fallbackEncoder u text = Ok toks -> len toks < 2 ^ 53 ->
               Dbl.Math_round (Dbl.mul_int (len toks) Dbl.d1_0) = len toks)
    end.
Proof.
  intros tk text model Hunknown.
  destruct (initialize tk) as [u | e] eqn:Hinit; [| reflexivity].
  split; [apply initialize_fallback, Hinit |]. split.
  - unfold countTokens. cbn [bind].
    destruct (truthy text); cbn [negb]; [| reflexivity].
    rewrite (initialize_database tk u Hinit), Hunknown. reflexivity.
  - intros toks _ Hsmall. apply scale_by_one. pose proof (len_nonneg toks). lia.
Qed.

Lemma countTokens_unknown_model_outcomes_example :
  JsMap.get (normalizeModelName (str "My-Own-Model ")) loadModelDatabase = None
  /\ match initialize (Samples.tiktokenOf Samples.unitEncoder) with
     | Throw e =>
         countTokens (initialize (Samples.tiktokenOf Samples.unitEncoder))
           (str "hello world") (str "My-Own-Model ") = Throw e
     | Ok u =>
         encoding_for_model (Samples.tiktokenOf Samples.unitEncoder) (str "gpt-4")
         = Ok (fallbackEncoder u)
         /\ countTokens (initialize (Samples.tiktokenOf Samples.unitEncoder))
              (str "hello world") (str "My-Own-Model ")
            = Ok (if truthy (str "hello world")
                  then match fallbackEncoder u (str "hello world") with
                       | Ok toks => len toks
                       | Throw _ => ceil_div4 (len (str "hello world"))
                       end
                  else 0)
         /\ (forall toks,
                fallbackEncoder u (str "hello world") = Ok toks -> len toks < 2 ^ 53 ->
                Dbl.Math_round (Dbl.mul_int (len toks) Dbl.d1_0) = len toks)
     end.
Proof.
  assert (H : JsMap.get (normalizeModelName (str "My-Own-Model ")) loadModelDatabase = None)
    by (vm_compute; reflexivity).
  split; [exact H |].
  exact (countTokens_unknown_model_outcomes (Samples.tiktokenOf Samples.unitEncoder)
           (str "hello world") (str "My-Own-Model ") H).
Defined.

(** C4 as stated fails twice.  With a tiktoken that cannot load the GPT-4
    encoding, the counter does not initialise and [countTokens] throws for a
    model the database does not hold.  With an encoder that refuses a text,
    the count of that text is the character estimate, 4 for 13 code units,
    not a count of the tokenizer, which yields none. *)
Lemma countTokens_unknown_model_raises :
  JsMap.get (normalizeModelName (str "my-own-model")) loadModelDatabase = None
  /\ countTokens (initialize Samples.failingTiktoken) (str "hello world") (str "my-own-model")
     = Throw Samples.noEncoding
  /\ (exists u,
         initialize (Samples.tiktokenOf Samples.strictEncoder) = Ok u
         /\ (exists e, fallbackEncoder u Samples.endOfText = Throw e)
         /\ countTokens (initialize (Samples.tiktokenOf Samples.strictEncoder))
              Samples.endOfText (str "my-own-model") = Ok 4).
Proof.
  split; [vm_compute; reflexivity |]. split; [vm_compute; reflexivity |].
  eexists. split; [vm_compute; reflexivity |].
  split; [eexists; vm_compute; reflexivity | vm_compute; reflexivity].
Qed.

End UnknownModels.

(** ** DocumentChunker: the chunk without a token count *)

Section UncountedChunks.

Import DocumentChunker.

(** C1 fails on the code, where the code misses what it attempts.  A text
    of one sentence of 101 words and 504 code units, with a budget of 100
    tokens, through the counter the processor injects: whether tiktoken
    loads (a token per word here, 101 tokens) or not (the estimate of the
    wrapper, 126 tokens), the sentence is over the budget and is cut by
    characters; the count of a piece is the promise that
    [splitByCharacterLimitSecure] did not await, [Math.max(1, promise)] is
    [NaN], the final filter turns every piece down, and the first piece is
    returned as the best effort: a chunk whose token count is neither at
    least 1 nor at most 110.  The same with 140 letters and a token per
    code unit. *)
Lemma uncounted_chunk_is_returned :
  (exists c,
      chunkDocument OperationFirst
        (wrapperCounter (UniversalTokenCounter.initialize Samples.failingTiktoken))
        Samples.hundredWords (MaxInt 100) Samples.gpt4 = Ok [c]
      /\ tokenCount c = NaN
      /\ ~ inBudget 100 c)
  /\ (exists c,
         chunkDocument OperationFirst
           (wrapperCounter
              (UniversalTokenCounter.initialize (Samples.tiktokenOf Samples.wordEncoder)))
           Samples.hundredWords (MaxInt 100) Samples.gpt4 = Ok [c]
         /\ tokenCount c = NaN
         /\ ~ inBudget 100 c)
  /\ (exists c,
         chunkDocument OperationFirst Samples.unitCounter (repeat 97%N 140) (MaxInt 100)
           Samples.gpt4 = Ok [c]
         /\ tokenCount c = NaN
         /\ ~ inBudget 100 c).
Proof.
  split; [| split]; eexists; (split; [vm_compute; reflexivity |]);
    (split; [reflexivity |]); intros (n & Hn & _); discriminate Hn.
Qed.

End UncountedChunks.

(** ** DocumentChunker: what is injected in front of a chunk *)

Section JoinFacts.

Variable sep : jsstring.




End JoinFacts.

Section HeadTight.

Import DocumentChunker.

Variable tc : TokenCounterApi.
Variable model : jsstring.











End HeadTight.

(** ** DocumentChunker: the chunks hold the sections in groups *)

Section Groups.

Import DocumentChunker.

Variable tc : TokenCounterApi.
Variable model : jsstring.
Variable m : Z.





End Groups.

Section Reconstruction.

Import DocumentChunker.


End Reconstruction.

Section ReconstructionOnSamples.

Import DocumentChunker.

(** Two paragraphs of 77 and 31 tokens with a budget of 100: two groups of
    one section, the overlap in front of the first chunk and the context in
    front of the second. *)
Example two_chunk_layout :
  chunkTexts Samples.unitCounter Samples.gpt4 [] [[Samples.alphaToDelta]; [Samples.closing]]
  = [(Samples.alphaToDelta ++ paragraphBreak, Samples.alphaToDelta);
     (Samples.alphaToGamma ++ paragraphBreak, Samples.closing)].
Proof. vm_compute. reflexivity. Qed.



End ReconstructionOnSamples.
